(** * Smart Image Organizer (image_organizer.py): a shallow embedding

    The Python module sorts the images of one directory into folders by
    capture date or by pixel count, and finds and removes duplicate files by
    content digest.  This development embeds its functions in Rocq and proves
    the properties its specification states about them.

    Modelling conventions.
    - A Python [str] is a [string] of 8-bit characters; [str.lower] is the
      ASCII lower-casing (no character outside [A-Z] lower-cases to a letter
      of the supported extensions, so the extension test is unaffected).
    - A [pathlib.Path] is the list of its components from the root: the
      source directory is given by its absolute path.
    - The file system is an association list from paths to nodes; its order
      is the order in which [os.scandir] lists entries.  Regular files carry
      their bytes, their modification time and whether they can be opened
      for reading; directories carry their modification time, which the
      model does not advance when entries are created or removed in them.
      Symbolic links, the entries ['.'] and ['..'] of a directory, directory
      permissions and concurrent processes are outside the model.
    - Python exceptions are values [Raise e] of an outcome type threaded
      together with the state (file system and standard output); effects
      made before an exception stay in the state.
    - The libraries the module calls (Pillow's decoder, [hashlib.md5],
      [datetime.fromtimestamp] for the local time zone with the errors it
      raises, what [strftime] writes for a year below 1000) are variables
      of the section that holds the module's functions.  RFC 1321 is implemented in
      [MD5] so that the digest can be instantiated with the real one. *)

From Stdlib Require Import ZArith List String Ascii Bool Arith Lia.
From Stdlib Require Import Permutation Sorted Finite DecimalNat DecimalString.
From Stdlib Require Import Init.Byte Strings.Byte.
Import ListNotations.
Local Open Scope string_scope.

Set Implicit Arguments.

(* ------------------------------------------------------------------ *)
(** ** Strings *)

Module Str.

Definition is_upper (c : ascii) : bool :=
  (65 <=? nat_of_ascii c)%nat && (nat_of_ascii c <=? 90)%nat.

Definition lower_char (c : ascii) : ascii :=
  if is_upper c then ascii_of_nat (nat_of_ascii c + 32) else c.

(** [str.lower()] *)
Fixpoint lower (s : string) : string :=
  match s with
  | EmptyString => EmptyString
  | String c s' => String (lower_char c) (lower s')
  end.

(** [str.rfind(c)]: [None] stands for Python's [-1]. *)
Fixpoint rfind (c : ascii) (s : string) : option nat :=
  match s with
  | EmptyString => None
  | String a s' =>
      match rfind c s' with
      | Some i => Some (S i)
      | None => if Ascii.eqb a c then Some 0%nat else None
      end
  end.

(** [s[i:]] *)
Fixpoint drop (i : nat) (s : string) : string :=
  match i, s with
  | O, _ => s
  | S i', String _ s' => drop i' s'
  | S _, EmptyString => EmptyString
  end.

(** [s[:i]] *)
Fixpoint take (i : nat) (s : string) : string :=
  match i, s with
  | O, _ => EmptyString
  | S i', String c s' => String c (take i' s')
  | S _, EmptyString => EmptyString
  end.

(** [str(n)] for a non-negative integer. *)
Definition of_nat (n : nat) : string :=
  NilEmpty.string_of_uint (Nat.to_uint n).

(** [f"{n:02d}"] and the two-digit fields of [strftime]. *)
Definition pad (width : nat) (n : nat) : string :=
  let s := of_nat n in
  let fix zeros (k : nat) : string :=
    match k with O => EmptyString | S k' => String "0" (zeros k') end in
  zeros (width - String.length s) ++ s.

(** ["/".join(parts)] *)
Fixpoint join (sep : string) (parts : list string) : string :=
  match parts with
  | [] => EmptyString
  | [p] => p
  | p :: rest => p ++ sep ++ join sep rest
  end.

End Str.

(* ------------------------------------------------------------------ *)
(** ** Paths ([pathlib.PurePath]) *)

(** A path is the list of the names from the root to an entry: the source
    directory is given by its path from the root. *)
Definition path := list string.

Fixpoint path_eqb (p q : path) : bool :=
  match p, q with
  | [], [] => true
  | a :: p', b :: q' => String.eqb a b && path_eqb p' q'
  | _, _ => false
  end.

(** [p.name]: the final component. *)
Definition name (p : path) : string := last p "".

(** [p.parent] *)
Definition parent (p : path) : path := removelast p.

(** [p.suffix], as [pathlib] defines it: with [i = name.rfind('.')], the
    text from [i] on when [0 < i < len(name) - 1], and [''] otherwise. *)
Definition suffix_of_name (n : string) : string :=
  match Str.rfind "." n with
  | Some i =>
      if (0 <? i)%nat && (i <? String.length n - 1)%nat
      then Str.drop i n else ""
  | None => ""
  end.

(** [p.stem]: the name without its suffix. *)
Definition stem_of_name (n : string) : string :=
  match Str.rfind "." n with
  | Some i =>
      if (0 <? i)%nat && (i <? String.length n - 1)%nat
      then Str.take i n else n
  | None => n
  end.

Definition suffix (p : path) : string := suffix_of_name (name p).
Definition stem (p : path) : string := stem_of_name (name p).

(** [p.relative_to(base)]; [None] stands for the [ValueError] raised when
    [base] is not a prefix of [p]. *)
Fixpoint relative_to (p base : path) {struct base} : option path :=
  match base, p with
  | [], _ => Some p
  | b :: base', a :: p' =>
      if String.eqb a b then relative_to p' base' else None
  | _ :: _, [] => None
  end.

(** [p / t] for a string [t]: [t] is split at ['/'], empty parts and ['.']
    are dropped, ['..'] is kept, and an absolute [t] replaces [p].  A
    path of the model starts at the root, so the parts of an absolute [t]
    are its path. *)
Fixpoint split_slash (s cur : string) : list string :=
  match s with
  | EmptyString => [cur]
  | String c s' =>
      if Ascii.eqb c "/" then cur :: split_slash s' EmptyString
      else split_slash s' (cur ++ String c EmptyString)
  end.

Definition path_parts (t : string) : list string :=
  filter (fun c => negb (String.eqb c "") && negb (String.eqb c "."))
         (split_slash t EmptyString).

Definition is_absolute (t : string) : bool :=
  match t with String c _ => Ascii.eqb c "/" | EmptyString => false end.

Definition joinpath (p : path) (t : string) : path :=
  if is_absolute t then path_parts t else (p ++ path_parts t)%list.

(** A string that is one name: not empty, not ['.'] or ['..'], and
    without ['/']. *)
Fixpoint has_slash (t : string) : bool :=
  match t with
  | EmptyString => false
  | String c t' => Ascii.eqb c "/" || has_slash t'
  end.

Definition plain_name (t : string) : bool :=
  negb (has_slash t) && negb (String.eqb t "") && negb (String.eqb t ".")
  && negb (String.eqb t "..").

(** [str(p)] for a relative path. *)
Definition path_str (p : path) : string := Str.join "/" p.

(** Whether [fnmatch] matches a name against the pattern ['*.*']: the name
    contains a dot. *)
Definition fnmatch_star_dot_star (n : string) : bool :=
  match Str.rfind "." n with Some _ => true | None => false end.

(* ------------------------------------------------------------------ *)
(** ** Dates ([datetime.datetime]) *)

Record datetime := mk_datetime {
  year : nat; month : nat; day : nat;
  hour : nat; minute : nat; second : nat
}.

Definition is_leap (y : nat) : bool :=
  ((y mod 4 =? 0) && negb (y mod 100 =? 0) || (y mod 400 =? 0))%nat.

Definition days_in_month (y m : nat) : nat :=
  match m with
  | 1 | 3 | 5 | 7 | 8 | 10 | 12 => 31
  | 4 | 6 | 9 | 11 => 30
  | 2 => if is_leap y then 29 else 28
  | _ => 0
  end.

(** The range checks of the [datetime] constructor. *)
Definition valid_datetime (d : datetime) : bool :=
  ((1 <=? year d) && (Z.of_nat (year d) <=? 9999)%Z &&
   (1 <=? month d) && (month d <=? 12) &&
   (1 <=? day d) && (day d <=? days_in_month (year d) (month d)) &&
   (hour d <=? 23) && (minute d <=? 59) && (second d <=? 59))%nat.

(** *** [datetime.strptime(value, '%Y:%m:%d %H:%M:%S')]

    [_strptime] turns the format into a regular expression, one group of
    ordered alternatives per directive, matches it at the start of the text
    and rejects text left over.  A parser here yields its matches in the
    order the regular expression engine tries them. *)
Module Strptime.

Definition parser (A : Type) := string -> list (A * string).

Definition is_digit (c : ascii) : bool :=
  (48 <=? nat_of_ascii c)%nat && (nat_of_ascii c <=? 57)%nat.

Definition digit (c : ascii) : nat := nat_of_ascii c - 48.

(** [\s] on characters below 256. *)
Definition is_space (c : ascii) : bool :=
  let n := nat_of_ascii c in
  ((9 <=? n) && (n <=? 13) || (28 <=? n) && (n <=? 32) ||
   (n =? 133) || (n =? 160))%nat.

Definition in_range (lo hi : nat) (c : ascii) : bool :=
  (lo <=? digit c)%nat && (digit c <=? hi)%nat && is_digit c.

(** One digit in [lo..hi]. *)
Definition d1 (lo hi : nat) : parser nat := fun s =>
  match s with
  | String c r => if in_range lo hi c then [(digit c, r)] else []
  | EmptyString => []
  end.

(** Two digits, the first in [lo1..hi1] and the second in [lo2..hi2]. *)
Definition d2 (lo1 hi1 lo2 hi2 : nat) : parser nat := fun s =>
  match s with
  | String a (String b r) =>
      if in_range lo1 hi1 a && in_range lo2 hi2 b
      then [(10 * digit a + digit b, r)%nat] else []
  | _ => []
  end.

(** A space and one digit in [1..9] (the last alternative of [%d]). *)
Definition sp_d1 : parser nat := fun s =>
  match s with
  | String " " r => d1 1 9 r
  | _ => []
  end.

Definition alt {A} (p q : parser A) : parser A :=
  fun s => (p s ++ q s)%list.

Definition seq {A B} (p : parser A) (f : A -> parser B) : parser B :=
  fun s => flat_map (fun ar => f (fst ar) (snd ar)) (p s).

Definition lit (c : ascii) : parser unit := fun s =>
  match s with
  | String a r => if Ascii.eqb a c then [(tt, r)] else []
  | EmptyString => []
  end.

(** [\s+], greedy: the longest run first. *)
Fixpoint spaces1 (s : string) : list (unit * string) :=
  match s with
  | String a r => if is_space a then (spaces1 r ++ [(tt, r)])%list else []
  | EmptyString => []
  end.

(** [%Y]: [\d\d\d\d]. *)
Definition pY : parser nat := fun s =>
  match s with
  | String a (String b (String c (String d r))) =>
      if is_digit a && is_digit b && is_digit c && is_digit d
      then [(1000 * digit a + 100 * digit b + 10 * digit c + digit d, r)%nat]
      else []
  | _ => []
  end.

(** [%m]: [1[0-2]|0[1-9]|[1-9]]. *)
Definition pm : parser nat := alt (d2 1 1 0 2) (alt (d2 0 0 1 9) (d1 1 9)).
(** [%d]: [3[0-1]|[1-2]\d|0[1-9]|[1-9]| [1-9]]. *)
Definition pd : parser nat :=
  alt (d2 3 3 0 1) (alt (d2 1 2 0 9) (alt (d2 0 0 1 9) (alt (d1 1 9) sp_d1))).
(** [%H]: [2[0-3]|[0-1]\d|\d]. *)
Definition pH : parser nat := alt (d2 2 2 0 3) (alt (d2 0 1 0 9) (d1 0 9)).
(** [%M]: [[0-5]\d|\d]. *)
Definition pM : parser nat := alt (d2 0 5 0 9) (d1 0 9).
(** [%S]: [6[0-1]|[0-5]\d|\d]. *)
Definition pS : parser nat := alt (d2 6 6 0 1) (alt (d2 0 5 0 9) (d1 0 9)).

Definition format_regex : parser datetime :=
  seq pY (fun y => seq (lit ":") (fun _ =>
  seq pm (fun m => seq (lit ":") (fun _ =>
  seq pd (fun d => seq spaces1 (fun _ =>
  seq pH (fun h => seq (lit ":") (fun _ =>
  seq pM (fun mi => seq (lit ":") (fun _ =>
  seq pS (fun sec => fun r => [(mk_datetime y m d h mi sec, r)]))))))))))).

(** [None] stands for [ValueError]: no match, unconverted data left, or
    fields that are no date. *)
Definition strptime (value : string) : option datetime :=
  match format_regex value with
  | (d, EmptyString) :: _ => if valid_datetime d then Some d else None
  | _ => None
  end.

End Strptime.

(* ------------------------------------------------------------------ *)
(** ** The file system and the program state *)

Definition bytes := list byte.

Inductive node :=
| File (content : bytes) (mtime : Z) (readable : bool)
| Dir (mtime : Z).

(** The entries of the file system by their paths.  An entry is looked up
    by the names of its path: there are no links, and ['..'] is a name
    like any other, which no entry has. *)
Definition fs := list (path * node).

Inductive exn :=
| FileNotFoundError | FileExistsError | NotADirectoryError
| IsADirectoryError | PermissionError | SameFileError
| UnidentifiedImageError | AttributeError | TypeError | ValueError
| OverflowError | OSError | KeyError | SystemExit (status : Z).

(** What [print] wrote, one constructor per [print] call of the module;
    the formatted fields are kept apart. *)
Inductive printed :=
| Line (text : string)
| ErrorProcessing (img_file : path) (e : exn)
| ErrorHashing (img_file : path) (e : exn)
| DateEntry (folder files : string)
| SizeEntry (category orig new : string)
| Copies (count : nat) (names : list string)
| RemovedCount (count : nat)
| RemovedName (file_name : string).

(** [clock] is the time a directory created by the program is stamped
    with. *)
Record state := mk_state {
  files : fs;
  stdout : list printed;
  clock : Z
}.

Definition set_files (s : state) (t : fs) : state :=
  mk_state t (stdout s) (clock s).

Fixpoint lookup (p : path) (t : fs) : option node :=
  match t with
  | [] => None
  | (q, n) :: t' => if path_eqb q p then Some n else lookup p t'
  end.

(** Replace the node bound to [p] where [p] is bound. *)
Fixpoint update (p : path) (n : node) (t : fs) : fs :=
  match t with
  | [] => []
  | (q, m) :: t' =>
      if path_eqb q p then (q, n) :: t' else (q, m) :: update p n t'
  end.

Definition remove (p : path) (t : fs) : fs :=
  filter (fun e => negb (path_eqb (fst e) p)) t.

(** No path is bound twice. *)
Fixpoint nodup_keys (t : fs) : bool :=
  match t with
  | [] => true
  | (p, _) :: t' =>
      match lookup p t' with Some _ => false | None => nodup_keys t' end
  end.

Definition is_file (n : node) : bool :=
  match n with File _ _ _ => true | Dir _ => false end.

(** *** Outcomes and the monad of the module's functions *)

Inductive outcome (A : Type) :=
| Ret (a : A)          (* normal completion *)
| Raise (e : exn)      (* an exception propagates *)
| Diverge.             (* the loop bound of the model was reached *)

Arguments Ret {A} a.
Arguments Raise {A} e.
Arguments Diverge {A}.

Definition M (A : Type) := state -> outcome A * state.

Definition ret {A} (a : A) : M A := fun s => (Ret a, s).

Definition raise {A} (e : exn) : M A := fun s => (Raise e, s).

Definition diverge {A} : M A := fun s => (Diverge, s).

Definition bind {A B} (c : M A) (k : A -> M B) : M B := fun s =>
  match c s with
  | (Ret a, s') => k a s'
  | (Raise e, s') => (Raise e, s')
  | (Diverge, s') => (Diverge, s')
  end.

(** [try: body  except ...: handler]; both [except:] and
    [except Exception] catch every exception of the model. *)
Definition try_except {A} (body : M A) (handler : exn -> M A) : M A :=
  fun s =>
  match body s with
  | (Raise e, s') => handler e s'
  | r => r
  end.

Declare Scope monad_scope.
Delimit Scope monad_scope with monad.
Notation "x <- c1 ;; c2" := (bind c1 (fun x => c2))
  (at level 61, c1 at next level, right associativity) : monad_scope.
Notation "c1 ;; c2" := (bind c1 (fun _ => c2))
  (at level 61, right associativity) : monad_scope.
Local Open Scope monad_scope.

(** [for x in xs: acc = body(acc, x)] *)
Fixpoint for_each {A B} (xs : list A) (acc : B) (body : B -> A -> M B)
  : M B :=
  match xs with
  | [] => ret acc
  | x :: xs' => acc' <- body acc x ;; for_each xs' acc' body
  end.

Definition print (l : printed) : M unit := fun s =>
  (Ret tt, mk_state (files s) (stdout s ++ [l])%list (clock s)).

(** *** System calls *)

(** [p.exists()] *)
Definition exists_ (p : path) : M bool := fun s =>
  (Ret (match lookup p (files s) with Some _ => true | None => false end), s).

(** [p.is_dir()] *)
Definition is_dir (p : path) : M bool := fun s =>
  (Ret (match lookup p (files s) with
        | Some (Dir _) => true | _ => false end), s).

(** [os.mkdir(p)] *)
Definition os_mkdir (p : path) : M unit := fun s =>
  match lookup p (files s) with
  | Some _ => (Raise FileExistsError, s)
  | None =>
      match lookup (parent p) (files s) with
      | Some (Dir _) =>
          (Ret tt, set_files s (files s ++ [(p, Dir (clock s))])%list)
      | Some (File _ _ _) => (Raise NotADirectoryError, s)
      | None => (Raise FileNotFoundError, s)
      end
  end.

(** [p.mkdir(exist_ok=True)]: [FileNotFoundError] is raised again, any
    other [OSError] is swallowed when [p] is a directory. *)
Definition mkdir (p : path) : M unit :=
  try_except (os_mkdir p)
    (fun e =>
       match e with
       | FileNotFoundError => raise e
       | _ => d <- is_dir p ;; if d then ret tt else raise e
       end).

(** [p.mkdir(parents=True, exist_ok=True)], by recursion on the reversed
    path: on [FileNotFoundError] the parent is made first, any other
    [OSError] is swallowed when [p] is a directory. *)
Fixpoint mkdir_parents_rev (r : list string) : M unit :=
  let p := rev r in
  try_except (os_mkdir p)
    (fun e =>
       match e with
       | FileNotFoundError =>
           match r with
           | [] => raise e
           | _ :: r' => mkdir_parents_rev r' ;; mkdir p
           end
       | _ => d <- is_dir p ;; if d then ret tt else raise e
       end).

Definition mkdir_parents (p : path) : M unit := mkdir_parents_rev (rev p).

(** [open(p, 'rb').read()]: the bytes of a readable regular file. *)
Definition open_rb (p : path) : M bytes := fun s =>
  match lookup p (files s) with
  | None => (Raise FileNotFoundError, s)
  | Some (Dir _) => (Raise IsADirectoryError, s)
  | Some (File c _ r) => if r then (Ret c, s) else (Raise PermissionError, s)
  end.

(** [os.path.getmtime(p)] and [p.stat().st_mtime] *)
Definition getmtime (p : path) : M Z := fun s =>
  match lookup p (files s) with
  | None => (Raise FileNotFoundError, s)
  | Some (File _ m _) => (Ret m, s)
  | Some (Dir m) => (Ret m, s)
  end.

(** [shutil.copy2(src, dst)]: into [dst/name] when [dst] is a directory;
    the source is opened before the destination is created; bytes, times
    and permission bits go to the destination. *)
Definition copy2 (src dst : path) : M unit := fun s =>
  let t := files s in
  let dst :=
    match lookup dst t with
    | Some (Dir _) => (dst ++ [name src])%list
    | _ => dst
    end in
  if path_eqb src dst then
    match lookup src t with
    | Some _ => (Raise SameFileError, s)
    | None => (Raise FileNotFoundError, s)
    end
  else
  match lookup src t with
  | None => (Raise FileNotFoundError, s)
  | Some (Dir _) => (Raise IsADirectoryError, s)
  | Some (File c m false) => (Raise PermissionError, s)
  | Some (File c m true) =>
      match lookup dst t with
      | Some (Dir _) => (Raise IsADirectoryError, s)
      | Some (File _ _ _) => (Ret tt, set_files s (update dst (File c m true) t))
      | None =>
          match lookup (parent dst) t with
          | Some (Dir _) =>
              (Ret tt, set_files s (t ++ [(dst, File c m true)])%list)
          | Some (File _ _ _) => (Raise NotADirectoryError, s)
          | None => (Raise FileNotFoundError, s)
          end
      end
  end.

(** [p.unlink()] *)
Definition unlink (p : path) : M unit := fun s =>
  match lookup p (files s) with
  | None => (Raise FileNotFoundError, s)
  | Some (Dir _) => (Raise IsADirectoryError, s)
  | Some (File _ _ _) => (Ret tt, set_files s (remove p (files s)))
  end.

(** The names [scandir] lists in directory [d], in its order. *)
Definition child_name (d p : path) : option string :=
  match relative_to p d with
  | Some [n] => Some n
  | _ => None
  end.

Definition scandir (d : path) (t : fs) : list string :=
  flat_map (fun e => match child_name d (fst e) with
                     | Some n => [n] | None => [] end) t.

(** [list(d.glob('*.*'))]: the entries of [d] whose name matches, none
    when [d] is no directory.  [pathlib] reads the whole directory when the
    iteration starts. *)
Definition glob_star_dot_star (d : path) : M (list path) := fun s =>
  match lookup d (files s) with
  | Some (Dir _) =>
      (Ret (map (fun n => d ++ [n])%list
              (filter fnmatch_star_dot_star (scandir d (files s)))), s)
  | _ => (Ret [], s)
  end.

(* ------------------------------------------------------------------ *)
(** ** MD5 (RFC 1321), the digest behind [hashlib.md5] *)

Module MD5.
Local Open Scope Z_scope.

Definition modulus : Z := 4294967296.

Definition add32 (a b : Z) : Z := (a + b) mod modulus.

Definition not32 (a : Z) : Z := Z.lxor a 4294967295.

Definition rotl (x c : Z) : Z :=
  Z.lor (Z.shiftl x c mod modulus) (Z.shiftr x (32 - c)).

(** [K[i] = floor(2^32 * abs(sin(i + 1)))] *)
Definition K : list Z :=
  [3614090360; 3905402710; 606105819; 3250441966;
   4118548399; 1200080426; 2821735955; 4249261313;
   1770035416; 2336552879; 4294925233; 2304563134;
   1804603682; 4254626195; 2792965006; 1236535329;
   4129170786; 3225465664; 643717713; 3921069994;
   3593408605; 38016083; 3634488961; 3889429448;
   568446438; 3275163606; 4107603335; 1163531501;
   2850285829; 4243563512; 1735328473; 2368359562;
   4294588738; 2272392833; 1839030562; 4259657740;
   2763975236; 1272893353; 4139469664; 3200236656;
   681279174; 3936430074; 3572445317; 76029189;
   3654602809; 3873151461; 530742520; 3299628645;
   4096336452; 1126891415; 2878612391; 4237533241;
   1700485571; 2399980690; 4293915773; 2240044497;
   1873313359; 4264355552; 2734768916; 1309151649;
   4149444226; 3174756917; 718787259; 3951481745].

(** The per-round shift amounts. *)
Definition shifts : list Z :=
  [7; 12; 17; 22; 7; 12; 17; 22; 7; 12; 17; 22; 7; 12; 17; 22;
   5; 9; 14; 20; 5; 9; 14; 20; 5; 9; 14; 20; 5; 9; 14; 20;
   4; 11; 16; 23; 4; 11; 16; 23; 4; 11; 16; 23; 4; 11; 16; 23;
   6; 10; 15; 21; 6; 10; 15; 21; 6; 10; 15; 21; 6; 10; 15; 21].

(** [n] as [k] bytes, least significant first. *)
Fixpoint le_bytes (k : nat) (n : Z) : list Z :=
  match k with
  | O => []
  | S k' => (n mod 256) :: le_bytes k' (n / 256)
  end.

(** The message followed by [0x80], zeros up to 56 modulo 64, and the bit
    length on 64 bits. *)
Definition padding (msg : list Z) : list Z :=
  let len := Z.of_nat (List.length msg) in
  (msg ++ [128] ++ repeat 0 (Z.to_nat ((55 - len) mod 64)) ++
   le_bytes 8 ((8 * len) mod 18446744073709551616))%list.

(** Little-endian 32-bit words. *)
Fixpoint words (bs : list Z) : list Z :=
  match bs with
  | b0 :: b1 :: b2 :: b3 :: rest =>
      (b0 + 256 * b1 + 65536 * b2 + 16777216 * b3) :: words rest
  | _ => []
  end.

Definition regs : Type := Z * Z * Z * Z.

Definition step (block : list Z) (st : regs) (i : nat) : regs :=
  let '(a, b, c, d) := st in
  let fg :=
    if (i <? 16)%nat then
      (Z.lor (Z.land b c) (Z.land (not32 b) d), i)
    else if (i <? 32)%nat then
      (Z.lor (Z.land d b) (Z.land (not32 d) c), ((5 * i + 1) mod 16)%nat)
    else if (i <? 48)%nat then
      (Z.lxor (Z.lxor b c) d, ((3 * i + 5) mod 16)%nat)
    else
      (Z.lxor c (Z.lor b (not32 d)), ((7 * i) mod 16)%nat) in
  let f := add32 (add32 (add32 (fst fg) a) (nth i K 0)) (nth (snd fg) block 0) in
  (d, add32 b (rotl f (nth i shifts 0)), b, c).

Definition compress (st : regs) (block : list Z) : regs :=
  let '(a, b, c, d) := fold_left (step block) (seq 0 64) st in
  let '(a0, b0, c0, d0) := st in
  (add32 a0 a, add32 b0 b, add32 c0 c, add32 d0 d).

(** Cut a list of words into blocks of 16. *)
Fixpoint blocks (fuel : nat) (ws : list Z) : list (list Z) :=
  match fuel, ws with
  | S fuel', _ :: _ => firstn 16 ws :: blocks fuel' (skipn 16 ws)
  | _, _ => []
  end.

Definition initial : regs := (1732584193, 4023233417, 2562383102, 271733878).

Definition digest (msg : list Z) : list Z :=
  let ws := words (padding msg) in
  let '(a, b, c, d) := fold_left compress (blocks (List.length ws) ws) initial in
  (le_bytes 4 a ++ le_bytes 4 b ++ le_bytes 4 c ++ le_bytes 4 d)%list.

Definition hex_digit (n : Z) : ascii :=
  if n <? 10 then ascii_of_nat (48 + Z.to_nat n)
  else ascii_of_nat (87 + Z.to_nat n).

Fixpoint hex (bs : list Z) : string :=
  match bs with
  | [] => EmptyString
  | b :: rest => String (hex_digit (b / 16)) (String (hex_digit (b mod 16)) (hex rest))
  end.

(** [hashlib.md5(content).hexdigest()] *)
Definition hexdigest (content : bytes) : string :=
  hex (digest (map (fun b => Z.of_N (Byte.to_N b)) content)).

End MD5.

(** The bytes written as a string of hexadecimal digits (two per byte). *)
Definition hex_value (c : ascii) : N :=
  let n := N_of_ascii c in
  (if n <? 58 then n - 48 else if n <? 71 then n - 55 else n - 87)%N.

Fixpoint bytes_of_hex (s : string) : bytes :=
  match s with
  | String a (String b rest) =>
      match Byte.of_N (16 * hex_value a + hex_value b) with
      | Some x => x :: bytes_of_hex rest
      | None => bytes_of_hex rest
      end
  | _ => []
  end.

(** The bytes of a text. *)
Definition bytes_of_string (s : string) : bytes := list_byte_of_string s.

(* ------------------------------------------------------------------ *)
(** ** Images as Pillow shows them *)

(** The values of an EXIF dictionary: text, or anything else. *)
Inductive exif_value :=
| ExifStr (text : string)
| ExifOther.

(** What [img._getexif()] does: it raises (formats without the method raise
    [AttributeError]), or returns [None] or a dictionary. *)
Inductive getexif_result :=
| GetexifRaises (e : exn)
| GetexifReturns (exif : option (list (Z * exif_value))).

Record image := mk_image {
  size : Z * Z;               (* (width, height) *)
  getexif : getexif_result
}.

(** ** Dictionaries, in insertion order *)

Definition dict (V : Type) := list (string * V).

Fixpoint dict_get {V} (k : string) (d : dict V) : option V :=
  match d with
  | [] => None
  | (k', v) :: d' => if String.eqb k' k then Some v else dict_get k d'
  end.

(** [d[k].append(x)] on a [defaultdict(list)]. *)
Fixpoint dict_append {X} (k : string) (x : X) (d : dict (list X))
  : dict (list X) :=
  match d with
  | [] => [(k, [x])]
  | (k', xs) :: d' =>
      if String.eqb k' k then (k', (xs ++ [x])%list) :: d'
      else (k', xs) :: dict_append k x d'
  end.

(** ** Sorting ([list.sort(key=...)], which is stable) *)

Fixpoint insert_by_key {X} (x : Z * X) (l : list (Z * X)) : list (Z * X) :=
  match l with
  | [] => [x]
  | y :: l' =>
      if (fst x <=? fst y)%Z then x :: l else y :: insert_by_key x l'
  end.

Definition sort_by_key {X} (l : list (Z * X)) : list (Z * X) :=
  fold_right insert_by_key [] l.

(** ** The command line *)

(** The command line after [argparse] has recognised its option strings. *)
Inductive token :=
| TPositional (value : path)
| TByDate | TBySize | TFindDupes | TRemoveDupes
| TKeep (value : string)
| THelp
| TUnknown (option_string : string).

Record Namespace := mk_Namespace {
  source : path;
  by_date : bool;
  by_size : bool;
  find_dupes : bool;
  remove_dupes : bool;
  keep : string
}.

(** The four operations [main] can start. *)
Inductive operation := OrganizeByDate | OrganizeBySize | FindDuplicates
                     | RemoveDuplicates.

(** [parse_args] either returns the namespace or leaves the program with an
    exit status (0 after [--help], 2 after a usage error). *)
Inductive parsed :=
| Parsed (args : Namespace)
| Exit (status : Z).

Record parse_state := mk_parse_state {
  ps_source : option path;
  ps_extras : bool;     (* unrecognized arguments were seen *)
  ps_by_date : bool;
  ps_by_size : bool;
  ps_find_dupes : bool;
  ps_remove_dupes : bool;
  ps_keep : string
}.

(** The defaults of the parser: the flags are [store_true], [--keep]
    defaults to ['first']. *)
Definition parse_init : parse_state :=
  mk_parse_state None false false false false false "first".

Fixpoint parse_tokens (argv : list token) (st : parse_state) : parsed + parse_state :=
  match argv with
  | [] => inr st
  | t :: rest =>
      let '(mk_parse_state src ex bd bs fd rd kp) := st in
      match t with
      | TPositional v =>
          match src with
          | None => parse_tokens rest (mk_parse_state (Some v) ex bd bs fd rd kp)
          | Some _ => parse_tokens rest (mk_parse_state src true bd bs fd rd kp)
          end
      | TByDate => parse_tokens rest (mk_parse_state src ex true bs fd rd kp)
      | TBySize => parse_tokens rest (mk_parse_state src ex bd true fd rd kp)
      | TFindDupes => parse_tokens rest (mk_parse_state src ex bd bs true rd kp)
      | TRemoveDupes => parse_tokens rest (mk_parse_state src ex bd bs fd true kp)
      | TKeep v =>
          if String.eqb v "first" || String.eqb v "last"
          then parse_tokens rest (mk_parse_state src ex bd bs fd rd v)
          else inl (Exit 2)
      | THelp => inl (Exit 0)
      | TUnknown _ => parse_tokens rest (mk_parse_state src true bd bs fd rd kp)
      end
  end.

Definition parse_args (argv : list token) : parsed :=
  match parse_tokens argv parse_init with
  | inl r => r
  | inr st =>
      match ps_source st with
      | None => Exit 2                  (* the positional is required *)
      | Some src =>
          if ps_extras st then Exit 2   (* unrecognized arguments *)
          else Parsed (mk_Namespace src (ps_by_date st) (ps_by_size st)
                         (ps_find_dupes st) (ps_remove_dupes st) (ps_keep st))
      end
  end.

(* ------------------------------------------------------------------ *)
(** ** A small world to run the functions in *)

Module Demo.

(** The bytes of four files. *)
Definition jpeg_first : bytes :=
  bytes_of_string "JFIF Exif 2021:06:15 10:30:00 first photo".
Definition jpeg_second : bytes :=
  bytes_of_string "JFIF Exif 2021:06:15 10:30:00 second photo".
Definition png_plain : bytes := bytes_of_string "PNG without metadata".
Definition gif_small : bytes := bytes_of_string "GIF89a".
Definition no_image : bytes := bytes_of_string "this is no image".

Definition exif_2021 : getexif_result :=
  GetexifReturns
    (Some [(271%Z, ExifStr "Canon");
           (36867%Z, ExifStr "2021:06:15 10:30:00");
           (37377%Z, ExifOther)]).

(** A decoder that knows these files and nothing else. *)
Definition decode (c : bytes) : option image :=
  let text := string_of_list_byte c in
  if String.eqb text (string_of_list_byte jpeg_first)
  then Some (mk_image (640, 480)%Z exif_2021)
  else if String.eqb text (string_of_list_byte jpeg_second)
  then Some (mk_image (2000, 1500)%Z exif_2021)
  else if String.eqb text (string_of_list_byte png_plain)
  then Some (mk_image (1000, 1200)%Z (GetexifReturns None))
  else if String.eqb text (string_of_list_byte gif_small)
  then Some (mk_image (16, 16)%Z (GetexifRaises AttributeError))
  else None.

(** The civil date of a day count from 1970-01-01. *)
Definition civil_from_days (z : Z) : Z * Z * Z :=
  let z := (z + 719468)%Z in
  let era := (z / 146097)%Z in
  let doe := (z - era * 146097)%Z in
  let yoe := ((doe - doe / 1460 + doe / 36524 - doe / 146096) / 365)%Z in
  let doy := (doe - (365 * yoe + yoe / 4 - yoe / 100))%Z in
  let mp := ((5 * doy + 2) / 153)%Z in
  let d := (doy - (153 * mp + 2) / 5 + 1)%Z in
  let m := (if mp <? 10 then mp + 3 else mp - 9)%Z in
  ((yoe + era * 400 + (if m <=? 2 then 1 else 0))%Z, m, d).

(** [datetime.fromtimestamp] where the local time is UTC; the time stamp
    counts seconds.  Outside the years 1 to 9999 it raises. *)
Definition fromtimestamp (t : Z) : exn + datetime :=
  if ((t <? -62135596800) || (253402300799 <? t))%Z then inl ValueError
  else
    let '(y, m, d) := civil_from_days (t / 86400) in
    let r := (t mod 86400)%Z in
    inr (mk_datetime (Z.to_nat y) (Z.to_nat m) (Z.to_nat d)
           (Z.to_nat (r / 3600)) (Z.to_nat ((r mod 3600) / 60))
           (Z.to_nat (r mod 60))).

(** [strftime('%Y')] of glibc for a year below 1000. *)
Definition small_year (y : nat) : string := Str.of_nat y.

(** A directory of photos: two photos taken in the same second, a copy of
    the first one, a text, a picture that cannot be opened, a file with an
    image name that holds no image, and a directory with an image name. *)
Definition photos : state :=
  mk_state
    [([], Dir 0);
     (["photos"], Dir 1600000000);
     (["photos"; "a.jpg"], File jpeg_first 1623753000 true);
     (["photos"; "b.jpg"], File jpeg_second 1623753001 true);
     (["photos"; "c.JPG"], File jpeg_first 1623753002 true);
     (["photos"; "notes.txt"], File no_image 1623753003 true);
     (["photos"; "locked.png"], File png_plain 1623753004 false);
     (["photos"; "broken.gif"], File no_image 1623753005 true);
     (["photos"; "album.bmp"], Dir 1623753006)]
    [] 1700000000.

(** Two files with the two 128-byte messages of Wang and Yu, which differ
    in six bytes and have the same MD5 digest. *)
Definition collision_1 : bytes :=
  bytes_of_hex
    ("d131dd02c5e6eec4693d9a0698aff95c2fcab58712467eab4004583eb8fb7f89" ++
     "55ad340609f4b30283e488832571415a085125e8f7cdc99fd91dbdf280373c5b" ++
     "d8823e3156348f5bae6dacd436c919c6dd53e2b487da03fd02396306d248cda0" ++
     "e99f33420f577ee8ce54b67080a80d1ec69821bcb6a8839396f9652b6ff72a70").

Definition collision_2 : bytes :=
  bytes_of_hex
    ("d131dd02c5e6eec4693d9a0698aff95c2fcab50712467eab4004583eb8fb7f89" ++
     "55ad340609f4b30283e4888325f1415a085125e8f7cdc99fd91dbd7280373c5b" ++
     "d8823e3156348f5bae6dacd436c919c6dd53e23487da03fd02396306d248cda0" ++
     "e99f33420f577ee8ce54b67080280d1ec69821bcb6a8839396f965ab6ff72a70").

Definition colliding : state :=
  mk_state
    [([], Dir 0);
     (["scans"], Dir 1600000000);
     (["scans"; "page1.png"], File collision_1 1623753000 true);
     (["scans"; "page2.png"], File collision_2 1623753001 true)]
    [] 1700000000.

End Demo.

(* ------------------------------------------------------------------ *)
(** ** The functions of image_organizer.py *)

Definition child (p : path) (c : string) : path := (p ++ [c])%list.
Notation "p // c" := (child p c) (at level 40, left associativity).

(** The list the three scans test [img_file.suffix.lower()] against. *)
Definition image_suffixes : list string :=
  [".jpg"; ".jpeg"; ".png"; ".gif"; ".bmp"; ".webp"; ".tiff"].

Definition has_image_suffix (img_file : path) : bool :=
  existsb (String.eqb (Str.lower (suffix img_file))) image_suffixes.

(** [while target_file.exists(): target_file = candidate(counter);
    counter += 1], bounded by [fuel] iterations. *)
Fixpoint while_exists (fuel : nat) (candidate : nat -> path)
    (target_file : path) (counter : nat) : M path :=
  e <- exists_ target_file ;;
  if e then
    match fuel with
    | O => diverge
    | S fuel' => while_exists fuel' candidate (candidate counter) (S counter)
    end
  else ret target_file.

(** The number of entries of the file system: a bound on the names that
    can be taken. *)
Definition entries : M nat := fun s => (Ret (List.length (files s)), s).

(** [for chunk in iter(lambda: f.read(size), b""): hash_md5.update(chunk)]:
    [f] is what is left to read, [fed] what the hash object was given. *)
Fixpoint read_chunks (size fuel : nat) (f fed : bytes) : option bytes :=
  match fuel with
  | O => None
  | S fuel' =>
      match firstn size f with
      | [] => Some fed
      | chunk => read_chunks size fuel' (skipn size f) (fed ++ chunk)%list
      end
  end.

(** [categorize_by_size] *)
Definition categorize_by_size (width height : Z) : string :=
  let total_pixels := (width * height)%Z in
  if (total_pixels <? 500000)%Z then "small"
  else if (total_pixels <? 2000000)%Z then "medium"
  else "large".

Section Organizer.

(** Pillow's decoder: the image in the bytes of a file, if any. *)
Variable Image_decode : bytes -> option image.
(** [hashlib.md5(data).hexdigest()] *)
Variable md5_hexdigest : bytes -> string.
(** [datetime.fromtimestamp], the local time of a time stamp, or the error
    it raises: [ValueError] for a year outside 1..9999, [OverflowError] or
    [OSError] where the platform's [localtime] fails. *)
Variable fromtimestamp : Z -> exn + datetime.
(** What the platform's [strftime] writes for [%Y] of a year below 1000:
    glibc writes the number as it is, other C libraries, and CPython from
    3.13 on, pad it to four digits. *)
Variable strftime_small_year : nat -> string.

(** A proof depends on the variables its statement names, and no others. *)
Set Default Proof Using "Type".

(** [strftime('%Y')] *)
Definition strftime_Y (y : nat) : string :=
  if (1000 <=? y)%nat then Str.of_nat y else strftime_small_year y.

(** [d.strftime('%Y%m%d_%H%M%S')] *)
Definition strftime_stamp (d : datetime) : string :=
  strftime_Y (year d) ++ Str.pad 2 (month d) ++ Str.pad 2 (day d) ++ "_" ++
  Str.pad 2 (hour d) ++ Str.pad 2 (minute d) ++ Str.pad 2 (second d).

(** [datetime.fromtimestamp(t)] *)
Definition datetime_fromtimestamp (t : Z) : M datetime :=
  match fromtimestamp t with
  | inr d => ret d
  | inl e => raise e
  end.

(** [Image.open] *)
Definition Image_open (image_path : path) : M image :=
  c <- open_rb image_path ;;
  match Image_decode c with
  | Some img => ret img
  | None => raise UnidentifiedImageError
  end.

Definition call_getexif (img : image)
  : M (option (list (Z * exif_value))) :=
  match getexif img with
  | GetexifRaises e => raise e
  | GetexifReturns exif => ret exif
  end.

Definition strptime (value : exif_value) : M datetime :=
  match value with
  | ExifStr text =>
      match Strptime.strptime text with
      | Some d => ret d
      | None => raise ValueError
      end
  | ExifOther => raise TypeError
  end.

(** The loop over [exif.items()]; [Some d] is [return d]. *)
Fixpoint exif_items_loop (items : list (Z * exif_value))
  : M (option datetime) :=
  match items with
  | [] => ret None
  | (tag, value) :: rest =>
      if (tag =? 36867)%Z then d <- strptime value ;; ret (Some d)
      else exif_items_loop rest
  end.

(** [get_image_date] *)
Definition get_image_date (image_path : path) : M datetime :=
  r <- try_except
         (img <- Image_open image_path ;;
          exif <- call_getexif img ;;
          match exif with
          | Some (item :: items) => exif_items_loop (item :: items)
          | _ => ret None
          end)
         (fun _ => ret None) ;;
  match r with
  | Some d => ret d
  | None =>
      (* Fallback to file modification time *)
      m <- getmtime image_path ;; datetime_fromtimestamp m
  end.

(** [get_image_size] *)
Definition get_image_size (image_path : path) : M (Z * Z) :=
  try_except (img <- Image_open image_path ;; ret (size img))
             (fun _ => ret (0, 0)%Z).

(** [calculate_file_hash] *)
Definition calculate_file_hash (file_path : path) : M string :=
  f <- open_rb file_path ;;
  match read_chunks 4096 (S (List.length f)) f [] with
  | Some fed => ret (md5_hexdigest fed)
  | None => diverge
  end.

Definition relative_to_or_raise (p base : path) : M path :=
  match relative_to p base with
  | Some r => ret r
  | None => raise ValueError
  end.

(** The body of the [try] of [organize_by_date] for one file. *)
Definition organize_by_date_file (source_path target_path img_file : path)
    (organized : dict (list (string * string)))
  : M (dict (list (string * string))) :=
  date <- get_image_date img_file ;;
  let folder := target_path // Str.of_nat (year date)
                            // Str.pad 2 (month date) in
  mkdir_parents folder ;;
  let new_name := strftime_stamp date ++ suffix img_file in
  let target_file := folder // new_name in
  fuel <- entries ;;
  target_file <-
    while_exists fuel
      (fun counter =>
         folder // (strftime_stamp date ++ "_" ++ Str.of_nat counter
                    ++ suffix img_file))
      target_file 1 ;;
  copy2 img_file target_file ;;
  rel <- relative_to_or_raise target_file source_path ;;
  ret (dict_append "date" (name img_file, path_str rel) organized).

(** [organize_by_date] *)
Definition organize_by_date (source_dir : path) (target_dir : string)
  : M (dict (list (string * string))) :=
  let source_path := source_dir in
  let target_path := joinpath source_path target_dir in
  mkdir target_path ;;
  imgs <- glob_star_dot_star source_path ;;
  for_each imgs []
    (fun organized img_file =>
       if has_image_suffix img_file then
         try_except
           (organize_by_date_file source_path target_path img_file organized)
           (fun e => print (ErrorProcessing img_file e) ;; ret organized)
       else ret organized).

Definition lookup_category (categories : dict path) (category : string)
  : M path :=
  match dict_get category categories with
  | Some p => ret p
  | None => raise KeyError
  end.

(** The body of the [try] of [organize_by_size] for one file. *)
Definition organize_by_size_file (source_path : path)
    (categories : dict path) (img_file : path)
    (organized : dict (list (string * string)))
  : M (dict (list (string * string))) :=
  wh <- get_image_size img_file ;;
  let category := categorize_by_size (fst wh) (snd wh) in
  cat_dir <- lookup_category categories category ;;
  let target_file := cat_dir // name img_file in
  fuel <- entries ;;
  target_file <-
    while_exists fuel
      (fun counter =>
         cat_dir // (stem img_file ++ "_" ++ Str.of_nat counter
                     ++ suffix img_file))
      target_file 1 ;;
  copy2 img_file target_file ;;
  rel <- relative_to_or_raise target_file source_path ;;
  ret (dict_append category (name img_file, path_str rel) organized).

(** [organize_by_size] *)
Definition organize_by_size (source_dir : path) (target_dir : string)
  : M (dict (list (string * string))) :=
  let source_path := source_dir in
  let target_path := joinpath source_path target_dir in
  mkdir target_path ;;
  let categories := [("small", target_path // "small");
                     ("medium", target_path // "medium");
                     ("large", target_path // "large")] in
  for_each (map snd categories) tt (fun _ cat => mkdir cat) ;;
  imgs <- glob_star_dot_star source_path ;;
  for_each imgs []
    (fun organized img_file =>
       if has_image_suffix img_file then
         try_except
           (organize_by_size_file source_path categories img_file organized)
           (fun e => print (ErrorProcessing img_file e) ;; ret organized)
       else ret organized).

(** [find_duplicates] *)
Definition find_duplicates (source_dir : path) : M (dict (list path)) :=
  let source_path := source_dir in
  imgs <- glob_star_dot_star source_path ;;
  hash_to_files <-
    for_each imgs []
      (fun hash_to_files img_file =>
         if has_image_suffix img_file then
           try_except
             (file_hash <- calculate_file_hash img_file ;;
              ret (dict_append file_hash img_file hash_to_files))
             (fun e => print (ErrorHashing img_file e) ;; ret hash_to_files)
         else ret hash_to_files) ;;
  ret (filter (fun hf => (1 <? List.length (snd hf))%nat) hash_to_files).

(** [files.sort(key=lambda f: f.stat().st_mtime)]: the keys are computed
    first, then the list is sorted on them. *)
Definition sort_by_mtime (group : list path) : M (list path) :=
  keyed <- for_each group []
             (fun keyed f => m <- getmtime f ;; ret (keyed ++ [(m, f)])%list) ;;
  ret (map snd (sort_by_key keyed)).

(** [remove_duplicates] *)
Definition remove_duplicates (source_dir : path) (keep : string)
  : M (list string) :=
  duplicates <- find_duplicates source_dir ;;
  for_each duplicates []
    (fun removed hf =>
       group <- sort_by_mtime (snd hf) ;;
       let files_to_remove :=
         if String.eqb keep "last" then removelast group else tl group in
       for_each files_to_remove removed
         (fun removed file =>
            unlink file ;; ret (removed ++ [name file])%list)).

(** The branches of [main]. *)
Definition main_by_date (args : Namespace) : M unit :=
  result <- organize_by_date (source args) "organized_by_date" ;;
  print (Line "Organized by date:") ;;
  for_each (match dict_get "date" result with Some l => l | None => [] end)
    tt (fun _ ff => print (DateEntry (fst ff) (snd ff))).

Definition main_by_size (args : Namespace) : M unit :=
  result <- organize_by_size (source args) "organized_by_size" ;;
  print (Line "Organized by size:") ;;
  for_each result tt
    (fun _ cf =>
       for_each (snd cf) tt
         (fun _ on => print (SizeEntry (fst cf) (fst on) (snd on)))).

Definition main_find_dupes (args : Namespace) : M unit :=
  duplicates <- find_duplicates (source args) ;;
  match duplicates with
  | _ :: _ =>
      print (Line "Found duplicates:") ;;
      for_each duplicates tt
        (fun _ hf => print (Copies (List.length (snd hf)) (map name (snd hf))))
  | [] => print (Line "No duplicates found.")
  end.

Definition main_remove_dupes (args : Namespace) : M unit :=
  removed <- remove_duplicates (source args) (keep args) ;;
  match removed with
  | _ :: _ =>
      print (RemovedCount (List.length removed)) ;;
      for_each removed tt (fun _ n => print (RemovedName n))
  | [] => print (Line "No duplicates to remove.")
  end.

(** [main], after [parse_args]: the [if]/[elif] chain. *)
Definition dispatch (args : Namespace) : M unit :=
  if by_date args then main_by_date args
  else if by_size args then main_by_size args
  else if find_dupes args then main_find_dupes args
  else if remove_dupes args then main_remove_dupes args
  else ret tt.

(** [main] *)
Definition main (argv : list token) : M unit :=
  match parse_args argv with
  | Exit status => raise (SystemExit status)
  | Parsed args => dispatch args
  end.

(* ------------------------------------------------------------------ *)
(** ** Vocabulary of the properties *)

Definition mtime_of (n : node) : Z :=
  match n with File _ m _ => m | Dir m => m end.

(** Every binding of [s] is a binding of [s']: nothing was deleted,
    moved or modified. *)
Definition extends (s s' : state) : Prop :=
  forall p n, lookup p (files s) = Some n -> lookup p (files s') = Some n.

Definition is_prefix (base p : path) : bool :=
  match relative_to p base with Some _ => true | None => false end.

(** The regular files below [target]. *)
Definition copies_under (target : path) (t : fs) : nat :=
  List.length
    (filter (fun e => is_file (snd e) && is_prefix target (fst e)) t).

(** The number of values a dictionary of lists holds. *)
Definition total {X} (d : dict (list X)) : nat :=
  fold_right (fun kv n => (List.length (snd kv) + n)%nat) 0%nat d.


(** An entry an organizer adds below [target]: a regular file exactly
    [depth] levels down or a directory, in a directory of [s']. *)
Definition added_ok (target : path) (depth : nat) (s' : state)
    (e : path * node) : Prop :=
  exists q, fst e = (target ++ q)%list /\ q <> [] /\
    (is_file (snd e) = true -> List.length q = depth) /\
    exists m, lookup (parent (fst e)) (files s') = Some (Dir m).

(** [s'] is [s] with entries added below [target], and nothing else
    changed. *)
Definition grows (target : path) (depth : nat) (s s' : state) : Prop :=
  exists added,
    files s' = (files s ++ added)%list /\
    Forall (added_ok target depth s') added.

(** The names the collision loop tries: the plain name, then the numbered
    names from [k] on. *)
Definition attempt (base : path) (candidate : nat -> path) (k i : nat)
  : path :=
  match i with O => base | S i' => candidate (k + i')%nat end.

(** The capture date of an EXIF dictionary: the value of the first item
    tagged 36867, when it is text in the fixed pattern. *)
Fixpoint find_date (items : list (Z * exif_value)) : option datetime :=
  match items with
  | [] => None
  | (tag, value) :: rest =>
      if (tag =? 36867)%Z then
        match value with
        | ExifStr text => Strptime.strptime text
        | ExifOther => None
        end
      else find_date rest
  end.

Definition exif_date (img : image) : option datetime :=
  match getexif img with
  | GetexifReturns (Some items) => find_date items
  | _ => None
  end.

(** The capture date in the metadata of a node, if it can be read. *)
Definition metadata_date (n : node) : option datetime :=
  match n with
  | File c _ true =>
      match Image_decode c with
      | Some img => exif_date img
      | None => None
      end
  | _ => None
  end.

(** What reading the date of a node comes to: its capture date, else the
    date of its modification time or the error of the conversion. *)
Definition date_of (n : node) : exn + datetime :=
  match metadata_date n with
  | Some d => inr d
  | None => fromtimestamp (mtime_of n)
  end.

Definition dated (n : node) : bool :=
  match date_of n with inr _ => true | inl _ => false end.

(** The date of a node that has one. *)
Definition image_date (n : node) : datetime :=
  match date_of n with
  | inr d => d
  | inl _ => mk_datetime 1 1 1 0 0 0
  end.

(** Whether [target/y/mo] can be made a directory, [target] being one. *)
Definition folder_ok (target : path) (y mo : string) (t : fs) : bool :=
  match lookup (target // y // mo) t with
  | Some (Dir _) => true
  | Some (File _ _ _) => false
  | None =>
      match lookup (target // y) t with
      | Some (File _ _ _) => false
      | _ => true
      end
  end.

Definition readable_file (n : option node) : bool :=
  match n with Some (File _ _ true) => true | _ => false end.

(** The size Pillow reads from a node, [(0, 0)] when it reads none. *)
Definition size_of (n : option node) : Z * Z :=
  match n with
  | Some (File c _ true) =>
      match Image_decode c with
      | Some img => size img
      | None => (0, 0)%Z
      end
  | _ => (0, 0)%Z
  end.

(** The names tried in a folder: the plain name, then the numbered ones. *)
Definition nth_name (plain : string) (numbered : nat -> string) (i : nat)
  : string :=
  match i with O => plain | S _ => numbered i end.

(** The tail the two organizers share: find a free name in [dir], copy,
    and record the copy under [key]. *)
Definition place (source_path dir : path) (plain : string)
    (numbered : nat -> string) (img_file : path) (key : string)
    (organized : dict (list (string * string)))
  : M (dict (list (string * string))) :=
  fuel <- entries ;;
  target_file <-
    while_exists fuel (fun counter => dir // numbered counter)
      (dir // plain) 1 ;;
  copy2 img_file target_file ;;
  rel <- relative_to_or_raise target_file source_path ;;
  ret (dict_append key (name img_file, path_str rel) organized).

(** The values of a dictionary of lists. *)
Definition values {X} (d : dict (list X)) : list X := flat_map snd d.

(** The list [glob('*.*')] yields in directory [d]. *)
Definition glob_list (d : path) (t : fs) : list path :=
  match lookup d t with
  | Some (Dir _) =>
      map (fun n => d // n) (filter fnmatch_star_dot_star (scandir d t))
  | _ => []
  end.

(** The loop body the two organizers share around their [try]. *)
Definition guarded
    (step : dict (list (string * string)) -> path
            -> M (dict (list (string * string))))
    (organized : dict (list (string * string))) (img_file : path)
  : M (dict (list (string * string))) :=
  if has_image_suffix img_file then
    try_except (step organized img_file)
      (fun e => print (ErrorProcessing img_file e) ;; ret organized)
  else ret organized.

(** The folder and the names of the date organizer. *)
Definition date_folder (target : path) (d : datetime) : path :=
  target // Str.of_nat (year d) // Str.pad 2 (month d).

Definition date_plain (d : datetime) (ext : string) : string :=
  strftime_stamp d ++ ext.

Definition date_numbered (d : datetime) (ext : string) (counter : nat)
  : string :=
  strftime_stamp d ++ "_" ++ Str.of_nat counter ++ ext.

Definition date_name (d : datetime) (ext : string) (i : nat) : string :=
  nth_name (date_plain d ext) (date_numbered d ext) i.

(** Whether the date organizer copies an entry: its date can be read, its
    folder can be made and the entry is a regular file that can be read. *)
Definition will_date (target : path) (t : fs) (img_file : path) : bool :=
  match lookup img_file t with
  | Some n =>
      let d := image_date n in
      dated n
      && folder_ok target (Str.of_nat (year d)) (Str.pad 2 (month d)) t
      && readable_file (Some n)
  | None => false
  end.

Definition plain_date (target : path) (t : fs) (img_file : path) : path :=
  match lookup img_file t with
  | Some n =>
      date_folder target (image_date n)
      // date_plain (image_date n) (suffix img_file)
  | None => []
  end.

(** A reported copy of the date organizer whose name carries a number. *)
Definition numbered_date (tn : string) (e : string * string) : Prop :=
  exists d i, (1 <= i)%nat /\
    snd e = path_str [tn; Str.of_nat (year d); Str.pad 2 (month d);
                      date_numbered d (suffix_of_name (fst e)) i].

(** The folders and the names of the size organizer. *)
Definition size_categories (target : path) : dict path :=
  [("small", target // "small"); ("medium", target // "medium");
   ("large", target // "large")].

Definition category_of (n : option node) : string :=
  categorize_by_size (fst (size_of n)) (snd (size_of n)).

Definition size_numbered (file_name : string) (counter : nat) : string :=
  stem_of_name file_name ++ "_" ++ Str.of_nat counter
  ++ suffix_of_name file_name.

Definition size_name (file_name : string) (i : nat) : string :=
  nth_name file_name (size_numbered file_name) i.

(** The size organizer copies the entries that are regular files that can
    be read. *)
Definition will_size (t : fs) (img_file : path) : bool :=
  readable_file (lookup img_file t).

Definition plain_size (target : path) (t : fs) (img_file : path) : path :=
  target // category_of (lookup img_file t) // name img_file.

Definition numbered_size (tn : string) (e : string * string) : Prop :=
  exists cat i, (1 <= i)%nat /\
    snd e = path_str [tn; cat; size_numbered (fst e) i].

(** The directories [ps] are there. *)
Definition dirs_exist (ps : list path) (s : state) : Prop :=
  Forall (fun p => exists m, lookup p (files s) = Some (Dir m)) ps.

Definition mkdirs (ps : list path) : M unit :=
  for_each ps tt (fun _ p => mkdir p).

(** The digest of an entry, when it is a regular file that can be read. *)
Definition hash_of (t : fs) (p : path) : option string :=
  match lookup p t with
  | Some (File c _ true) => Some (md5_hexdigest c)
  | _ => None
  end.

(** The selected entries of a directory: those the three scans process. *)
Definition selected_files (src : path) (t : fs) : list path :=
  filter has_image_suffix (glob_list src t).

Definition has_digest (t : fs) (h : string) (p : path) : bool :=
  match hash_of t p with
  | Some h' => String.eqb h' h
  | None => false
  end.

(** One step of the grouping loop of [find_duplicates]. *)
Definition group_step (t : fs) (d : dict (list path)) (img : path)
  : dict (list path) :=
  if has_image_suffix img then
    match hash_of t img with
    | Some h => dict_append h img d
    | None => d
    end
  else d.

Definition duplicates_of (src : path) (t : fs) : dict (list path) :=
  filter (fun hf => (1 <? List.length (snd hf))%nat)
         (fold_left (group_step t) (glob_list src t) []).

(** The modification time [stat] reports for a path. *)
Definition mtime_in (t : fs) (p : path) : Z :=
  match lookup p t with Some n => mtime_of n | None => 0%Z end.

(** A group sorted by modification time, oldest first. *)
Definition sorted_group (t : fs) (g : list path) : list path :=
  map snd (sort_by_key (map (fun f => (mtime_in t f, f)) g)).

(** The files of a sorted group that are deleted. *)
Definition doomed (keep : string) (l : list path) : list path :=
  if String.eqb keep "last" then removelast l else tl l.

(** All the files [remove_duplicates] deletes, group after group. *)
Definition victims (keep : string) (t : fs) (dups : dict (list path))
  : list path :=
  flat_map (fun hf => doomed keep (sorted_group t (snd hf))) dups.

Definition remove_all (ps : list path) (t : fs) : fs :=
  fold_left (fun t p => remove p t) ps t.

(** The loop body of [find_duplicates]. *)
Definition find_body (hash_to_files : dict (list path)) (img_file : path)
  : M (dict (list path)) :=
  if has_image_suffix img_file then
    try_except
      (file_hash <- calculate_file_hash img_file ;;
       ret (dict_append file_hash img_file hash_to_files))
      (fun e => print (ErrorHashing img_file e) ;; ret hash_to_files)
  else ret hash_to_files.

(** The order of the sort keys. *)
Definition key_le {X} (a b : Z * X) : Prop := (fst a <= fst b)%Z.

(** The destination folder of the date organizer is there. *)
Definition date_inv (src : path) (tn : string) (s : state) : Prop :=
  exists tm, lookup (src // tn) (files s) = Some (Dir tm).

(** The entries of [xs] an organizer copies, [will] telling which can be. *)
Definition chosen (will : fs -> path -> bool) (t : fs) (xs : list path)
  : list path :=
  filter (fun img => has_image_suffix img && will t img) xs.

(** An organizer: prelude, scan, loop. *)
Definition batch (src : path) (prelude : M unit)
    (step : dict (list (string * string)) -> path
            -> M (dict (list (string * string))))
  : M (dict (list (string * string))) :=
  prelude ;;
  imgs <- glob_star_dot_star src ;;
  for_each imgs [] (guarded step).

(** A regular file is bound to [p]. *)
Definition is_file_in (t : fs) (p : path) : Prop :=
  exists c m r, lookup p t = Some (File c m r).

(** The loop body of [remove_duplicates]. *)
Definition remove_body (keep : string) (removed : list string)
    (hf : string * list path) : M (list string) :=
  group <- sort_by_mtime (snd hf) ;;
  let files_to_remove :=
    if String.eqb keep "last" then removelast group else tl group in
  for_each files_to_remove removed
    (fun removed file => unlink file ;; ret (removed ++ [name file])%list).

(** The file [remove_duplicates] keeps of a sorted group. *)
Definition kept_of (keep : string) (l : list path) : path :=
  if String.eqb keep "last" then last l [] else hd [] l.


(** The positional arguments of a command line. *)
Definition positionals (argv : list token) : list path :=
  flat_map (fun t => match t with TPositional v => [v] | _ => [] end) argv.

(** The number of mode flags a namespace has set. *)
Definition flag_count (args : Namespace) : nat :=
  ((if by_date args then 1 else 0) + (if by_size args then 1 else 0) +
   (if find_dupes args then 1 else 0) +
   (if remove_dupes args then 1 else 0))%nat.

(** The operation of the first mode flag that is set, in the order
    by-date, by-size, find-dupes, remove-dupes. *)
Definition selected_operation (args : Namespace) : option operation :=
  if by_date args then Some OrganizeByDate
  else if by_size args then Some OrganizeBySize
  else if find_dupes args then Some FindDuplicates
  else if remove_dupes args then Some RemoveDuplicates
  else None.

(** An operation with its printed summary. *)
Definition run_operation (op : operation) (args : Namespace) : M unit :=
  match op with
  | OrganizeByDate => main_by_date args
  | OrganizeBySize => main_by_size args
  | FindDuplicates => main_find_dupes args
  | RemoveDuplicates => main_remove_dupes args
  end.

(** The tokens the parser lets pass: a mode flag, a positional, or [--keep]
    with one of its two choices. *)
Definition valid_token (t : token) : bool :=
  match t with
  | THelp | TUnknown _ => false
  | TKeep v => String.eqb v "first" || String.eqb v "last"
  | _ => true
  end.

(** The command lines that are accepted: valid tokens and one positional. *)
Definition accepts (argv : list token) : bool :=
  forallb valid_token argv && (List.length (positionals argv) =? 1)%nat.

(** The supported extensions, as the specification lists them. *)
Definition supported_extensions : list string :=
  ["jpg"; "jpeg"; "png"; "gif"; "bmp"; "webp"; "tiff"].

(** A name has a supported extension: it ends in a dot and one of the
    listed extensions, in any case, and has text before that dot. *)
Definition supported_extension (n : string) : Prop :=
  exists stem ext,
    n = (stem ++ "." ++ ext)%string /\ stem <> ""%string /\
    In (Str.lower ext) supported_extensions.

(** The scan that yields the selected entries only. *)
Definition scan_selected (src : path) : M (list path) := fun s =>
  (Ret (selected_files src (files s)), s).

(** Whether [mkdir(exist_ok=True)] gets its directory: it is there, or
    nothing is and the parent is a directory. *)
Definition can_make (p : path) (t : fs) : bool :=
  match lookup p t with
  | Some (Dir _) => true
  | Some (File _ _ _) => false
  | None =>
      match lookup (parent p) t with Some (Dir _) => true | _ => false end
  end.

(** A regular file is bound to [p]. *)
Definition file_at (t : fs) (p : path) : bool :=
  match lookup p t with Some (File _ _ _) => true | _ => false end.

(** What the duplicate finder prints for a selected entry: nothing for a
    regular file that can be read, the error of [open] otherwise. *)
Definition hashing_error (t : fs) (p : path) : list printed :=
  match lookup p t with
  | Some (File _ _ true) => []
  | Some (File _ _ false) => [ErrorHashing p PermissionError]
  | Some (Dir _) => [ErrorHashing p IsADirectoryError]
  | None => [ErrorHashing p FileNotFoundError]
  end.

(** Whether [p] is none of the paths [ps]. *)
Definition kept_out (ps : list path) (p : path) : bool :=
  if in_dec (list_eq_dec string_dec) p ps then false else true.

(** Whether the mode flag [f] occurs in a command line. *)
Definition is_flag (f t : token) : bool :=
  match f, t with
  | TByDate, TByDate | TBySize, TBySize
  | TFindDupes, TFindDupes | TRemoveDupes, TRemoveDupes => true
  | _, _ => false
  end.

Definition given (f : token) (argv : list token) : bool :=
  existsb (is_flag f) argv.

(** The value of the last [--keep] of a command line, after [default]. *)
Definition last_keep (argv : list token) (default : string) : string :=
  fold_left (fun k t => match t with TKeep v => v | _ => k end) argv default.

(** A computation that prints nothing. *)
Definition quiet {A} (c : M A) : Prop :=
  forall s o s', c s = (o, s') -> stdout s' = stdout s.

(** The line an organizer prints for an entry it skips. *)
Definition skipped_line (xs : list path) (l : printed) : Prop :=
  exists p e, l = ErrorProcessing p e /\ In p xs.

(** A computation that leaves every binding of the file system as it is. *)
Definition additive {A} (c : M A) : Prop :=
  forall s o s', c s = (o, s') -> extends s s'.

(* ------------------------------------------------------------------ *)
(** ** Properties: paths and the association list *)

Local Open Scope list_scope.
Unset Implicit Arguments.

Lemma path_eqb_eq (p q : path) : path_eqb p q = true <-> p = q.
Proof.
  revert q; induction p as [|a p IH]; intros [|b q]; simpl; split;
    try congruence; try reflexivity.
  - intros H. apply andb_true_iff in H as [Ha Hp].
    apply String.eqb_eq in Ha. apply IH in Hp. congruence.
  - intros H. injection H as -> ->. rewrite String.eqb_refl. simpl.
    now apply IH.
Qed.

Lemma path_eqb_refl (p : path) : path_eqb p p = true.
Proof. now apply path_eqb_eq. Qed.

Lemma path_eqb_neq (p q : path) : path_eqb p q = false <-> p <> q.
Proof.
  split.
  - intros H E. apply path_eqb_eq in E. congruence.
  - intros H. destruct (path_eqb p q) eqn:E; [|reflexivity].
    apply path_eqb_eq in E. contradiction.
Qed.

Lemma lookup_app (p : path) (t u : fs) :
  lookup p (t ++ u) =
  match lookup p t with Some n => Some n | None => lookup p u end.
Proof.
  induction t as [|[q n] t IH]; simpl; [reflexivity|].
  destruct (path_eqb q p); [reflexivity|exact IH].
Qed.

Lemma lookup_snoc (p q : path) (n : node) (t : fs) :
  lookup p (t ++ [(q, n)]) =
  match lookup p t with
  | Some m => Some m
  | None => if path_eqb q p then Some n else None
  end.
Proof. rewrite lookup_app. reflexivity. Qed.

Lemma lookup_remove (p q : path) (t : fs) :
  lookup p (remove q t) = if path_eqb q p then None else lookup p t.
Proof.
  unfold remove. induction t as [|[r n] t IH]; simpl.
  - now destruct (path_eqb q p).
  - destruct (path_eqb r q) eqn:Erq; simpl.
    + apply path_eqb_eq in Erq. subst r. rewrite IH.
      now destruct (path_eqb q p).
    + destruct (path_eqb r p) eqn:Erp.
      * apply path_eqb_eq in Erp. subst r.
        destruct (path_eqb q p) eqn:Eqp; [|reflexivity].
        apply path_eqb_eq in Eqp. subst q. rewrite path_eqb_refl in Erq.
        discriminate.
      * exact IH.
Qed.

Lemma lookup_In (p : path) (n : node) (t : fs) :
  lookup p t = Some n -> In (p, n) t.
Proof.
  induction t as [|[q m] t IH]; simpl; [discriminate|].
  destruct (path_eqb q p) eqn:E.
  - apply path_eqb_eq in E. intros [= ->]. left. now subst.
  - intros H. right. now apply IH.
Qed.

Lemma lookup_In_keys (p : path) (n : node) (t : fs) :
  lookup p t = Some n -> In p (map fst t).
Proof.
  intros H. apply lookup_In in H. now apply (in_map fst) in H.
Qed.

Lemma lookup_None_keys (p : path) (t : fs) :
  lookup p t = None <-> ~ In p (map fst t).
Proof.
  induction t as [|[q m] t IH]; simpl.
  - tauto.
  - destruct (path_eqb q p) eqn:E.
    + apply path_eqb_eq in E. split; [discriminate|]. intros H. tauto.
    + apply path_eqb_neq in E. rewrite IH. tauto.
Qed.

Lemma nodup_keys_NoDup (t : fs) :
  nodup_keys t = true <-> NoDup (map fst t).
Proof.
  induction t as [|[q m] t IH]; simpl.
  - split; [constructor|reflexivity].
  - destruct (lookup q t) eqn:E.
    + split; [discriminate|]. intros H. inversion H; subst.
      apply lookup_In_keys in E. contradiction.
    + apply lookup_None_keys in E. rewrite IH. split.
      * intros H. now constructor.
      * intros H. now inversion H.
Qed.

Lemma In_lookup_nodup (p : path) (n : node) (t : fs) :
  NoDup (map fst t) -> In (p, n) t -> lookup p t = Some n.
Proof.
  induction t as [|[q m] t IH]; simpl; [tauto|].
  intros Hnd [H|H].
  - injection H as -> ->. now rewrite path_eqb_refl.
  - inversion Hnd; subst. destruct (path_eqb q p) eqn:E.
    + apply path_eqb_eq in E. subst q. apply (in_map fst) in H. contradiction.
    + now apply IH.
Qed.

(** *** Paths *)

Lemma name_child (p : path) (c : string) : name (p // c) = c.
Proof. unfold name, child. apply last_last. Qed.

Lemma parent_child (p : path) (c : string) : parent (p // c) = p.
Proof. unfold parent, child. apply removelast_last. Qed.

Lemma child_inj (p q : path) (c d : string) :
  p // c = q // d -> p = q /\ c = d.
Proof. unfold child. intros H. apply app_inj_tail in H. exact H. Qed.

Lemma child_length (p : path) (c : string) :
  List.length (p // c) = S (List.length p).
Proof. unfold child. rewrite length_app. simpl. lia. Qed.

Lemma relative_to_app (base q : path) : relative_to (base ++ q) base = Some q.
Proof.
  induction base as [|b base IH]; simpl; [reflexivity|].
  now rewrite String.eqb_refl.
Qed.

Lemma relative_to_Some (p base q : path) :
  relative_to p base = Some q -> p = (base ++ q)%list.
Proof.
  revert p; induction base as [|b base IH]; intros p; simpl.
  - now intros [= ->].
  - destruct p as [|a p]; [discriminate|].
    destruct (String.eqb a b) eqn:E; [|discriminate].
    apply String.eqb_eq in E. subst a. intros H. apply IH in H. now subst.
Qed.

Lemma child_name_Some (d p : path) (n : string) :
  child_name d p = Some n <-> p = d // n.
Proof.
  unfold child_name, child. split.
  - destruct (relative_to p d) as [[|a [|b q]]|] eqn:E; try discriminate.
    intros [= ->]. now apply relative_to_Some in E.
  - intros ->. now rewrite relative_to_app.
Qed.

Lemma scandir_app (d : path) (t u : fs) :
  scandir d (t ++ u) = (scandir d t ++ scandir d u)%list.
Proof. unfold scandir. apply flat_map_app. Qed.

Lemma In_scandir (d : path) (n : string) (t : fs) :
  In n (scandir d t) <-> In (d // n) (map fst t).
Proof.
  unfold scandir. rewrite in_flat_map. split.
  - intros [[p m] [Hin H]]. simpl in H.
    destruct (child_name d p) as [n'|] eqn:E; [|contradiction].
    destruct H as [->|[]]. apply child_name_Some in E. subst p.
    now apply (in_map fst) in Hin.
  - intros H. apply in_map_iff in H as [[p m] [Hp Hin]]. simpl in Hp. subst p.
    exists (d // n, m). split; [exact Hin|]. simpl.
    assert (E : child_name d (d // n) = Some n) by now apply child_name_Some.
    rewrite E. now left.
Qed.

(** *** Strings *)

Lemma append_length (a b : string) :
  String.length (a ++ b)%string = String.length a + String.length b.
Proof. induction a as [|c a IH]; simpl; [reflexivity|now rewrite IH]. Qed.

Lemma append_inj_l (a b c : string) : (a ++ b = a ++ c)%string -> b = c.
Proof. induction a as [|x a IH]; simpl; [tauto|]. intros [= H]. auto. Qed.

Lemma append_inj_r (a b c : string) : (a ++ c = b ++ c)%string -> a = b.
Proof.
  revert b; induction a as [|x a IH]; intros [|y b] H; simpl in *.
  - reflexivity.
  - apply (f_equal String.length) in H. simpl in H.
    rewrite append_length in H. lia.
  - apply (f_equal String.length) in H. simpl in H.
    rewrite append_length in H. lia.
  - injection H as -> H. f_equal. now apply IH.
Qed.

Lemma append_assoc (a b c : string) :
  ((a ++ b) ++ c = a ++ (b ++ c))%string.
Proof. induction a as [|x a IH]; simpl; [reflexivity|now rewrite IH]. Qed.

Lemma of_nat_inj (n m : nat) : Str.of_nat n = Str.of_nat m -> n = m.
Proof.
  unfold Str.of_nat. intros H.
  apply DecimalNat.Unsigned.to_uint_inj.
  assert (E : forall d, NilEmpty.uint_of_string (NilEmpty.string_of_uint d)
                        = Some d) by apply NilEmpty.usu.
  pose proof (E (Nat.to_uint n)) as En. rewrite H, E in En. congruence.
Qed.

Lemma take_drop (i : nat) (s : string) : (Str.take i s ++ Str.drop i s)%string = s.
Proof.
  revert s; induction i as [|i IH]; intros [|c s]; simpl; try reflexivity.
  now rewrite IH.
Qed.

Lemma stem_suffix (n : string) :
  (stem_of_name n ++ suffix_of_name n)%string = n.
Proof.
  unfold stem_of_name, suffix_of_name.
  destruct (Str.rfind "." n) as [i|].
  - destruct (_ && _).
    + apply take_drop.
    + clear. induction n; simpl; congruence.
  - clear. induction n; simpl; congruence.
Qed.

(** The numbered names differ from one another and from the first name. *)
Lemma numbered_inj (a c : string) (i j : nat) :
  (a ++ "_" ++ Str.of_nat i ++ c = a ++ "_" ++ Str.of_nat j ++ c)%string ->
  i = j.
Proof.
  intros H. apply append_inj_l in H. apply append_inj_l in H.
  apply append_inj_r in H. now apply of_nat_inj.
Qed.

Lemma numbered_neq (a c : string) (i : nat) :
  (a ++ c)%string <> (a ++ "_" ++ Str.of_nat i ++ c)%string.
Proof.
  intros H. apply append_inj_l in H.
  apply (f_equal String.length) in H.
  rewrite !append_length in H. simpl in H. lia.
Qed.

(** *** System calls *)

Lemma extends_refl (s : state) : extends s s.
Proof. intros p n H. exact H. Qed.

Lemma extends_trans (s1 s2 s3 : state) :
  extends s1 s2 -> extends s2 s3 -> extends s1 s3.
Proof. intros H1 H2 p n H. auto. Qed.

Lemma extends_app (s : state) (added : fs) :
  extends s (set_files s (files s ++ added)).
Proof. intros p n H. simpl. rewrite lookup_app, H. reflexivity. Qed.

Lemma grows_refl (target : path) (depth : nat) (s : state) :
  grows target depth s s.
Proof. exists []. split; [now rewrite app_nil_r|constructor]. Qed.

Lemma grows_extends (target : path) (depth : nat) (s s' : state) :
  grows target depth s s' -> extends s s'.
Proof.
  intros [added [E _]] p n H. rewrite E, lookup_app, H. reflexivity.
Qed.

Lemma added_ok_mono (target : path) (depth : nat) (s s' : state) e :
  extends s s' -> added_ok target depth s e -> added_ok target depth s' e.
Proof.
  intros Hx (q & E & Hq & Hf & m & Hm). exists q. repeat split; auto.
  exists m. now apply Hx.
Qed.

Lemma grows_trans (target : path) (depth : nat) (s1 s2 s3 : state) :
  grows target depth s1 s2 -> grows target depth s2 s3 ->
  grows target depth s1 s3.
Proof.
  intros H12 H23. pose proof (grows_extends _ _ _ _ H23) as Hx.
  destruct H12 as [a1 [E1 F1]], H23 as [a2 [E2 F2]].
  exists (a1 ++ a2). split.
  - now rewrite E2, E1, app_assoc.
  - apply Forall_app. split; [|exact F2].
    eapply Forall_impl; [|exact F1]. intros e. now apply added_ok_mono.
Qed.

(** What is added below the target is no entry of the source directory. *)
Lemma grows_scandir (src : path) (tn : string) (depth : nat) (s s' : state) :
  grows (src // tn) depth s s' ->
  scandir src (files s') = scandir src (files s).
Proof.
  intros [added [E F]]. rewrite E, scandir_app.
  assert (H : scandir src added = []).
  { clear E. induction added as [|[p n] added IH]; [reflexivity|].
    inversion F as [|? ? Hok F']; subst. unfold scandir in *. simpl.
    rewrite (IH F'), app_nil_r.
    destruct Hok as (q & Ep & Hq & _). simpl in Ep. subst p.
    unfold child_name, child. rewrite <- app_assoc, relative_to_app. simpl.
    destruct q; [contradiction|reflexivity]. }
  now rewrite H, app_nil_r.
Qed.

Lemma copies_under_app (target : path) (t u : fs) :
  copies_under target (t ++ u) =
  copies_under target t + copies_under target u.
Proof. unfold copies_under. now rewrite filter_app, length_app. Qed.

Lemma os_mkdir_cases (p : path) (s : state) :
  (os_mkdir p s = (Ret tt, set_files s (files s ++ [(p, Dir (clock s))])) /\
   lookup p (files s) = None /\
   exists m, lookup (parent p) (files s) = Some (Dir m)) \/
  (exists e, os_mkdir p s = (Raise e, s) /\
     (e = FileNotFoundError -> lookup p (files s) = None /\
                               lookup (parent p) (files s) = None) /\
     (lookup p (files s) = None ->
      forall m, lookup (parent p) (files s) <> Some (Dir m))).
Proof.
  unfold os_mkdir. destruct (lookup p (files s)) as [n|] eqn:Ep.
  - right. exists FileExistsError. repeat split; discriminate.
  - destruct (lookup (parent p) (files s)) as [[c m r|m]|] eqn:Epp.
    + right. exists NotADirectoryError. repeat split; discriminate.
    + left. repeat split. now exists m.
    + right. exists FileNotFoundError. repeat split; discriminate.
Qed.

(** [mkdir] leaves the state as it is or adds the directory. *)
Lemma mkdir_cases (p : path) (s : state) :
  (mkdir p s = (Ret tt, s) /\
   exists m, lookup p (files s) = Some (Dir m)) \/
  (mkdir p s = (Ret tt, set_files s (files s ++ [(p, Dir (clock s))])) /\
   lookup p (files s) = None /\
   exists m, lookup (parent p) (files s) = Some (Dir m)) \/
  (exists e, mkdir p s = (Raise e, s) /\
     forall m, lookup p (files s) <> Some (Dir m)).
Proof.
  unfold mkdir, try_except.
  destruct (os_mkdir_cases p s) as [(E & Hp & Hd)|(e & E & Hnf & Hnd)];
    rewrite E.
  - right. left. auto.
  - destruct (lookup p (files s)) as [[c m r|m]|] eqn:Ep.
    + right. right. exists e. split; [|congruence].
      destruct e; unfold bind, is_dir, ret, raise; simpl; now rewrite ?Ep.
    + destruct e;
        try (left; split; [|now exists m];
             unfold bind, is_dir, ret, raise; simpl; now rewrite ?Ep).
      destruct Hnf as [Hnf _]; [reflexivity|discriminate].
    + right. right. exists e. split; [|congruence].
      destruct e; unfold bind, is_dir, ret, raise; simpl; now rewrite ?Ep.
Qed.

Lemma grows_new (target : path) (depth : nat) (s s' : state) p n :
  grows target depth s s' ->
  lookup p (files s) = None -> lookup p (files s') = Some n ->
  added_ok target depth s' (p, n).
Proof.
  intros [added [E F]] Hn Hs. rewrite E, lookup_app, Hn in Hs.
  apply lookup_In in Hs. rewrite Forall_forall in F. now apply F.
Qed.

Lemma grows_snoc (target : path) (depth : nat) (s : state) p q n :
  p = target ++ q -> q <> [] ->
  (is_file n = true -> List.length q = depth) ->
  (exists m, lookup (parent p) (files s) = Some (Dir m)) ->
  grows target depth s (set_files s (files s ++ [(p, n)])).
Proof.
  intros Hp Hq Hf [m Hm]. exists [(p, n)]. split; [reflexivity|].
  constructor; [|constructor]. exists q. repeat split; auto.
  exists m. simpl. now rewrite lookup_app, Hm.
Qed.

Lemma copies_under_dir (target p : path) (m : Z) :
  copies_under target [(p, Dir m)] = 0.
Proof. reflexivity. Qed.

Lemma is_prefix_app (base q : path) : is_prefix base (base ++ q) = true.
Proof. unfold is_prefix. now rewrite relative_to_app. Qed.

(** [mkdir_parents] two levels below a directory. *)
Lemma mkdir_parents_two (target : path) (y mo : string) (s : state) m :
  lookup target (files s) = Some (Dir m) ->
  exists o s',
    mkdir_parents (target // y // mo) s = (o, s') /\
    grows target 3 s s' /\
    copies_under target (files s') = copies_under target (files s) /\
    stdout s' = stdout s /\
    match o with
    | Ret _ => folder_ok target y mo (files s) = true /\
               exists m', lookup (target // y // mo) (files s') = Some (Dir m')
    | Raise _ => folder_ok target y mo (files s) = false /\ s' = s
    | Diverge => False
    end.
Proof.
  intros Ht. unfold mkdir_parents, folder_ok.
  assert (Er : rev (target // y // mo) = mo :: y :: rev target).
  { unfold child. now rewrite !rev_app_distr. }
  rewrite Er. cbn [mkdir_parents_rev].
  assert (Ep : rev (mo :: y :: rev target) = target // y // mo).
  { simpl. now rewrite rev_involutive. }
  assert (Ey : rev (y :: rev target) = target // y).
  { simpl. now rewrite rev_involutive. }
  rewrite Ep, Ey. set (folder := target // y // mo). set (ydir := target // y).
  assert (Hfq : folder = target ++ [y; mo]).
  { unfold folder, child. now rewrite <- app_assoc. }
  assert (Hpf : parent folder = ydir) by apply parent_child.
  assert (Hpy : parent ydir = target) by apply parent_child.
  assert (Hne : path_eqb ydir folder = false).
  { apply path_eqb_neq. intros E. apply (f_equal (@List.length _)) in E.
    unfold folder, ydir in E. rewrite !child_length in E. lia. }
  unfold try_except at 1.
  destruct (os_mkdir_cases folder s) as [(E & Hp & m' & Hd)|(e & E & Hnf & Hnd)];
    rewrite E.
  - (* the folder is created at once *)
    rewrite Hpf in Hd. rewrite Hp, Hd. do 2 eexists. split; [reflexivity|].
    repeat split.
    + apply (grows_snoc target 3 s folder [y; mo] (Dir (clock s)));
        [exact Hfq|discriminate|discriminate|].
      exists m'. now rewrite Hpf.
    + simpl. now rewrite copies_under_app, copies_under_dir, Nat.add_0_r.
    + exists (clock s). simpl. now rewrite lookup_snoc, Hp, path_eqb_refl.
  - destruct (lookup folder (files s)) as [[c fm r|fm]|] eqn:Ef.
    + (* a regular file is in the way *)
      exists (Raise e), s. repeat split; auto using grows_refl.
      destruct e; unfold bind, is_dir, ret, raise; simpl; rewrite ?Ef;
        try reflexivity.
      destruct Hnf as [Hnf _]; [reflexivity|discriminate].
    + (* the folder is there *)
      exists (Ret tt), s. repeat split; auto using grows_refl; [|now exists fm].
      destruct e; unfold bind, is_dir, ret, raise; simpl; rewrite ?Ef;
        try reflexivity.
      destruct Hnf as [Hnf _]; [reflexivity|discriminate].
    + rewrite Hpf in *. specialize (Hnd eq_refl).
      destruct (lookup ydir (files s)) as [[c ym r|ym]|] eqn:Eyd.
      * (* the year is a regular file *)
        exists (Raise e), s. repeat split; auto using grows_refl.
        assert (e <> FileNotFoundError).
        { intros ->. destruct Hnf as [_ Hnf]; [reflexivity|discriminate]. }
        destruct e; unfold bind, is_dir, ret, raise; simpl; rewrite ?Ef;
          try reflexivity; congruence.
      * now destruct (Hnd ym).
      * (* the year is made first *)
        assert (e = FileNotFoundError).
        { unfold os_mkdir in E. rewrite Ef, Hpf, Eyd in E. congruence. }
        subst e. unfold bind at 1. unfold try_except at 1.
        unfold os_mkdir at 1. rewrite Eyd, Hpy, Ht.
        unfold mkdir, try_except, os_mkdir. simpl files. simpl clock.
        rewrite !lookup_snoc, Ef, Hpf, Eyd, Hne, path_eqb_refl.
        do 2 eexists. split; [reflexivity|]. repeat split.
        -- exists [(ydir, Dir (clock s)); (folder, Dir (clock s))]. split.
           ++ simpl. now rewrite <- app_assoc.
           ++ constructor; [|constructor; [|constructor]].
              ** exists [y]. repeat split; try discriminate.
                 exists m. simpl. rewrite Hpy, <- app_assoc, lookup_app, Ht.
                 reflexivity.
              ** exists [y; mo]. repeat split; try discriminate; [exact Hfq|].
                 exists (clock s). simpl. rewrite Hpf, <- app_assoc, lookup_app, Eyd.
                 simpl. now rewrite path_eqb_refl.
        -- simpl. now rewrite !copies_under_app, !copies_under_dir, !Nat.add_0_r.
        -- exists (clock s). simpl.
           now rewrite !lookup_snoc, Ef, Hne, path_eqb_refl.
Qed.

(** What the organizer adds does not change whether a folder can be
    made. *)
Lemma folder_ok_stable (target : path) (y mo : string) (s s' : state) :
  grows target 3 s s' ->
  folder_ok target y mo (files s') = folder_ok target y mo (files s).
Proof.
  intros G. pose proof (grows_extends _ _ _ _ G) as X. unfold folder_ok.
  set (folder := target // y // mo). set (ydir := target // y).
  assert (Hfq : folder = target ++ [y; mo]).
  { unfold folder, child. now rewrite <- app_assoc. }
  assert (Hpf : parent folder = ydir) by apply parent_child.
  destruct (lookup folder (files s)) as [n|] eqn:Ef.
  - now rewrite (X _ _ Ef).
  - destruct (lookup folder (files s')) as [n'|] eqn:Ef'.
    + destruct (grows_new _ _ _ _ _ _ G Ef Ef') as (q & Eq & _ & Hlen & m & Hm).
      simpl in Eq, Hlen, Hm. rewrite Hfq in Eq. apply app_inv_head in Eq.
      subst q. rewrite Hpf in Hm.
      destruct n' as [c fm r|fm]; [specialize (Hlen eq_refl); discriminate|].
      destruct (lookup ydir (files s)) as [[c ym r|ym]|] eqn:Ey; try reflexivity.
      apply X in Ey. congruence.
    + destruct (lookup ydir (files s)) as [ny|] eqn:Ey.
      * now rewrite (X _ _ Ey).
      * destruct (lookup ydir (files s')) as [[c ym r|ym]|] eqn:Ey';
          try reflexivity.
        destruct (grows_new _ _ _ _ _ _ G Ey Ey') as (q & Eq & _ & Hlen & _).
        simpl in Eq, Hlen. unfold ydir, child in Eq. apply app_inv_head in Eq.
        subst q. specialize (Hlen eq_refl). discriminate.
Qed.

(** [copy2] to a name that is free in a directory. *)
Lemma copy2_fresh (src dst : path) (s : state) m :
  lookup dst (files s) = None ->
  lookup (parent dst) (files s) = Some (Dir m) ->
  copy2 src dst s =
  match lookup src (files s) with
  | Some (File c fm true) =>
      (Ret tt, set_files s (files s ++ [(dst, File c fm true)]))
  | Some (File _ _ false) => (Raise PermissionError, s)
  | Some (Dir _) => (Raise IsADirectoryError, s)
  | None => (Raise FileNotFoundError, s)
  end.
Proof.
  intros Hd Hp. unfold copy2. rewrite Hd. cbv zeta. rewrite Hd, Hp.
  destruct (path_eqb src dst) eqn:E.
  - apply path_eqb_eq in E. subst dst. now rewrite Hd.
  - destruct (lookup src (files s)) as [[c fm [|]|fm]|]; reflexivity.
Qed.

(** *** The collision loop *)

Lemma while_exists_unfold (fuel : nat) (candidate : nat -> path)
    (base : path) (k : nat) (s : state) :
  while_exists fuel candidate base k s =
  match lookup base (files s) with
  | None => (Ret base, s)
  | Some _ =>
      match fuel with
      | O => (Diverge, s)
      | S fuel' => while_exists fuel' candidate (candidate k) (S k) s
      end
  end.
Proof.
  destruct fuel; simpl; unfold bind, exists_;
    destruct (lookup base (files s)); reflexivity.
Qed.

Lemma attempt_shift (candidate : nat -> path) (base : path) (k j : nat) :
  attempt (candidate k) candidate (S k) j = attempt base candidate k (S j).
Proof.
  destruct j; simpl; [now rewrite Nat.add_0_r|]. f_equal. lia.
Qed.

(** The loop leaves the state alone and returns the first free name; it
    reaches its bound only when every name it tried is taken. *)
Lemma while_exists_spec (fuel : nat) (candidate : nat -> path)
    (base : path) (k : nat) (s : state) :
  (exists i, (i <= fuel)%nat /\
     while_exists fuel candidate base k s
       = (Ret (attempt base candidate k i), s) /\
     lookup (attempt base candidate k i) (files s) = None /\
     forall j, (j < i)%nat ->
       lookup (attempt base candidate k j) (files s) <> None) \/
  (while_exists fuel candidate base k s = (Diverge, s) /\
   forall j, (j <= fuel)%nat ->
     lookup (attempt base candidate k j) (files s) <> None).
Proof.
  revert base k. induction fuel as [|fuel IH]; intros base k;
    rewrite while_exists_unfold;
    destruct (lookup base (files s)) as [n|] eqn:E.
  - right. split; [reflexivity|]. intros j Hj.
    replace j with 0%nat by lia. simpl. congruence.
  - left. exists 0%nat. repeat split; auto. intros j Hj. lia.
  - destruct (IH (candidate k) (S k)) as [(i & Hi & Hr & Hf & Ht)|(Hr & Ht)].
    + left. exists (S i). split; [lia|].
      rewrite (attempt_shift candidate base) in Hr, Hf. repeat split; auto.
      intros [|j] Hj; [simpl; congruence|].
      rewrite <- (attempt_shift candidate base). apply Ht. lia.
    + right. split; [exact Hr|].
      intros [|j] Hj; [simpl; congruence|].
      rewrite <- (attempt_shift candidate base). apply Ht. lia.
  - left. exists 0%nat. repeat split; auto; [lia|]. intros j Hj. lia.
Qed.

(** With one iteration per entry of the file system the loop ends. *)
Lemma while_exists_terminates (candidate : nat -> path) (base : path)
    (k : nat) (s : state) :
  (forall i j, attempt base candidate k i = attempt base candidate k j ->
               i = j) ->
  while_exists (List.length (files s)) candidate base k s <> (Diverge, s).
Proof.
  intros Hinj Hd.
  destruct (while_exists_spec (List.length (files s)) candidate base k s)
    as [(i & _ & Hr & _)|(_ & Ht)]; [congruence|].
  set (tried := map (attempt base candidate k)
                    (seq 0 (S (List.length (files s))))).
  assert (Hnd : NoDup tried).
  { unfold tried. apply Finite.Injective_map_NoDup; [|apply seq_NoDup].
    intros i j. apply Hinj. }
  assert (Hincl : incl tried (map fst (files s))).
  { intros p Hp. unfold tried in Hp. apply in_map_iff in Hp as (j & <- & Hj).
    apply in_seq in Hj.
    destruct (lookup (attempt base candidate k j) (files s)) as [n|] eqn:E.
    - now apply lookup_In_keys in E.
    - exfalso. apply (Ht j); [lia|exact E]. }
  pose proof (NoDup_incl_length Hnd Hincl) as L.
  unfold tried in L. rewrite !length_map, length_seq in L. lia.
Qed.

(** *** The date and the size of a file *)

Lemma exif_items_loop_spec (items : list (Z * exif_value)) (s : state) :
  try_except (exif_items_loop items) (fun _ => ret None) s
  = (Ret (find_date items), s).
Proof.
  induction items as [|[tag value] items IH]; [reflexivity|].
  unfold try_except in *. simpl.
  destruct (tag =? 36867)%Z; [|exact IH].
  unfold bind, strptime. destruct value as [text|]; [|reflexivity].
  destruct (Strptime.strptime text); reflexivity.
Qed.

(** [get_image_date] returns the date of the node or raises the error of
    the conversion of its modification time, raises for a path that names
    nothing, and leaves the state alone. *)
Lemma get_image_date_spec (p : path) (s : state) :
  get_image_date p s =
  match lookup p (files s) with
  | Some n =>
      (match date_of n with inr d => Ret d | inl e => Raise e end, s)
  | None => (Raise FileNotFoundError, s)
  end.
Proof.
  assert (Fb : forall m,
               (exists n, lookup p (files s) = Some n /\ mtime_of n = m) ->
               (m <- getmtime p ;; datetime_fromtimestamp m)%monad s
               = (match fromtimestamp m with
                  | inr d => Ret d
                  | inl e => Raise e
                  end, s)).
  { intros m (n & E & <-). unfold bind, getmtime, datetime_fromtimestamp.
    rewrite E.
    destruct n as [c m r|m]; cbn [mtime_of];
      destruct (fromtimestamp m); reflexivity. }
  unfold get_image_date, date_of, metadata_date, exif_date.
  unfold bind at 1. unfold try_except.
  unfold bind at 1. unfold Image_open. unfold bind at 1. unfold open_rb.
  destruct (lookup p (files s)) as [[c m [|]|m]|] eqn:E.
  - specialize (Fb m (ex_intro _ _ (conj eq_refl eq_refl))).
    cbn [mtime_of].
    destruct (Image_decode c) as [img|];
      [|unfold raise at 1, ret at 1; cbv beta iota; exact Fb].
    unfold ret at 1. unfold bind at 1. unfold call_getexif.
    destruct (getexif img) as [e|[[|item items]|]];
      try (unfold raise at 1, ret at 1; cbv beta iota; exact Fb);
      try (unfold ret at 1; cbv beta iota; unfold ret at 1; cbv beta iota;
           exact Fb).
    unfold ret at 1.
    pose proof (exif_items_loop_spec (item :: items) s) as L.
    unfold try_except in L.
    remember (find_date (item :: items)) as fd eqn:Efd in *. clear Efd.
    destruct (exif_items_loop (item :: items) s) as [[r|e|] s1].
    + injection L as -> ->.
      destruct fd as [d|]; [reflexivity|]. exact Fb.
    + unfold ret in L. injection L as L1 ->. rewrite <- L1.
      unfold ret at 1. cbv beta iota. exact Fb.
    + discriminate.
  - specialize (Fb m (ex_intro _ _ (conj eq_refl eq_refl))).
    unfold ret at 1. cbv beta iota. exact Fb.
  - specialize (Fb m (ex_intro _ _ (conj eq_refl eq_refl))).
    unfold ret at 1. cbv beta iota. exact Fb.
  - unfold ret, bind, getmtime. now rewrite E.
Qed.

Lemma get_image_size_spec (p : path) (s : state) :
  get_image_size p s = (Ret (size_of (lookup p (files s))), s).
Proof.
  unfold get_image_size, try_except, bind, Image_open, bind, open_rb, size_of.
  destruct (lookup p (files s)) as [[c m [|]|m]|]; try reflexivity.
  destruct (Image_decode c); reflexivity.
Qed.

(** *** Placing a copy *)

Lemma place_spec (source_path q : path) (plain : string)
    (numbered : nat -> string) (img_file : path) (key : string)
    (organized : dict (list (string * string))) (s : state) (dm : Z) :
  let dir := source_path ++ q in
  lookup dir (files s) = Some (Dir dm) ->
  (forall i j, nth_name plain numbered i = nth_name plain numbered j ->
               i = j) ->
  exists i,
    lookup (dir // nth_name plain numbered i) (files s) = None /\
    (forall j, (j < i)%nat ->
       lookup (dir // nth_name plain numbered j) (files s) <> None) /\
    place source_path dir plain numbered img_file key organized s =
    match lookup img_file (files s) with
    | Some (File c fm true) =>
        (Ret (dict_append key
                (name img_file,
                 path_str (q ++ [nth_name plain numbered i])) organized),
         set_files s
           (files s ++ [(dir // nth_name plain numbered i, File c fm true)]))
    | Some (File _ _ false) => (Raise PermissionError, s)
    | Some (Dir _) => (Raise IsADirectoryError, s)
    | None => (Raise FileNotFoundError, s)
    end.
Proof.
  intros dir Hdir Hinj.
  set (cand := fun counter : nat => dir // numbered counter).
  assert (A : forall i, attempt (dir // plain) cand 1 i
                        = dir // nth_name plain numbered i).
  { intros [|i]; reflexivity. }
  assert (Ainj : forall i j, attempt (dir // plain) cand 1 i
                             = attempt (dir // plain) cand 1 j -> i = j).
  { intros i j H. rewrite !A in H. apply child_inj in H. now apply Hinj. }
  pose proof (while_exists_terminates cand (dir // plain) 1 s Ainj) as T.
  destruct (while_exists_spec (List.length (files s)) cand (dir // plain) 1 s)
    as [(i & _ & Hr & Hf & Ht)|(Hr & _)]; [|contradiction].
  exists i. rewrite A in Hf, Hr. split; [exact Hf|]. split.
  { intros j Hj. rewrite <- A. now apply Ht. }
  unfold place. unfold bind at 1. unfold entries at 1.
  unfold bind at 1. fold cand. rewrite Hr.
  unfold bind at 1.
  rewrite (copy2_fresh img_file _ s dm Hf)
    by (now rewrite parent_child).
  destruct (lookup img_file (files s)) as [[c fm [|]|fm]|]; try reflexivity.
  unfold bind, relative_to_or_raise, dir, child.
  now rewrite <- app_assoc, relative_to_app.
Qed.

(** *** Dictionaries *)

Lemma total_dict_append {X} (k : string) (x : X) (d : dict (list X)) :
  total (dict_append k x d) = S (total d).
Proof.
  induction d as [|[k' xs] d IH]; simpl; [reflexivity|].
  destruct (String.eqb k' k); simpl.
  - rewrite length_app. simpl. lia.
  - rewrite IH. lia.
Qed.

Lemma In_values_dict_append {X} (k : string) (x y : X) (d : dict (list X)) :
  In y (values (dict_append k x d)) <-> y = x \/ In y (values d).
Proof.
  unfold values. induction d as [|[k' xs] d IH]; simpl.
  - intuition.
  - destruct (String.eqb k' k); simpl; rewrite !in_app_iff.
    + simpl. intuition.
    + rewrite IH. intuition.
Qed.

Lemma Forall_values_dict_append {X} (P : X -> Prop) (k : string) (x : X)
    (d : dict (list X)) :
  P x -> Forall P (values d) -> Forall P (values (dict_append k x d)).
Proof.
  rewrite !Forall_forall. intros Hx Hd y Hy.
  apply In_values_dict_append in Hy as [->|Hy]; auto.
Qed.

Lemma glob_spec (d : path) (s : state) :
  glob_star_dot_star d s = (Ret (glob_list d (files s)), s).
Proof.
  unfold glob_star_dot_star, glob_list.
  destruct (lookup d (files s)) as [[c m r|m]|]; reflexivity.
Qed.

Lemma glob_list_exist (d : path) (t : fs) :
  Forall (fun p => lookup p t <> None) (glob_list d t).
Proof.
  unfold glob_list. destruct (lookup d t) as [[c m r|m]|]; try constructor.
  apply Forall_forall. intros p Hp.
  apply in_map_iff in Hp as (n & <- & Hn). apply filter_In in Hn as [Hn _].
  apply In_scandir in Hn. intros H. apply lookup_None_keys in H.
  contradiction.
Qed.

(** What is added below [src/tn] changes neither [src] nor its listing. *)
Lemma grows_glob_list (src : path) (tn : string) (depth : nat)
    (s s' : state) :
  grows (src // tn) depth s s' ->
  glob_list src (files s') = glob_list src (files s).
Proof.
  intros G. unfold glob_list. rewrite (grows_scandir _ _ _ _ _ G).
  destruct (lookup src (files s)) as [n|] eqn:E.
  - now rewrite (grows_extends _ _ _ _ G _ _ E).
  - destruct (lookup src (files s')) as [n'|] eqn:E'; [|reflexivity].
    destruct (grows_new _ _ _ _ _ _ G E E') as (q & Eq & Hq & _).
    simpl in Eq. apply (f_equal (@List.length _)) in Eq.
    unfold child in Eq. rewrite !length_app in Eq. simpl in Eq. lia.
Qed.

Lemma grows_print (target : path) (depth : nat) (s : state) (l : printed) :
  grows target depth s (snd (print l s)).
Proof. exists []. simpl. split; [now rewrite app_nil_r|constructor]. Qed.

(** Rewrite with the equation of a loop whatever the type of its
    accumulator is written as. *)
Ltac rewrite_loop E :=
  match type of E with
  | _ = ?r =>
      match goal with
      | |- context [@for_each ?A ?B ?xs ?acc ?body ?st] =>
          let E' := fresh "E" in
          assert (E' : @for_each A B xs acc body st = r) by exact E;
          rewrite E'; clear E'
      end
  end.


(* ------------------------------------------------------------------ *)
(** ** A batch of copies, and the same batch again

    The two organizers share their shape: a prelude that makes the
    destination folders, then one guarded step per entry of the source
    directory.  What the section assumes of a step is proved of each
    organizer further down. *)

Section Batch.

Variable src : path.
Variable tn : string.
Variable depth : nat.
Variable step : dict (list (string * string)) -> path
                -> M (dict (list (string * string))).
Variable prelude : M unit.
(** Whether a file gets copied, and the plain name of its copy. *)
Variable will : fs -> path -> bool.
Variable plain : fs -> path -> path.
(** Reported copies whose name carries a number. *)
Variable Numbered : string * string -> Prop.
(** The destination folders are there. *)
Variable inv : state -> Prop.

Hypothesis inv_extends : forall s s', extends s s' -> inv s -> inv s'.

Hypothesis will_stable : forall s s' img,
  grows (src // tn) depth s s' -> lookup img (files s) <> None ->
  will (files s') img = will (files s) img /\
  plain (files s') img = plain (files s) img.

Hypothesis step_spec : forall organized img s,
  inv s -> lookup img (files s) <> None ->
  exists o s',
    step organized img s = (o, s') /\ grows (src // tn) depth s s' /\
    match o with
    | Ret organized' =>
        will (files s) img = true /\
        copies_under (src // tn) (files s')
          = S (copies_under (src // tn) (files s)) /\
        lookup (plain (files s) img) (files s') <> None /\
        exists k e, organized' = dict_append k e organized /\
          (lookup (plain (files s) img) (files s) <> None -> Numbered e)
    | Raise _ =>
        will (files s) img = false /\
        copies_under (src // tn) (files s')
          = copies_under (src // tn) (files s)
    | Diverge => False
    end.

Hypothesis prelude_spec : forall s,
  exists o s',
    prelude s = (o, s') /\ extends s s' /\
    copies_under (src // tn) (files s') = copies_under (src // tn) (files s) /\
    match o with
    | Ret _ => inv s'
    | Raise _ => exists e', prelude s' = (Raise e', s')
    | Diverge => False
    end.

Hypothesis prelude_again : forall s, inv s -> prelude s = (Ret tt, s).

Lemma chosen_stable (s s' : state) (xs : list path) :
  grows (src // tn) depth s s' ->
  Forall (fun p => lookup p (files s) <> None) xs ->
  chosen will (files s') xs = chosen will (files s) xs.
Proof using will_stable.
  intros G F. unfold chosen. induction F as [|x xs Hx F IH]; [reflexivity|].
  simpl. destruct (will_stable s s' x G Hx) as [-> _]. now rewrite IH.
Qed.

Lemma exist_extends (s s' : state) (xs : list path) :
  extends s s' ->
  Forall (fun p => lookup p (files s) <> None) xs ->
  Forall (fun p => lookup p (files s') <> None) xs.
Proof.
  intros X F. eapply Forall_impl; [|exact F]. intros p Hp.
  destruct (lookup p (files s)) as [n|] eqn:E; [|contradiction].
  rewrite (X _ _ E). discriminate.
Qed.

Lemma taken_extends (s s' : state) (p : path) :
  extends s s' -> lookup p (files s) <> None -> lookup p (files s') <> None.
Proof.
  intros X H. destruct (lookup p (files s)) as [n|] eqn:E; [|contradiction].
  rewrite (X _ _ E). discriminate.
Qed.

Lemma batch_loop (xs : list path) :
  forall organized s,
  inv s -> Forall (fun p => lookup p (files s) <> None) xs ->
  exists organized' s',
    for_each xs organized (guarded step) s = (Ret organized', s') /\
    grows (src // tn) depth s s' /\
    total organized' = total organized + List.length (chosen will (files s) xs) /\
    copies_under (src // tn) (files s')
      = copies_under (src // tn) (files s)
        + List.length (chosen will (files s) xs) /\
    (forall img, In img (chosen will (files s) xs) ->
       lookup (plain (files s) img) (files s') <> None) /\
    ((forall img, In img (chosen will (files s) xs) ->
        lookup (plain (files s) img) (files s) <> None) ->
     Forall Numbered (values organized) ->
     Forall Numbered (values organized')).
Proof using inv_extends will_stable step_spec.
  induction xs as [|x xs IH]; intros organized s Hinv F.
  - exists organized, s. simpl.
    repeat split; auto using grows_refl; try lia; try (intros img []).
  - inversion F as [|? ? Hx F']; subst.
    cbn [for_each]. unfold bind at 1. unfold guarded at 1.
    destruct (has_image_suffix x) eqn:Hsel.
    + (* the entry is selected *)
      destruct (step_spec organized x s Hinv Hx) as (o & s1 & E & G & Ho).
      unfold try_except. rewrite E.
      pose proof (grows_extends _ _ _ _ G) as X1.
      destruct o as [organized1|e|]; [| |contradiction].
      * (* copied *)
        destruct Ho as (Hw & Hc & Hp & k & e & -> & Hnum).
        destruct (IH (dict_append k e organized) s1 (inv_extends _ _ X1 Hinv)
                    (exist_extends _ _ _ X1 F'))
          as (organized' & s' & E' & G' & Ht & Hc' & Hp' & Hn').
        pose proof (grows_extends _ _ _ _ G') as X'.
        exists organized', s'. rewrite E'.
        rewrite (chosen_stable _ _ _ G F') in Ht, Hc', Hp', Hn'.
        unfold chosen in *. simpl. rewrite Hsel, Hw. simpl.
        split; [reflexivity|]. split; [exact (grows_trans _ _ _ _ _ G G')|].
        rewrite total_dict_append in Ht.
        split; [lia|]. split; [lia|]. split.
        -- intros img [<-|Hin]; [now apply (taken_extends s1 s')|].
           specialize (Hp' img Hin). apply filter_In in Hin as [Hin _].
           rewrite Forall_forall in F'.
           destruct (will_stable s s1 img G (F' _ Hin)) as [_ Epl].
           now rewrite <- Epl.
        -- intros Htk Hall. apply Hn'.
           ++ intros img Hin. pose proof (Htk img (or_intror Hin)) as T.
              apply filter_In in Hin as [Hin _]. rewrite Forall_forall in F'.
              destruct (will_stable s s1 img G (F' _ Hin)) as [_ Epl].
              rewrite Epl. now apply (taken_extends s s1).
           ++ apply Forall_values_dict_append; [|exact Hall].
              apply Hnum. apply Htk. now left.
      * (* skipped with a message *)
        destruct Ho as (Hw & Hc).
        unfold bind at 1. unfold print at 1. unfold ret at 1.
        set (s1p := mk_state (files s1) (stdout s1 ++ [ErrorProcessing x e])
                             (clock s1)).
        assert (X1p : extends s s1p) by exact X1.
        assert (G1p : grows (src // tn) depth s s1p) by exact G.
        destruct (IH organized s1p (inv_extends _ _ X1p Hinv)
                    (exist_extends _ _ _ X1p F'))
          as (organized' & s' & E' & G' & Ht & Hc' & Hp' & Hn').
        exists organized', s'. rewrite E'.
        rewrite (chosen_stable _ _ _ G1p F') in Ht, Hc', Hp', Hn'.
        unfold chosen in *. simpl. rewrite Hsel, Hw. simpl.
        split; [reflexivity|]. split; [exact (grows_trans _ _ _ _ _ G1p G')|].
        split; [exact Ht|]. split; [simpl in Hc'; lia|]. split.
        -- intros img Hin. specialize (Hp' img Hin).
           apply filter_In in Hin as [Hin _]. rewrite Forall_forall in F'.
           destruct (will_stable s s1p img G1p (F' _ Hin)) as [_ Epl].
           now rewrite <- Epl.
        -- intros Htk Hall. apply Hn'; [|exact Hall].
           intros img Hin. pose proof (Htk img Hin) as T.
           apply filter_In in Hin as [Hin _]. rewrite Forall_forall in F'.
           destruct (will_stable s s1p img G1p (F' _ Hin)) as [_ Epl].
           rewrite Epl. now apply (taken_extends s s1p).
    + (* the entry is not selected *)
      unfold ret at 1.
      destruct (IH organized s Hinv F')
        as (organized' & s' & E' & G' & Ht & Hc' & Hp' & Hn').
      exists organized', s'. rewrite E'. unfold chosen in *. simpl.
      rewrite Hsel. simpl. repeat split; auto.
Qed.

Lemma batch_unfold (s : state) :
  batch src prelude step s =
  match prelude s with
  | (Ret _, a) => for_each (glob_list src (files a)) [] (guarded step) a
  | (Raise e, a) => (Raise e, a)
  | (Diverge, a) => (Diverge, a)
  end.
Proof.
  unfold batch, bind. destruct (prelude s) as [[[]|e|] a]; try reflexivity.
  now rewrite glob_spec.
Qed.


End Batch.

(* ------------------------------------------------------------------ *)
(** ** The date organizer *)

Lemma nth_name_inj (a c : string) (i j : nat) :
  nth_name (a ++ c)%string
    (fun k => (a ++ "_" ++ Str.of_nat k ++ c)%string) i
  = nth_name (a ++ c)%string
      (fun k => (a ++ "_" ++ Str.of_nat k ++ c)%string) j ->
  i = j.
Proof.
  destruct i as [|i], j as [|j]; simpl; intros H.
  - reflexivity.
  - now apply numbered_neq in H.
  - symmetry in H. now apply numbered_neq in H.
  - now apply numbered_inj in H.
Qed.

Lemma date_folder_app (src : path) (tn : string) (d : datetime) :
  date_folder (src // tn) d
  = src ++ [tn; Str.of_nat (year d); Str.pad 2 (month d)].
Proof. unfold date_folder, child. now rewrite <- !app_assoc. Qed.

(** One file of the date organizer: the folder is made, and then the copy
    goes to the first free name of the folder. *)
Lemma organize_by_date_file_spec (src : path) (tn : string) (img : path)
    (organized : dict (list (string * string))) (s : state) (tm : Z)
    (n : node) :
  lookup (src // tn) (files s) = Some (Dir tm) ->
  lookup img (files s) = Some n ->
  dated n = true ->
  let d := image_date n in
  let y := Str.of_nat (year d) in
  let mo := Str.pad 2 (month d) in
  let folder := date_folder (src // tn) d in
  exists o sm,
    mkdir_parents folder s = (o, sm) /\
    grows (src // tn) 3 s sm /\
    copies_under (src // tn) (files sm) = copies_under (src // tn) (files s) /\
    match o with
    | Ret _ =>
        folder_ok (src // tn) y mo (files s) = true /\
        (exists dm, lookup folder (files sm) = Some (Dir dm)) /\
        exists i,
          lookup (folder // date_name d (suffix img) i) (files sm) = None /\
          (forall j, (j < i)%nat ->
             lookup (folder // date_name d (suffix img) j) (files sm)
             <> None) /\
          organize_by_date_file src (src // tn) img organized s =
          match n with
          | File c fm true =>
              (Ret (dict_append "date"
                      (name img,
                       path_str [tn; y; mo; date_name d (suffix img) i])
                      organized),
               set_files sm
                 (files sm ++
                  [(folder // date_name d (suffix img) i, File c fm true)]))
          | File _ _ false => (Raise PermissionError, sm)
          | Dir _ => (Raise IsADirectoryError, sm)
          end
    | Raise e =>
        folder_ok (src // tn) y mo (files s) = false /\ sm = s /\
        organize_by_date_file src (src // tn) img organized s = (Raise e, s)
    | Diverge => False
    end.
Proof.
  intros Ht Hn Hdt d y mo folder. subst folder y mo d. unfold date_folder.
  assert (Ed : date_of n = inr (image_date n)).
  { unfold dated in Hdt. unfold image_date.
    destruct (date_of n); [discriminate|reflexivity]. }
  set (d := image_date n) in *.
  destruct (mkdir_parents_two (src // tn) (Str.of_nat (year d))
              (Str.pad 2 (month d)) s tm Ht)
    as (o & sm & E & G & C & _ & Ho).
  set (folder := src // tn // Str.of_nat (year d) // Str.pad 2 (month d)) in *.
  exists o, sm. split; [exact E|]. split; [exact G|]. split; [exact C|].
  assert (Estep : organize_by_date_file src (src // tn) img organized s =
                  match mkdir_parents folder s with
                  | (Ret _, s1) =>
                      place src folder (date_plain d (suffix img))
                        (date_numbered d (suffix img)) img "date" organized s1
                  | (Raise e, s1) => (Raise e, s1)
                  | (Diverge, s1) => (Diverge, s1)
                  end).
  { unfold organize_by_date_file. unfold bind at 1.
    rewrite get_image_date_spec, Hn, Ed. unfold bind at 1.
    fold folder.
    destruct (mkdir_parents folder s) as [[[]|e|] s1]; reflexivity. }
  rewrite Estep, E. clear Estep.
  destruct o as [[]|e|]; [| |contradiction].
  - destruct Ho as [Hok [dm Hd]]. split; [exact Hok|].
    split; [now exists dm|].
    pose proof (grows_extends _ _ _ _ G _ _ Hn) as Hn'.
    assert (Ef : folder = src ++ [tn; Str.of_nat (year d); Str.pad 2 (month d)])
      by apply date_folder_app.
    rewrite Ef in Hd.
    destruct (place_spec src [tn; Str.of_nat (year d); Str.pad 2 (month d)]
                (date_plain d (suffix img))
                (date_numbered d (suffix img)) img "date" organized sm dm Hd)
      as (i & Hf & Htk & Hp).
    { intros i j. unfold date_plain, date_numbered. apply nth_name_inj. }
    cbv zeta in Hf, Htk, Hp. rewrite <- Ef in Hf, Htk, Hp.
    exists i. split; [exact Hf|]. split; [exact Htk|].
    rewrite Hp, Hn'. unfold date_name.
    destruct n as [c fm [|]|fm]; reflexivity.
  - destruct Ho as [Hok ->]. auto.
Qed.

(** An entry whose date cannot be read is given up before anything is
    done. *)
Lemma organize_by_date_file_undated (src target img : path)
    (organized : dict (list (string * string))) (s : state) (n : node)
    (e : exn) :
  lookup img (files s) = Some n -> date_of n = inl e ->
  organize_by_date_file src target img organized s = (Raise e, s).
Proof.
  intros Hn Hd. unfold organize_by_date_file. unfold bind at 1.
  now rewrite get_image_date_spec, Hn, Hd.
Qed.

Lemma copies_under_snoc_file (target q : path) (t : fs) c fm r :
  copies_under target (t ++ [(target ++ q, File c fm r)])
  = S (copies_under target t).
Proof.
  rewrite copies_under_app. unfold copies_under at 2. simpl.
  rewrite is_prefix_app. simpl. lia.
Qed.

Lemma date_step (src : path) (tn : string)
    (organized : dict (list (string * string))) (img : path) (s : state) :
  date_inv src tn s -> lookup img (files s) <> None ->
  exists o s',
    organize_by_date_file src (src // tn) img organized s = (o, s') /\
    grows (src // tn) 3 s s' /\
    match o with
    | Ret organized' =>
        will_date (src // tn) (files s) img = true /\
        copies_under (src // tn) (files s')
          = S (copies_under (src // tn) (files s)) /\
        lookup (plain_date (src // tn) (files s) img) (files s') <> None /\
        exists k e, organized' = dict_append k e organized /\
          (lookup (plain_date (src // tn) (files s) img) (files s) <> None ->
           numbered_date tn e)
    | Raise _ =>
        will_date (src // tn) (files s) img = false /\
        copies_under (src // tn) (files s')
          = copies_under (src // tn) (files s)
    | Diverge => False
    end.
Proof.
  intros [tm Ht] Hx.
  destruct (lookup img (files s)) as [n|] eqn:Hn; [|contradiction].
  destruct (dated n) eqn:Hdt.
  2:{ unfold dated in Hdt. destruct (date_of n) as [e|d] eqn:Ed;
        [|discriminate].
      exists (Raise e), s.
      split; [exact (organize_by_date_file_undated _ _ _ _ _ _ _ Hn Ed)|].
      split; [apply grows_refl|]. split; [|reflexivity].
      unfold will_date. rewrite Hn. unfold dated. now rewrite Ed. }
  destruct (organize_by_date_file_spec src tn img organized s tm n Ht Hn Hdt)
    as (o & sm & E & G & C & Ho).
  cbv zeta in E, Ho. unfold will_date, plain_date. rewrite Hn, Hdt.
  cbn [andb].
  set (d := image_date n) in *.
  set (folder := date_folder (src // tn) d) in *.
  destruct o as [[]|e|]; [| |contradiction].
  - destruct Ho as (Hok & [dm Hd] & i & Hf & Htk & Es). rewrite Es, Hok.
    pose proof (grows_extends _ _ _ _ G) as X.
    destruct n as [c fm [|]|fm].
    + (* copied *)
      assert (Eq : folder // date_name d (suffix img) i
                   = (src // tn)
                     ++ [Str.of_nat (year d); Str.pad 2 (month d);
                         date_name d (suffix img) i]).
      { unfold folder, date_folder, child. now rewrite <- !app_assoc. }
      do 2 eexists. split; [reflexivity|]. split.
      { apply (grows_trans _ _ _ _ _ G).
        apply (grows_snoc (src // tn) 3 sm _ _ _ Eq); try discriminate;
          try reflexivity.
        exists dm. now rewrite parent_child. }
      split; [reflexivity|]. split.
      { simpl files. rewrite Eq, copies_under_snoc_file. now rewrite C. }
      split.
      { simpl files. rewrite lookup_snoc. destruct i as [|i].
        - simpl in Hf. fold folder. rewrite Hf, path_eqb_refl. discriminate.
        - pose proof (Htk 0%nat (Nat.lt_0_succ i)) as T. simpl in T.
          fold folder.
          destruct (lookup (folder // date_plain d (suffix img)) (files sm));
            [discriminate|contradiction]. }
      do 2 eexists. split; [reflexivity|]. intros Hpl.
      destruct i as [|i].
      * exfalso. simpl in Hf. fold folder in Hpl.
        apply (taken_extends s sm _ X) in Hpl. contradiction.
      * exists d, (S i). split; [lia|]. reflexivity.
    + do 2 eexists. split; [reflexivity|]. split; [exact G|].
      split; [apply andb_false_r|exact C].
    + do 2 eexists. split; [reflexivity|]. split; [exact G|].
      split; [apply andb_false_r|exact C].
  - destruct Ho as (Hok & -> & Es). rewrite Es, Hok.
    do 2 eexists. split; [reflexivity|]. split; [exact G|]. now split.
Qed.

Lemma date_will_stable (src : path) (tn : string) (s s' : state) (img : path) :
  grows (src // tn) 3 s s' -> lookup img (files s) <> None ->
  will_date (src // tn) (files s') img = will_date (src // tn) (files s) img /\
  plain_date (src // tn) (files s') img = plain_date (src // tn) (files s) img.
Proof.
  intros G Hx. unfold will_date, plain_date.
  destruct (lookup img (files s)) as [n|] eqn:Hn; [|contradiction].
  rewrite (grows_extends _ _ _ _ G _ _ Hn).
  now rewrite (folder_ok_stable _ _ _ _ _ G).
Qed.

Lemma mkdir_prelude (p : path) (s : state) :
  exists o s',
    mkdir p s = (o, s') /\ extends s s' /\
    (forall target, copies_under target (files s')
                    = copies_under target (files s)) /\
    match o with
    | Ret _ => exists m, lookup p (files s') = Some (Dir m)
    | Raise _ => s' = s
    | Diverge => False
    end.
Proof.
  destruct (mkdir_cases p s) as [[E [m Hm]]|[(E & Hp & Hd)|(e & E & _)]];
    rewrite E; do 2 eexists; (split; [reflexivity|]).
  - repeat split; auto using extends_refl. now exists m.
  - split; [apply extends_app|]. split.
    + intros target. simpl.
      now rewrite copies_under_app, copies_under_dir, Nat.add_0_r.
    + exists (clock s). simpl. now rewrite lookup_snoc, Hp, path_eqb_refl.
  - repeat split; auto using extends_refl.
Qed.

Lemma mkdir_again (p : path) (s : state) (m : Z) :
  lookup p (files s) = Some (Dir m) -> mkdir p s = (Ret tt, s).
Proof.
  intros H.
  destruct (mkdir_cases p s)
    as [[E _]|[(_ & Hp & _)|(e & _ & Hn)]]; [exact E|congruence|].
  now destruct (Hn m).
Qed.

Lemma date_inv_extends (src : path) (tn : string) (s s' : state) :
  extends s s' -> date_inv src tn s -> date_inv src tn s'.
Proof. intros X [tm H]. exists tm. now apply X. Qed.

(* ------------------------------------------------------------------ *)
(** ** The target folder *)

Lemma split_slash_plain (t : string) :
  forall cur, has_slash t = false ->
  split_slash t cur = [(cur ++ t)%string].
Proof.
  induction t as [|c t IH]; intros cur H; cbn [split_slash].
  - assert (E : (cur ++ "")%string = cur).
    { clear. induction cur as [|a cur IH]; cbn; [reflexivity|].
      now rewrite IH. }
    now rewrite E.
  - cbn [has_slash] in H. apply orb_false_iff in H as [Hc Ht].
    rewrite Hc, (IH _ Ht). rewrite append_assoc. reflexivity.
Qed.

(** For one name, [p / t] is the child of [p] with that name. *)
Lemma joinpath_plain (p : path) (t : string) :
  plain_name t = true -> joinpath p t = p // t.
Proof.
  unfold plain_name. intros H.
  apply andb_true_iff in H as [H Hdd]. apply andb_true_iff in H as [H Hd].
  apply andb_true_iff in H as [Hs He].
  apply negb_true_iff in Hs, He, Hd.
  unfold joinpath, path_parts.
  assert (Ha : is_absolute t = false).
  { destruct t as [|c t]; [reflexivity|]. cbn [is_absolute has_slash] in *.
    now apply orb_false_iff in Hs as [-> _]. }
  rewrite Ha, (split_slash_plain t "" Hs). cbn [append filter].
  now rewrite He, Hd.
Qed.

Lemma organize_by_date_unfold (src : path) (tn : string) :
  plain_name tn = true ->
  organize_by_date src tn =
  (mkdir (src // tn) ;;
   imgs <- glob_star_dot_star src ;;
   for_each imgs []
     (guarded (fun organized img =>
                 organize_by_date_file src (src // tn) img organized))).
Proof.
  intros H. unfold organize_by_date. cbv zeta.
  now rewrite (joinpath_plain src tn H).
Qed.


(* ------------------------------------------------------------------ *)
(** ** The size organizer *)

Lemma mkdirs_spec (ps : list path) :
  forall s, exists o s',
    mkdirs ps s = (o, s') /\ extends s s' /\
    (forall target, copies_under target (files s')
                    = copies_under target (files s)) /\
    match o with
    | Ret _ => dirs_exist ps s'
    | Raise _ => exists e', mkdirs ps s' = (Raise e', s')
    | Diverge => False
    end.
Proof.
  unfold mkdirs, dirs_exist.
  induction ps as [|p ps IH]; intros s.
  - exists (Ret tt), s. repeat split; auto using extends_refl.
  - cbn [for_each]. unfold bind at 1.
    destruct (mkdir_prelude p s) as (o & s1 & E & X & C & Ho). rewrite E.
    destruct o as [[]|e|]; [| |contradiction].
    + destruct Ho as [m Hm]. destruct (IH s1) as (o' & s' & E' & X' & C' & Ho').
      exists o', s'. split; [exact E'|]. split; [exact (extends_trans _ _ _ X X')|].
      split; [intros target; now rewrite C', C|].
      destruct o' as [[]|e'|]; [| |contradiction].
      * constructor; [|exact Ho']. exists m. now apply X'.
      * destruct Ho' as [e'' Ee]. exists e''. unfold bind.
        now rewrite (mkdir_again p s' m (X' _ _ Hm)).
    + subst s1. exists (Raise e), s. repeat split; auto using extends_refl.
      exists e. unfold bind. now rewrite E.
Qed.


Lemma dirs_exist_extends (ps : list path) (s s' : state) :
  extends s s' -> dirs_exist ps s -> dirs_exist ps s'.
Proof.
  intros X F. eapply Forall_impl; [|exact F]. intros p [m Hm].
  exists m. now apply X.
Qed.

Lemma categories_get (target : path) (w h : Z) :
  dict_get (categorize_by_size w h) (size_categories target)
  = Some (target // categorize_by_size w h).
Proof.
  unfold categorize_by_size.
  destruct (w * h <? 500000)%Z; [reflexivity|].
  destruct (w * h <? 2000000)%Z; reflexivity.
Qed.

Lemma categories_dir (target : path) (w h : Z) (s : state) :
  dirs_exist (target :: map snd (size_categories target)) s ->
  exists m, lookup (target // categorize_by_size w h) (files s) = Some (Dir m).
Proof.
  intros F. unfold dirs_exist in F. rewrite Forall_forall in F. apply F.
  unfold categorize_by_size. simpl.
  destruct (w * h <? 500000)%Z; [right; now left|].
  destruct (w * h <? 2000000)%Z; [right; right; now left|].
  right; right; right; now left.
Qed.

Lemma size_name_inj (file_name : string) (i j : nat) :
  size_name file_name i = size_name file_name j -> i = j.
Proof.
  unfold size_name, size_numbered.
  assert (G : forall plain a c, plain = (a ++ c)%string ->
            nth_name plain
              (fun k => (a ++ "_" ++ Str.of_nat k ++ c)%string) i
            = nth_name plain
                (fun k => (a ++ "_" ++ Str.of_nat k ++ c)%string) j ->
            i = j).
  { intros plain a c ->. apply nth_name_inj. }
  apply G. symmetry. apply stem_suffix.
Qed.

(** One file of the size organizer: the copy goes to the first free name of
    the folder of its category. *)
Lemma organize_by_size_file_spec (src : path) (tn : string) (img : path)
    (organized : dict (list (string * string))) (s : state) :
  dirs_exist ((src // tn) :: map snd (size_categories (src // tn))) s ->
  let cat := category_of (lookup img (files s)) in
  let folder := src // tn // cat in
  exists i,
    lookup (folder // size_name (name img) i) (files s) = None /\
    (forall j, (j < i)%nat ->
       lookup (folder // size_name (name img) j) (files s) <> None) /\
    organize_by_size_file src (size_categories (src // tn)) img organized s =
    match lookup img (files s) with
    | Some (File c fm true) =>
        (Ret (dict_append cat
                (name img, path_str [tn; cat; size_name (name img) i])
                organized),
         set_files s
           (files s ++ [(folder // size_name (name img) i, File c fm true)]))
    | Some (File _ _ false) => (Raise PermissionError, s)
    | Some (Dir _) => (Raise IsADirectoryError, s)
    | None => (Raise FileNotFoundError, s)
    end.
Proof.
  intros F cat folder.
  destruct (categories_dir (src // tn) (fst (size_of (lookup img (files s))))
              (snd (size_of (lookup img (files s)))) s F) as [dm Hd].
  fold (category_of (lookup img (files s))) in Hd. fold cat in Hd.
  assert (Ef : src // tn // cat = src ++ [tn; cat]).
  { unfold child. now rewrite <- app_assoc. }
  rewrite Ef in Hd.
  destruct (place_spec src [tn; cat] (name img) (size_numbered (name img))
              img cat organized s dm Hd) as (i & Hf & Htk & Hp).
  { intros i j. apply size_name_inj. }
  cbv zeta in Hf, Htk, Hp. rewrite <- Ef in Hf, Htk, Hp. cbn [app] in Hp.
  exists i. split; [exact Hf|]. split; [exact Htk|].
  unfold folder, size_name. rewrite <- Hp.
  unfold organize_by_size_file. unfold bind at 1.
  rewrite get_image_size_spec. unfold bind at 1. unfold lookup_category.
  rewrite categories_get. reflexivity.
Qed.

Lemma size_step (src : path) (tn : string)
    (organized : dict (list (string * string))) (img : path) (s : state) :
  dirs_exist ((src // tn) :: map snd (size_categories (src // tn))) s ->
  lookup img (files s) <> None ->
  exists o s',
    organize_by_size_file src (size_categories (src // tn)) img organized s
      = (o, s') /\
    grows (src // tn) 2 s s' /\
    match o with
    | Ret organized' =>
        will_size (files s) img = true /\
        copies_under (src // tn) (files s')
          = S (copies_under (src // tn) (files s)) /\
        lookup (plain_size (src // tn) (files s) img) (files s') <> None /\
        exists k e, organized' = dict_append k e organized /\
          (lookup (plain_size (src // tn) (files s) img) (files s) <> None ->
           numbered_size tn e)
    | Raise _ =>
        will_size (files s) img = false /\
        copies_under (src // tn) (files s')
          = copies_under (src // tn) (files s)
    | Diverge => False
    end.
Proof.
  intros F Hx.
  destruct (organize_by_size_file_spec src tn img organized s F)
    as (i & Hf & Htk & Es).
  cbv zeta in Hf, Htk, Es. rewrite Es. unfold will_size, plain_size.
  destruct (categories_dir (src // tn) (fst (size_of (lookup img (files s))))
              (snd (size_of (lookup img (files s)))) s F) as [dm Hd].
  fold (category_of (lookup img (files s))) in Hd.
  set (cat := category_of (lookup img (files s))) in *.
  destruct (lookup img (files s)) as [[c fm [|]|fm]|] eqn:Hn;
    [| | |contradiction].
  - assert (Eq : src // tn // cat // size_name (name img) i
                 = (src // tn) ++ [cat; size_name (name img) i]).
    { unfold child. now rewrite <- !app_assoc. }
    do 2 eexists. split; [reflexivity|]. split.
    { apply (grows_snoc (src // tn) 2 s _ _ _ Eq); try discriminate;
        try reflexivity.
      exists dm. now rewrite parent_child. }
    split; [reflexivity|]. split.
    { simpl files. now rewrite Eq, copies_under_snoc_file. }
    split.
    { simpl files. rewrite lookup_snoc. destruct i as [|i].
      - simpl in Hf. rewrite Hf, path_eqb_refl. discriminate.
      - pose proof (Htk 0%nat (Nat.lt_0_succ i)) as T. simpl in T.
        destruct (lookup (src // tn // cat // name img) (files s));
          [discriminate|contradiction]. }
    do 2 eexists. split; [reflexivity|]. intros Hpl.
    destruct i as [|i].
    + exfalso. simpl in Hf. contradiction.
    + exists cat, (S i). split; [lia|]. reflexivity.
  - do 2 eexists. split; [reflexivity|]. split; [apply grows_refl|].
    now split.
  - do 2 eexists. split; [reflexivity|]. split; [apply grows_refl|].
    now split.
Qed.

Lemma size_will_stable (src : path) (tn : string) (s s' : state) (img : path) :
  grows (src // tn) 2 s s' -> lookup img (files s) <> None ->
  will_size (files s') img = will_size (files s) img /\
  plain_size (src // tn) (files s') img = plain_size (src // tn) (files s) img.
Proof.
  intros G Hx. unfold will_size, plain_size.
  destruct (lookup img (files s)) as [n|] eqn:Hn; [|contradiction].
  now rewrite (grows_extends _ _ _ _ G _ _ Hn).
Qed.

Lemma organize_by_size_unfold (src : path) (tn : string) (s : state) :
  plain_name tn = true ->
  organize_by_size src tn s =
  (mkdirs ((src // tn) :: map snd (size_categories (src // tn))) ;;
   imgs <- glob_star_dot_star src ;;
   for_each imgs []
     (guarded (fun organized img =>
                 organize_by_size_file src (size_categories (src // tn))
                   img organized))) s.
Proof.
  intros Hp. unfold organize_by_size, mkdirs. cbv zeta.
  rewrite (joinpath_plain src tn Hp).
  cbn [map snd size_categories for_each].
  unfold bind.
  repeat match goal with
         | |- context [mkdir ?p ?st] =>
             destruct (mkdir p st) as [[[]|?|] ?]; try reflexivity
         end.
Qed.


(* ------------------------------------------------------------------ *)
(** ** The duplicate finder *)

Lemma read_chunks_all (size : nat) :
  (0 < size)%nat ->
  forall fuel f fed, (List.length f < fuel)%nat ->
  read_chunks size fuel f fed = Some (fed ++ f).
Proof.
  intros Hsize. induction fuel as [|fuel IH]; intros f fed Hf; [lia|].
  cbn [read_chunks].
  destruct (firstn size f) as [|b chunk] eqn:E.
  - assert (f = []) as ->.
    { apply (f_equal (@List.length _)) in E. rewrite length_firstn in E.
      destruct f; [reflexivity|]. simpl in E. lia. }
    now rewrite app_nil_r.
  - rewrite IH.
    + rewrite <- app_assoc, <- E. now rewrite firstn_skipn.
    + rewrite length_skipn. destruct f; [now rewrite firstn_nil in E|].
      cbn [List.length] in *. lia.
Qed.

Lemma calculate_file_hash_spec (p : path) (s : state) :
  calculate_file_hash p s =
  match lookup p (files s) with
  | Some (File c _ true) => (Ret (md5_hexdigest c), s)
  | Some (File _ _ false) => (Raise PermissionError, s)
  | Some (Dir _) => (Raise IsADirectoryError, s)
  | None => (Raise FileNotFoundError, s)
  end.
Proof.
  unfold calculate_file_hash, bind, open_rb.
  destruct (lookup p (files s)) as [[c m [|]|m]|]; try reflexivity.
  rewrite (read_chunks_all 4096) by (try apply Nat.lt_0_succ; lia).
  reflexivity.
Qed.

(** The grouping loop computes [group_step] and only prints. *)
Lemma find_body_spec (x : path) (d : dict (list path)) (s : state) :
  exists out,
    find_body d x s
    = (Ret (group_step (files s) d x),
       mk_state (files s) (stdout s ++ out) (clock s)).
Proof.
  unfold find_body, group_step, hash_of.
  destruct (has_image_suffix x).
  - unfold try_except, bind at 1. rewrite calculate_file_hash_spec.
    destruct (lookup x (files s)) as [[c m [|]|m]|].
    + exists []. unfold ret. rewrite app_nil_r. now destruct s.
    + now exists [ErrorHashing x PermissionError].
    + now exists [ErrorHashing x IsADirectoryError].
    + now exists [ErrorHashing x FileNotFoundError].
  - exists []. unfold ret. rewrite app_nil_r. now destruct s.
Qed.

Lemma find_loop_spec (xs : list path) :
  forall d s, exists out,
    for_each xs d find_body s
    = (Ret (fold_left (group_step (files s)) xs d),
       mk_state (files s) (stdout s ++ out) (clock s)).
Proof.
  induction xs as [|x xs IH]; intros d s.
  - exists []. simpl. unfold ret. rewrite app_nil_r. now destruct s.
  - cbn [for_each fold_left]. unfold bind.
    destruct (find_body_spec x d s) as [out1 E1]. rewrite E1.
    destruct (IH (group_step (files s) d x)
                 (mk_state (files s) (stdout s ++ out1) (clock s)))
      as [out2 E2].
    rewrite E2. exists (out1 ++ out2). simpl. now rewrite app_assoc.
Qed.

Lemma find_duplicates_spec (src : path) (s : state) :
  exists out,
    find_duplicates src s
    = (Ret (duplicates_of src (files s)),
       mk_state (files s) (stdout s ++ out) (clock s)).
Proof.
  unfold find_duplicates, duplicates_of. unfold bind at 1.
  rewrite glob_spec. unfold bind at 1.
  destruct (find_loop_spec (glob_list src (files s)) [] s) as [out E].
  exists out.
  change (for_each (glob_list src (files s)) [] find_body s
          = (Ret (fold_left (group_step (files s)) (glob_list src (files s)) []),
             mk_state (files s) (stdout s ++ out) (clock s))) in E.
  rewrite_loop E. reflexivity.
Qed.

(** *** Grouping by digest *)

Lemma dict_get_append {X} (k h : string) (x : X) (d : dict (list X)) :
  dict_get h (dict_append k x d) =
  if String.eqb k h
  then Some (match dict_get k d with Some l => l ++ [x] | None => [x] end)
  else dict_get h d.
Proof.
  induction d as [|[k' l] d IH]; simpl.
  - destruct (String.eqb k h); reflexivity.
  - destruct (String.eqb k' k) eqn:Ek; simpl.
    + apply String.eqb_eq in Ek. subst k'.
      destruct (String.eqb k h); reflexivity.
    + destruct (String.eqb k' h) eqn:Eh.
      * apply String.eqb_eq in Eh. subst k'.
        rewrite String.eqb_sym, Ek. reflexivity.
      * exact IH.
Qed.

Lemma keys_dict_append {X} (k k' : string) (x : X) (d : dict (list X)) :
  In k' (map fst (dict_append k x d)) <-> k' = k \/ In k' (map fst d).
Proof.
  induction d as [|[k0 l] d IH]; simpl.
  - intuition.
  - destruct (String.eqb k0 k) eqn:E; simpl.
    + apply String.eqb_eq in E. subst k0. intuition.
    + rewrite IH. intuition.
Qed.

Lemma NoDup_dict_append {X} (k : string) (x : X) (d : dict (list X)) :
  NoDup (map fst d) -> NoDup (map fst (dict_append k x d)).
Proof.
  induction d as [|[k0 l] d IH]; simpl; intros H.
  - constructor; [tauto|constructor].
  - inversion H as [|? ? Hn Hd]; subst.
    destruct (String.eqb k0 k) eqn:E; simpl.
    + now constructor.
    + constructor; [|now apply IH].
      rewrite keys_dict_append. intros [->|Hin]; [|contradiction].
      now rewrite String.eqb_refl in E.
Qed.

Lemma dict_get_In {X} (h : string) (g : X) (d : dict X) :
  NoDup (map fst d) -> (In (h, g) d <-> dict_get h d = Some g).
Proof.
  induction d as [|[k l] d IH]; simpl; intros H.
  - split; [tauto|discriminate].
  - inversion H as [|? ? Hn Hd]; subst.
    destruct (String.eqb k h) eqn:E.
    + apply String.eqb_eq in E. subst k. split.
      * intros [[= ->]|Hin]; [reflexivity|].
        apply (in_map fst) in Hin. contradiction.
      * intros [= ->]. now left.
    + rewrite <- (IH Hd). split.
      * intros [[= -> ->]|Hin]; [|exact Hin].
        now rewrite String.eqb_refl in E.
      * tauto.
Qed.

Lemma group_fold_keys (t : fs) (xs : list path) :
  forall d, NoDup (map fst d) ->
  NoDup (map fst (fold_left (group_step t) xs d)).
Proof.
  induction xs as [|x xs IH]; intros d H; [exact H|].
  simpl. apply IH. unfold group_step.
  destruct (has_image_suffix x); [|exact H].
  destruct (hash_of t x); [now apply NoDup_dict_append|exact H].
Qed.

Lemma group_fold_get (t : fs) (h : string) (xs : list path) :
  forall d,
  dict_get h (fold_left (group_step t) xs d) =
  match dict_get h d, filter (has_digest t h) (filter has_image_suffix xs) with
  | None, [] => None
  | None, l => Some l
  | Some l0, l => Some (l0 ++ l)
  end.
Proof.
  induction xs as [|x xs IH]; intros d.
  - simpl. destruct (dict_get h d); [now rewrite app_nil_r|reflexivity].
  - cbn [fold_left]. rewrite IH. unfold group_step. cbn [filter].
    destruct (has_image_suffix x); [|reflexivity].
    cbn [filter].
    assert (Hd : has_digest t h x
                 = match hash_of t x with
                   | Some h' => String.eqb h' h
                   | None => false
                   end) by reflexivity.
    rewrite Hd. clear Hd.
    destruct (hash_of t x) as [hx|]; [|reflexivity].
    rewrite dict_get_append.
    destruct (String.eqb hx h) eqn:E.
    + apply String.eqb_eq in E. subst hx.
      destruct (dict_get h d) as [l0|].
      * now rewrite <- app_assoc.
      * reflexivity.
    + destruct (dict_get h d) as [l0|]; reflexivity.
Qed.

(** The groups [find_duplicates] returns: for each digest shared by two or
    more selected files, those files in scan order. *)
Lemma duplicates_of_spec (src : path) (t : fs) (h : string) (g : list path) :
  In (h, g) (duplicates_of src t) <->
  g = filter (has_digest t h) (selected_files src t) /\
  (2 <= List.length g)%nat.
Proof.
  unfold duplicates_of, selected_files. rewrite filter_In. simpl.
  rewrite (dict_get_In h g _ (group_fold_keys t _ [] (NoDup_nil _))).
  rewrite group_fold_get. simpl.
  rewrite Nat.ltb_lt.
  destruct (filter (has_digest t h) (filter has_image_suffix (glob_list src t)))
    as [|p l].
  - split; [intros [[=] _]|]. intros [-> H]. simpl in H. lia.
  - split.
    + intros [[= <-] H]. split; [reflexivity|lia].
    + intros [-> H]. split; [reflexivity|lia].
Qed.

Lemma duplicates_of_keys (src : path) (t : fs) :
  NoDup (map fst (duplicates_of src t)).
Proof.
  unfold duplicates_of.
  pose proof (group_fold_keys t (glob_list src t) [] (NoDup_nil _)) as H.
  induction (fold_left (group_step t) (glob_list src t) []) as [|[k l] d IH];
    simpl; [constructor|].
  inversion H as [|? ? Hn Hd]; subst.
  destruct (1 <? List.length l)%nat; simpl; [|now apply IH].
  constructor; [|now apply IH].
  intros Hin. apply Hn. apply in_map_iff in Hin as [[k' l'] [E Hin]].
  simpl in E. subst k'. apply filter_In in Hin as [Hin _].
  now apply (in_map fst) in Hin.
Qed.

(* ------------------------------------------------------------------ *)
(** ** Sorting by modification time *)

Lemma insert_by_key_perm {X} (x : Z * X) (l : list (Z * X)) :
  Permutation (insert_by_key x l) (x :: l).
Proof.
  induction l as [|y l IH]; simpl; [reflexivity|].
  destruct (fst x <=? fst y)%Z; [reflexivity|].
  rewrite IH. apply perm_swap.
Qed.

Lemma sort_by_key_perm {X} (l : list (Z * X)) :
  Permutation (sort_by_key l) l.
Proof.
  induction l as [|x l IH]; simpl; [reflexivity|].
  rewrite insert_by_key_perm. now constructor.
Qed.

Lemma insert_by_key_sorted {X} (x : Z * X) (l : list (Z * X)) :
  StronglySorted key_le l -> StronglySorted key_le (insert_by_key x l).
Proof.
  induction 1 as [|y l Hs IH Hall]; simpl.
  - constructor; constructor.
  - destruct (fst x <=? fst y)%Z eqn:E.
    + apply Z.leb_le in E. constructor; [now constructor|].
      constructor; [exact E|].
      eapply Forall_impl; [|exact Hall]. unfold key_le. intros a. lia.
    + apply Z.leb_gt in E. constructor; [exact IH|].
      rewrite (insert_by_key_perm x l). constructor; [|exact Hall].
      unfold key_le. lia.
Qed.

Lemma sort_by_key_sorted {X} (l : list (Z * X)) :
  StronglySorted key_le (sort_by_key l).
Proof.
  induction l as [|x l IH]; simpl; [constructor|].
  now apply insert_by_key_sorted.
Qed.

(** The sort is stable: entries with equal keys keep their order. *)
Lemma insert_by_key_filter {X} (k : Z) (x : Z * X) (l : list (Z * X)) :
  StronglySorted key_le l ->
  filter (fun a => (fst a =? k)%Z) (insert_by_key x l)
  = filter (fun a => (fst a =? k)%Z) (x :: l).
Proof.
  induction 1 as [|y l Hs IH Hall]; [reflexivity|]. cbn [insert_by_key].
  destruct (fst x <=? fst y)%Z eqn:E; [reflexivity|].
  apply Z.leb_gt in E. cbn [filter] in *. rewrite IH.
  destruct (fst y =? k)%Z eqn:Ey, (fst x =? k)%Z eqn:Ex; try reflexivity.
  apply Z.eqb_eq in Ey, Ex. lia.
Qed.

Lemma sort_by_key_stable {X} (k : Z) (l : list (Z * X)) :
  filter (fun a => (fst a =? k)%Z) (sort_by_key l)
  = filter (fun a => (fst a =? k)%Z) l.
Proof.
  induction l as [|x l IH]; [reflexivity|]. cbn [sort_by_key fold_right].
  rewrite insert_by_key_filter by apply sort_by_key_sorted.
  cbn [filter]. fold (sort_by_key l). now rewrite IH.
Qed.

Lemma sorted_group_perm (t : fs) (g : list path) :
  Permutation (sorted_group t g) g.
Proof.
  unfold sorted_group. rewrite sort_by_key_perm, map_map. simpl.
  now rewrite map_id.
Qed.

Lemma sorted_group_sorted (t : fs) (g : list path) :
  StronglySorted (fun a b => (mtime_in t a <= mtime_in t b)%Z)
                 (sorted_group t g).
Proof.
  unfold sorted_group.
  assert (F : Forall (fun kf => fst kf = mtime_in t (snd kf))
                     (sort_by_key (map (fun f => (mtime_in t f, f)) g))).
  { rewrite sort_by_key_perm. apply Forall_forall. intros kf H.
    apply in_map_iff in H as (f & <- & _). reflexivity. }
  pose proof (sort_by_key_sorted (map (fun f => (mtime_in t f, f)) g)) as S.
  induction S as [|y l Hs IH Hall]; simpl; constructor.
  - apply IH. now inversion F.
  - inversion F as [|? ? Hy Fl]; subst. rewrite Forall_map.
    rewrite Forall_forall in *. intros a Ha. specialize (Hall a Ha).
    unfold key_le in Hall. now rewrite <- Hy, <- (Fl a Ha).
Qed.

(** The file kept from a sorted group. *)
Lemma doomed_last (l : list path) :
  l <> [] -> l = doomed "last" l ++ [last l []].
Proof. intros H. unfold doomed. simpl. now apply app_removelast_last. Qed.

Lemma doomed_first (keep : string) (l : list path) :
  keep <> "last" -> l <> [] -> l = hd [] l :: doomed keep l.
Proof.
  intros Hk H. unfold doomed. apply String.eqb_neq in Hk. rewrite Hk.
  destruct l; [contradiction|reflexivity].
Qed.

Lemma sorted_last_max (t : fs) (l : list path) (kept : path) :
  StronglySorted (fun a b => (mtime_in t a <= mtime_in t b)%Z)
                 (l ++ [kept]) ->
  forall f, In f (l ++ [kept]) -> (mtime_in t f <= mtime_in t kept)%Z.
Proof.
  induction l as [|x l IH]; simpl; intros S f Hf.
  - destruct Hf as [<-|[]]. lia.
  - inversion S as [|? ? S' Hall]; subst. destruct Hf as [<-|Hf].
    + rewrite Forall_forall in Hall. apply Hall. apply in_or_app. right.
      now left.
    + now apply IH.
Qed.

Lemma sorted_first_min (t : fs) (l : list path) (kept : path) :
  StronglySorted (fun a b => (mtime_in t a <= mtime_in t b)%Z)
                 (kept :: l) ->
  forall f, In f (kept :: l) -> (mtime_in t kept <= mtime_in t f)%Z.
Proof.
  intros S f [<-|Hf]; [lia|]. inversion S as [|? ? S' Hall]; subst.
  rewrite Forall_forall in Hall. now apply Hall.
Qed.

(* ------------------------------------------------------------------ *)
(** ** The duplicate remover *)

Lemma lookup_remove_all (p : path) (ps : list path) :
  forall t, lookup p (remove_all ps t)
            = if in_dec (list_eq_dec string_dec) p ps then None
              else lookup p t.
Proof.
  unfold remove_all. induction ps as [|q ps IH]; intros t; [reflexivity|].
  cbn [fold_left]. rewrite IH, lookup_remove.
  destruct (in_dec (list_eq_dec string_dec) p ps) as [Hin|Hn];
    destruct (in_dec (list_eq_dec string_dec) p (q :: ps)) as [Hin'|Hn'];
    try reflexivity.
  - exfalso. apply Hn'. now right.
  - destruct Hin' as [->|Hin']; [|contradiction]. now rewrite path_eqb_refl.
  - destruct (path_eqb q p) eqn:E; [|reflexivity].
    apply path_eqb_eq in E. subst q. exfalso. apply Hn'. now left.
Qed.

Lemma lookup_remove_all_out (p : path) (ps : list path) (t : fs) :
  ~ In p ps -> lookup p (remove_all ps t) = lookup p t.
Proof.
  intros H. rewrite lookup_remove_all.
  now destruct (in_dec (list_eq_dec string_dec) p ps).
Qed.

Lemma lookup_remove_all_in (p : path) (ps : list path) (t : fs) :
  In p ps -> lookup p (remove_all ps t) = None.
Proof.
  intros H. rewrite lookup_remove_all.
  now destruct (in_dec (list_eq_dec string_dec) p ps).
Qed.

Lemma remove_all_app (ps qs : list path) (t : fs) :
  remove_all (ps ++ qs) t = remove_all qs (remove_all ps t).
Proof. unfold remove_all. apply fold_left_app. Qed.

Lemma unlink_loop (ps : list path) :
  forall removed s,
  NoDup ps -> Forall (is_file_in (files s)) ps ->
  for_each ps removed
    (fun removed file => unlink file ;; ret (removed ++ [name file])) s
  = (Ret (removed ++ map name ps), set_files s (remove_all ps (files s))).
Proof.
  induction ps as [|p ps IH]; intros removed s Hnd F.
  - simpl. unfold ret, set_files. rewrite app_nil_r. now destruct s.
  - inversion Hnd as [|? ? Hp Hnd']; subst.
    inversion F as [|? ? (c & m & r & Hf) F']; subst.
    cbn [for_each]. unfold bind at 1. unfold bind at 1. unfold unlink at 1.
    rewrite Hf. unfold ret at 1. rewrite IH.
    + simpl. now rewrite <- app_assoc.
    + exact Hnd'.
    + simpl. rewrite Forall_forall in *. intros q Hq.
      destruct (F' q Hq) as (c' & m' & r' & Hq').
      exists c', m', r'. rewrite lookup_remove.
      destruct (path_eqb p q) eqn:E; [|exact Hq'].
      apply path_eqb_eq in E. subst q. contradiction.
Qed.

Lemma sort_by_mtime_spec (g : list path) (s : state) :
  Forall (is_file_in (files s)) g ->
  sort_by_mtime g s = (Ret (sorted_group (files s) g), s).
Proof.
  intros F. unfold sort_by_mtime, sorted_group.
  assert (L : forall keyed,
            for_each g keyed
              (fun keyed f => m <- getmtime f ;; ret (keyed ++ [(m, f)])) s
            = (Ret (keyed ++ map (fun f => (mtime_in (files s) f, f)) g), s)).
  { induction F as [|f g (c & m & r & Hf) F IH]; intros keyed.
    - simpl. now rewrite app_nil_r.
    - cbn [for_each]. unfold bind at 1. unfold bind at 1.
      unfold getmtime at 1. rewrite Hf. unfold ret at 1. rewrite IH.
      simpl. unfold mtime_in. rewrite Hf. simpl. now rewrite <- app_assoc. }
  unfold bind. rewrite_loop (L []). reflexivity.
Qed.

Lemma NoDup_app_disjoint {X} (l l' : list X) (x : X) :
  NoDup (l ++ l') -> In x l -> In x l' -> False.
Proof.
  induction l as [|y l IH]; simpl; intros H Hl Hl'; [contradiction|].
  inversion H as [|? ? Hy Hn]; subst. destruct Hl as [->|Hl].
  - apply Hy. apply in_or_app. now right.
  - now apply IH.
Qed.

Lemma NoDup_app_intro {X} (l l' : list X) :
  NoDup l -> NoDup l' -> (forall x, In x l -> In x l' -> False) ->
  NoDup (l ++ l').
Proof.
  induction l as [|y l IH]; simpl; intros H H' D; [exact H'|].
  inversion H as [|? ? Hy Hn]; subst. constructor.
  - rewrite in_app_iff. intros [Hin|Hin]; [contradiction|].
    apply (D y); [now left|exact Hin].
  - apply IH; auto. intros x Hx. apply D. now right.
Qed.

Lemma NoDup_removelast {X} (l : list X) : NoDup l -> NoDup (removelast l).
Proof.
  intros H. destruct l as [|x l]; [exact H|].
  rewrite (app_removelast_last x) in H by discriminate.
  now apply NoDup_remove_1 in H; rewrite app_nil_r in H.
Qed.

Lemma In_removelast {X} (l : list X) (x : X) :
  In x (removelast l) -> In x l.
Proof.
  intros H. destruct l as [|y l]; [exact H|].
  rewrite (app_removelast_last y) by discriminate. apply in_or_app. now left.
Qed.

Lemma doomed_incl (keep : string) (l : list path) (p : path) :
  In p (doomed keep l) -> In p l.
Proof.
  unfold doomed. destruct (String.eqb keep "last").
  - apply In_removelast.
  - destruct l; [tauto|]. simpl. tauto.
Qed.

Lemma doomed_NoDup (keep : string) (l : list path) :
  NoDup l -> NoDup (doomed keep l).
Proof.
  unfold doomed. destruct (String.eqb keep "last").
  - apply NoDup_removelast.
  - intros H. destruct l; [exact H|]. now inversion H.
Qed.

Lemma sorted_group_ext (t t' : fs) (g : list path) :
  (forall f, In f g -> lookup f t' = lookup f t) ->
  sorted_group t' g = sorted_group t g.
Proof.
  intros H. unfold sorted_group. do 2 f_equal. apply map_ext_in.
  intros f Hf. unfold mtime_in. now rewrite H.
Qed.

Lemma victims_ext (keep : string) (t t' : fs) (dups : dict (list path)) :
  (forall f, In f (flat_map snd dups) -> lookup f t' = lookup f t) ->
  victims keep t' dups = victims keep t dups.
Proof.
  intros H. unfold victims. induction dups as [|[h g] dups IH];
    [reflexivity|].
  simpl in *. rewrite IH, (sorted_group_ext t t' g); auto.
  - intros f Hf. apply H. apply in_or_app. now left.
  - intros f Hf. apply H. apply in_or_app. now right.
Qed.

Lemma victims_incl (keep : string) (t : fs) (dups : dict (list path))
    (p : path) :
  In p (victims keep t dups) -> In p (flat_map snd dups).
Proof.
  unfold victims. rewrite !in_flat_map. intros ([h g] & Hin & Hp).
  exists (h, g). split; [exact Hin|]. apply doomed_incl in Hp.
  now apply (Permutation_in _ (sorted_group_perm t g)) in Hp.
Qed.

(** The loop over the groups deletes exactly the victims. *)
Lemma remove_loop (keep : string) (dups : dict (list path)) :
  forall removed s,
  NoDup (flat_map snd dups) ->
  Forall (is_file_in (files s)) (flat_map snd dups) ->
  for_each dups removed (remove_body keep) s
  = (Ret (removed ++ map name (victims keep (files s) dups)),
     set_files s (remove_all (victims keep (files s) dups) (files s))).
Proof.
  induction dups as [|[h g] dups IH]; intros removed s Hnd F.
  - simpl. unfold ret, set_files. rewrite app_nil_r. now destruct s.
  - cbn [flat_map snd] in Hnd, F.
    apply Forall_app in F as [Fg Fd].
    pose proof (NoDup_app_remove_r _ _ Hnd) as Ng.
    pose proof (NoDup_app_remove_l _ _ Hnd) as Nd.
    cbn [for_each]. unfold bind at 1. unfold remove_body at 1.
    unfold bind at 1. cbn [snd]. rewrite (sort_by_mtime_spec g s Fg).
    fold (doomed keep (sorted_group (files s) g)).
    set (ds := doomed keep (sorted_group (files s) g)).
    assert (Nds : NoDup ds).
    { apply doomed_NoDup.
      apply (Permutation_NoDup (Permutation_sym (sorted_group_perm _ g)) Ng). }
    assert (Ids : forall p, In p ds -> In p g).
    { intros p Hp. apply doomed_incl in Hp.
      now apply (Permutation_in _ (sorted_group_perm (files s) g)) in Hp. }
    assert (Fds : Forall (is_file_in (files s)) ds).
    { rewrite Forall_forall in *. auto. }
    rewrite (unlink_loop ds removed s Nds Fds).
    assert (Keep : forall f, In f (flat_map snd dups) ->
              lookup f (remove_all ds (files s)) = lookup f (files s)).
    { intros f Hf. apply lookup_remove_all_out. intros Hin.
      apply Ids in Hin. exact (NoDup_app_disjoint _ _ f Hnd Hin Hf). }
    rewrite IH.
    + cbn [files set_files]. rewrite (victims_ext keep _ _ dups Keep).
      unfold victims at 3 4. cbn [flat_map snd]. fold (victims keep (files s) dups).
      fold ds. rewrite map_app, app_assoc, remove_all_app. reflexivity.
    + exact Nd.
    + cbn [files set_files]. rewrite Forall_forall in *. intros f Hf.
      destruct (Fd f Hf) as (c & m & r & E). exists c, m, r.
      now rewrite Keep.
Qed.

Lemma scandir_NoDup (src : path) (t : fs) :
  NoDup (map fst t) -> NoDup (scandir src t).
Proof.
  induction t as [|[p n] t IH]; simpl; intros H; [constructor|].
  inversion H as [|? ? Hp Hn]; subst. unfold scandir in *. simpl.
  destruct (child_name src p) as [nm|] eqn:E; simpl; [|now apply IH].
  constructor; [|now apply IH].
  apply child_name_Some in E. subst p. intros Hin.
  apply (In_scandir src nm t) in Hin. contradiction.
Qed.

Lemma glob_list_NoDup (src : path) (t : fs) :
  NoDup (map fst t) -> NoDup (glob_list src t).
Proof.
  intros H. unfold glob_list.
  destruct (lookup src t) as [[c m r|m]|]; try constructor.
  apply Finite.Injective_map_NoDup.
  - intros a b E. now apply child_inj in E.
  - apply NoDup_filter. now apply scandir_NoDup.
Qed.

Lemma selected_files_NoDup (src : path) (t : fs) :
  NoDup (map fst t) -> NoDup (selected_files src t).
Proof. intros H. apply NoDup_filter. now apply glob_list_NoDup. Qed.

Lemma has_digest_hash (t : fs) (h : string) (p : path) :
  has_digest t h p = true <-> hash_of t p = Some h.
Proof.
  unfold has_digest. destruct (hash_of t p) as [h'|].
  - rewrite String.eqb_eq. split; congruence.
  - split; discriminate.
Qed.

Lemma dups_members (src : path) (t : fs) (h : string) (g : list path)
    (p : path) :
  In (h, g) (duplicates_of src t) -> In p g ->
  In p (selected_files src t) /\ hash_of t p = Some h.
Proof.
  intros Hg Hp. apply duplicates_of_spec in Hg as [-> _].
  apply filter_In in Hp as [Hs Hd]. split; [exact Hs|].
  now apply has_digest_hash.
Qed.

Lemma hash_is_file (t : fs) (h : string) (p : path) :
  hash_of t p = Some h -> is_file_in t p.
Proof.
  unfold hash_of, is_file_in.
  destruct (lookup p t) as [[c m [|]|m]|]; try discriminate.
  intros _. now exists c, m, true.
Qed.

Lemma dups_files (src : path) (t : fs) :
  Forall (is_file_in t) (flat_map snd (duplicates_of src t)).
Proof.
  apply Forall_forall. intros p Hp. apply in_flat_map in Hp as ([h g] & Hg & Hp).
  destruct (dups_members src t h g p Hg Hp) as [_ Hh].
  now apply (hash_is_file t h).
Qed.

Lemma flat_groups_NoDup (t : fs) (d : dict (list path)) :
  NoDup (map fst d) ->
  (forall h g, In (h, g) d ->
     NoDup g /\ forall p, In p g -> hash_of t p = Some h) ->
  NoDup (flat_map snd d).
Proof.
  induction d as [|[h g] d IH]; simpl; intros Hk Hg; [constructor|].
  inversion Hk as [|? ? Hh Hk']; subst.
  destruct (Hg h g (or_introl eq_refl)) as [Ng Hgh].
  apply NoDup_app_intro; [exact Ng|apply IH; auto|].
  intros p Hp Hp'. apply in_flat_map in Hp' as ([h' g'] & Hin & Hp').
  destruct (Hg h' g' (or_intror Hin)) as [_ Hgh'].
  specialize (Hgh' p Hp'). rewrite (Hgh p Hp) in Hgh'. injection Hgh' as ->.
  apply Hh. now apply (in_map fst) in Hin.
Qed.

Lemma dups_NoDup (src : path) (t : fs) :
  NoDup (map fst t) -> NoDup (flat_map snd (duplicates_of src t)).
Proof.
  intros H. apply (flat_groups_NoDup t); [apply duplicates_of_keys|].
  intros h g Hg. split.
  - apply duplicates_of_spec in Hg as [-> _].
    apply NoDup_filter. now apply selected_files_NoDup.
  - intros p Hp. now destruct (dups_members src t h g p Hg Hp).
Qed.

(** [remove_duplicates] deletes the victims of the groups found and
    returns their names. *)
Lemma remove_duplicates_spec (src : path) (keep : string) (s : state) :
  nodup_keys (files s) = true ->
  exists out,
    find_duplicates src s
    = (Ret (duplicates_of src (files s)),
       mk_state (files s) (stdout s ++ out) (clock s)) /\
    remove_duplicates src keep s
    = (Ret (map name (victims keep (files s) (duplicates_of src (files s)))),
       mk_state
         (remove_all (victims keep (files s) (duplicates_of src (files s)))
                     (files s))
         (stdout s ++ out) (clock s)).
Proof.
  intros Hnd. apply nodup_keys_NoDup in Hnd.
  destruct (find_duplicates_spec src s) as [out E]. exists out.
  split; [exact E|].
  unfold remove_duplicates, bind. rewrite E.
  pose proof (remove_loop keep (duplicates_of src (files s)) []
                (mk_state (files s) (stdout s ++ out) (clock s))
                (dups_NoDup src (files s) Hnd) (dups_files src (files s))) as L.
  unfold remove_body in L. rewrite_loop L. reflexivity.
Qed.

Lemma groups_share (d : dict (list path)) (e1 e2 : string * list path)
    (p : path) :
  NoDup (flat_map snd d) -> In e1 d -> In e2 d ->
  In p (snd e1) -> In p (snd e2) -> e1 = e2.
Proof.
  induction d as [|e d IH]; simpl; intros H H1 H2 P1 P2; [contradiction|].
  destruct H1 as [<-|H1], H2 as [<-|H2].
  - reflexivity.
  - exfalso. apply (NoDup_app_disjoint _ _ p H P1).
    apply in_flat_map. now exists e2.
  - exfalso. apply (NoDup_app_disjoint _ _ p H P2).
    apply in_flat_map. now exists e1.
  - apply IH; auto. now apply NoDup_app_remove_l in H.
Qed.

(** A file of a group that is not among the doomed of its group is no
    victim at all. *)
Lemma kept_not_victim (keep : string) (t : fs) (dups : dict (list path))
    (h : string) (g : list path) (p : path) :
  NoDup (flat_map snd dups) -> In (h, g) dups -> In p g ->
  ~ In p (doomed keep (sorted_group t g)) ->
  ~ In p (victims keep t dups).
Proof.
  intros Hnd Hg Hp Hk Hv. unfold victims in Hv.
  apply in_flat_map in Hv as ([h' g'] & Hg' & Hp'). simpl in Hp'.
  assert (Hpg' : In p g').
  { apply doomed_incl in Hp'.
    now apply (Permutation_in _ (sorted_group_perm t g')) in Hp'. }
  pose proof (groups_share dups (h, g) (h', g') p Hnd Hg Hg' Hp Hpg') as E.
  injection E as <- <-. contradiction.
Qed.

(* ------------------------------------------------------------------ *)
(** ** The organizers only add *)

Lemma additive_ret {A} (a : A) : additive (ret a).
Proof. intros s o s' H. injection H as _ <-. apply extends_refl. Qed.

Lemma additive_raise {A} (e : exn) : additive (@raise A e).
Proof. intros s o s' H. injection H as _ <-. apply extends_refl. Qed.

Lemma additive_same {A} (c : M A) :
  (forall s, files (snd (c s)) = files s) -> additive c.
Proof.
  intros H s o s' E p n Hp. pose proof (H s) as K. rewrite E in K.
  cbn [snd] in K. now rewrite K.
Qed.

Lemma additive_bind {A B} (c : M A) (k : A -> M B) :
  additive c -> (forall a, additive (k a)) -> additive (bind c k).
Proof.
  intros Hc Hk s o s' H. unfold bind in H.
  destruct (c s) as [[a|e|] s1] eqn:E.
  - exact (extends_trans _ _ _ (Hc _ _ _ E) (Hk a _ _ _ H)).
  - injection H as _ <-. exact (Hc _ _ _ E).
  - injection H as _ <-. exact (Hc _ _ _ E).
Qed.

Lemma additive_try_except {A} (c : M A) (h : exn -> M A) :
  additive c -> (forall e, additive (h e)) -> additive (try_except c h).
Proof.
  intros Hc Hh s o s' H. unfold try_except in H.
  destruct (c s) as [[a|e|] s1] eqn:E.
  - injection H as _ <-. exact (Hc _ _ _ E).
  - exact (extends_trans _ _ _ (Hc _ _ _ E) (Hh e _ _ _ H)).
  - injection H as _ <-. exact (Hc _ _ _ E).
Qed.

Lemma additive_os_mkdir (p : path) : additive (os_mkdir p).
Proof.
  intros s o s' H. unfold os_mkdir in H.
  destruct (lookup p (files s));
    [injection H as _ <-; apply extends_refl|].
  destruct (lookup (parent p) (files s)) as [[? ? ?|?]|];
    injection H as _ <-; try apply extends_refl. apply extends_app.
Qed.

Lemma additive_mkdir (p : path) : additive (mkdir p).
Proof.
  unfold mkdir. apply additive_try_except; [apply additive_os_mkdir|].
  intros e.
  assert (Q : additive (d <- is_dir p ;;
                        if d then ret tt else raise e)%monad).
  { apply additive_bind; [apply additive_same; reflexivity|].
    intros [|]; [apply additive_ret|apply additive_raise]. }
  destruct e; try exact Q. apply additive_raise.
Qed.

Lemma additive_mkdir_parents (p : path) : additive (mkdir_parents p).
Proof.
  unfold mkdir_parents. induction (rev p) as [|c r IH];
    cbn [mkdir_parents_rev]; apply additive_try_except;
    try apply additive_os_mkdir; intros e.
  - assert (Q : additive (d <- is_dir (rev []) ;;
                          if d then ret tt else raise e)%monad).
    { apply additive_bind; [apply additive_same; reflexivity|].
      intros [|]; [apply additive_ret|apply additive_raise]. }
    destruct e; try exact Q. apply additive_raise.
  - assert (Q : additive (d <- is_dir (rev (c :: r)) ;;
                          if d then ret tt else raise e)%monad).
    { apply additive_bind; [apply additive_same; reflexivity|].
      intros [|]; [apply additive_ret|apply additive_raise]. }
    destruct e; try exact Q.
    apply additive_bind; [exact IH|]. intros ?. apply additive_mkdir.
Qed.

Lemma additive_for_each {A B} (body : B -> A -> M B) (xs : list A) :
  (forall acc x, additive (body acc x)) ->
  forall acc, additive (for_each xs acc body).
Proof.
  intros Hb. induction xs as [|x xs IH]; intros acc; cbn [for_each].
  - apply additive_ret.
  - apply additive_bind; [apply Hb|]. intros acc'. apply IH.
Qed.

(** [copy2] to a name that is free changes nothing or adds an entry. *)
Lemma copy2_free (img tf : path) (s : state) :
  lookup tf (files s) = None ->
  exists o1,
    copy2 img tf s = (o1, s) \/
    exists a, copy2 img tf s = (o1, set_files s (files s ++ a)).
Proof.
  intros Hf. unfold copy2. rewrite Hf. cbv zeta. rewrite Hf.
  destruct (path_eqb img tf).
  - destruct (lookup img (files s)); eexists; left; reflexivity.
  - destruct (lookup img (files s)) as [[c m [|]|m]|];
      try (eexists; left; reflexivity).
    destruct (lookup (parent tf) (files s)) as [[? ? ?|?]|];
      try (eexists; left; reflexivity).
    eexists. right. eexists. reflexivity.
Qed.

(** The copy goes to a name that is free. *)
Lemma additive_place (source_path dir : path) (plain : string)
    (numbered : nat -> string) (img : path) (key : string)
    (organized : dict (list (string * string))) :
  additive (place source_path dir plain numbered img key organized).
Proof.
  intros s o s' H. unfold place in H. unfold bind at 1 in H.
  unfold entries at 1 in H. cbv beta iota in H. unfold bind at 1 in H.
  destruct (while_exists_spec (List.length (files s))
              (fun counter => dir // numbered counter) (dir // plain) 1 s)
    as [(i & _ & Hr & Hf & _)|(Hr & _)]; rewrite Hr in H.
  - set (tf := attempt (dir // plain)
                 (fun counter => dir // numbered counter) 1 i) in *.
    unfold bind at 1 in H.
    destruct (copy2_free img tf s Hf) as (o1 & [Ec|(a & Ec)]);
      rewrite Ec in H.
    + assert (s' = s) as ->; [|apply extends_refl].
      destruct o1 as [[]|e|]; [|now injection H as _ <-
                                |now injection H as _ <-].
      unfold bind, relative_to_or_raise in H.
      destruct (relative_to tf source_path); now injection H as _ <-.
    + assert (s' = set_files s (files s ++ a)) as ->; [|apply extends_app].
      destruct o1 as [[]|e|]; [|now injection H as _ <-
                                |now injection H as _ <-].
      unfold bind, relative_to_or_raise in H.
      destruct (relative_to tf source_path); now injection H as _ <-.
  - now injection H as _ <-.
Qed.

Lemma additive_organize_by_date_file (src target img : path)
    (organized : dict (list (string * string))) :
  additive (organize_by_date_file src target img organized).
Proof.
  unfold organize_by_date_file. apply additive_bind.
  - apply additive_same. intros s. rewrite get_image_date_spec.
    now destruct (lookup img (files s)).
  - intros d. apply additive_bind; [apply additive_mkdir_parents|].
    intros ?. apply additive_place.
Qed.

Lemma additive_organize_by_size_file (src : path) (categories : dict path)
    (img : path) (organized : dict (list (string * string))) :
  additive (organize_by_size_file src categories img organized).
Proof.
  unfold organize_by_size_file. apply additive_bind.
  - apply additive_same. intros s. now rewrite get_image_size_spec.
  - intros wh. apply additive_bind.
    + unfold lookup_category.
      destruct (dict_get _ categories);
        [apply additive_ret|apply additive_raise].
    + intros cat_dir.
      exact (additive_place src cat_dir (name img)
               (fun counter => (stem img ++ "_" ++ Str.of_nat counter
                                ++ suffix img)%string)
               img _ organized).
Qed.

Lemma additive_guarded
    (step : dict (list (string * string)) -> path
            -> M (dict (list (string * string)))) :
  (forall o x, additive (step o x)) ->
  forall o x, additive (guarded step o x).
Proof.
  intros H o x. unfold guarded. destruct (has_image_suffix x).
  - apply additive_try_except; [apply H|]. intros e.
    apply additive_bind; [apply additive_same; reflexivity|].
    intros ?. apply additive_ret.
  - apply additive_ret.
Qed.

(** Whatever the target folder is, a run of an organizer changes no
    binding. *)
Lemma additive_organize_by_date (src : path) (tn : string) :
  additive (organize_by_date src tn).
Proof.
  unfold organize_by_date. cbv zeta.
  apply additive_bind; [apply additive_mkdir|]. intros ?.
  apply additive_bind.
  - apply additive_same. intros s. now rewrite glob_spec.
  - intros imgs.
    exact (additive_for_each _ imgs
             (additive_guarded
                (fun organized img =>
                   organize_by_date_file src (joinpath src tn) img organized)
                (fun o x => additive_organize_by_date_file src _ x o)) []).
Qed.

Lemma additive_organize_by_size (src : path) (tn : string) :
  additive (organize_by_size src tn).
Proof.
  unfold organize_by_size. cbv zeta.
  apply additive_bind; [apply additive_mkdir|]. intros ?.
  apply additive_bind.
  - apply additive_for_each. intros ? cat. apply additive_mkdir.
  - intros ?. apply additive_bind.
    + apply additive_same. intros s. now rewrite glob_spec.
    + intros imgs.
      exact (additive_for_each _ imgs
               (additive_guarded
                  (fun organized img =>
                     organize_by_size_file src
                       [("small"%string, joinpath src tn // "small");
                        ("medium"%string, joinpath src tn // "medium");
                        ("large"%string, joinpath src tn // "large")]
                       img organized)
                  (fun o x => additive_organize_by_size_file src _ x o)) []).
Qed.

(* ------------------------------------------------------------------ *)
(** ** The statements of the specification *)

(** C4.  For all non-negative widths and heights the classifier returns
    ['small'] below 500000 pixels, ['medium'] from 500000 up to but not
    2000000, and ['large'] from 2000000 on; exactly 500000 pixels is
    ['medium'] and exactly 2000000 is ['large']. *)
Theorem categorize_by_size_thresholds (width height : Z) :
  (0 <= width)%Z -> (0 <= height)%Z ->
  ((width * height < 500000)%Z ->
   categorize_by_size width height = "small") /\
  ((500000 <= width * height < 2000000)%Z ->
   categorize_by_size width height = "medium") /\
  ((2000000 <= width * height)%Z ->
   categorize_by_size width height = "large") /\
  ((width * height = 500000)%Z ->
   categorize_by_size width height = "medium") /\
  ((width * height = 2000000)%Z ->
   categorize_by_size width height = "large").
Proof.
  intros _ _. unfold categorize_by_size.
  destruct (width * height <? 500000)%Z eqn:E1;
    destruct (width * height <? 2000000)%Z eqn:E2;
    try apply Z.ltb_lt in E1; try apply Z.ltb_ge in E1;
    try apply Z.ltb_lt in E2; try apply Z.ltb_ge in E2;
    repeat split; intros; try reflexivity; lia.
Qed.

Lemma find_date_missing (items : list (Z * exif_value)) :
  (forall tag value, In (tag, value) items -> tag <> 36867%Z) ->
  find_date items = None.
Proof.
  induction items as [|[tag value] items IH]; intros H; [reflexivity|].
  simpl. destruct (tag =? 36867)%Z eqn:E.
  - apply Z.eqb_eq in E. exfalso. apply (H tag value); [now left|exact E].
  - apply IH. intros t v Hin. apply (H t v). now right.
Qed.

Lemma find_date_first (pre rest : list (Z * exif_value))
    (value : exif_value) :
  (forall tag v, In (tag, v) pre -> tag <> 36867%Z) ->
  find_date (pre ++ (36867%Z, value) :: rest) =
  match value with
  | ExifStr text => Strptime.strptime text
  | ExifOther => None
  end.
Proof.
  induction pre as [|[tag v] pre IH]; intros H; [reflexivity|].
  simpl. destruct (tag =? 36867)%Z eqn:E.
  - apply Z.eqb_eq in E. exfalso. apply (H tag v); [now left|exact E].
  - apply IH. intros t w Hin. apply (H t w). now right.
Qed.

(** C3, amended.  For every path that names an entry of the file system
    the date extractor changes nothing, and what it returns is the capture
    date of the metadata when that can be read, and on every failure, an
    entry that cannot be opened, bytes Pillow does not decode, a format
    whose [_getexif] raises, no metadata, no item tagged 36867, a value
    that is no text or that does not match the pattern, what
    [datetime.fromtimestamp] makes of the modification time: its date, or
    the error it raises, since the fallback is outside the [try].  When
    the modification time can be converted the extractor returns a
    date. *)
Theorem get_image_date_falls_back (p : path) (s : state) (n : node) :
  lookup p (files s) = Some n ->
  get_image_date p s
  = (match date_of n with inr d => Ret d | inl e => Raise e end, s) /\
  (readable_file (Some n) = false ->
   date_of n = fromtimestamp (mtime_of n)) /\
  (forall c m, n = File c m true ->
     (Image_decode c = None -> date_of n = fromtimestamp m) /\
     (forall img, Image_decode c = Some img ->
        (forall e, getexif img = GetexifRaises e ->
                   date_of n = fromtimestamp m) /\
        (getexif img = GetexifReturns None ->
         date_of n = fromtimestamp m) /\
        (forall items, getexif img = GetexifReturns (Some items) ->
           ((forall tag value, In (tag, value) items -> tag <> 36867%Z) ->
            date_of n = fromtimestamp m) /\
           (forall pre rest value,
              items = pre ++ (36867%Z, value) :: rest ->
              (forall tag v, In (tag, v) pre -> tag <> 36867%Z) ->
              (value = ExifOther -> date_of n = fromtimestamp m) /\
              (forall text, value = ExifStr text ->
                 date_of n =
                 match Strptime.strptime text with
                 | Some d => inr d
                 | None => fromtimestamp m
                 end))))) /\
  (forall d, fromtimestamp (mtime_of n) = inr d ->
     exists d', get_image_date p s = (Ret d', s)).
Proof.
  intros Hn.
  assert (E : get_image_date p s
              = (match date_of n with inr d => Ret d | inl e => Raise e end,
                 s)) by now rewrite get_image_date_spec, Hn.
  split; [exact E|]. split; [|split].
  - unfold date_of, metadata_date.
    destruct n as [c m [|]|m]; [discriminate|reflexivity|reflexivity].
  - intros c m ->. unfold date_of, metadata_date, exif_date. simpl.
    split; [now intros ->|]. intros img ->. split; [now intros e ->|].
    split; [now intros ->|]. intros items ->. split.
    + intros H. now rewrite find_date_missing.
    + intros pre rest value -> H. rewrite find_date_first by exact H.
      split; [now intros ->|]. intros text ->.
      now destruct (Strptime.strptime text).
  - intros d Hd. rewrite E. unfold date_of.
    destruct (metadata_date n) as [d0|]; [now exists d0|].
    rewrite Hd. now exists d.
Qed.



Lemma sorted_group_length (t : fs) (g : list path) :
  List.length (sorted_group t g) = List.length g.
Proof. apply Permutation_length, sorted_group_perm. Qed.

Lemma kept_not_doomed (keep : string) (l : list path) :
  NoDup l -> l <> [] ->
  In (kept_of keep l) l /\ ~ In (kept_of keep l) (doomed keep l).
Proof.
  intros Hnd Hne. unfold kept_of, doomed.
  destruct (String.eqb keep "last").
  - rewrite (app_removelast_last [] Hne) in Hnd at 1.
    split.
    + rewrite (app_removelast_last [] Hne) at 2. apply in_or_app. right.
      now left.
    + intros Hin. apply (NoDup_app_disjoint _ _ (last l []) Hnd Hin).
      now left.
  - destruct l as [|x l]; [contradiction|]. simpl. split; [now left|].
    now inversion Hnd.
Qed.

Lemma map_flat_map {X Y Z0} (f : Y -> Z0) (g : X -> list Y) (l : list X) :
  map f (flat_map g l) = flat_map (fun x => map f (g x)) l.
Proof.
  induction l as [|x l IH]; simpl; [reflexivity|].
  now rewrite map_app, IH.
Qed.

Lemma group_NoDup (src : path) (t : fs) (h : string) (g : list path) :
  NoDup (map fst t) -> In (h, g) (duplicates_of src t) -> NoDup g.
Proof.
  intros H Hg. apply duplicates_of_spec in Hg as [-> _].
  apply NoDup_filter. now apply selected_files_NoDup.
Qed.

(** What [remove_duplicates] leaves of each group. *)
Lemma remove_duplicates_groups (src : path) (keep : string) (s : state)
    (h : string) (g : list path) :
  nodup_keys (files s) = true ->
  In (h, g) (duplicates_of src (files s)) ->
  let l := sorted_group (files s) g in
  let s' := snd (remove_duplicates src keep s) in
  In (kept_of keep l) g /\
  ~ In (kept_of keep l) (doomed keep l) /\
  lookup (kept_of keep l) (files s') = lookup (kept_of keep l) (files s) /\
  is_file_in (files s') (kept_of keep l) /\
  (forall p, In p (doomed keep l) -> lookup p (files s') = None).
Proof.
  intros Hnk Hg l s'.
  destruct (remove_duplicates_spec src keep s Hnk) as (out & _ & E).
  subst s'. rewrite E. cbn [snd files].
  apply nodup_keys_NoDup in Hnk.
  pose proof (group_NoDup src (files s) h g Hnk Hg) as Ng.
  assert (Nl : NoDup l).
  { apply (Permutation_NoDup (Permutation_sym (sorted_group_perm _ g)) Ng). }
  assert (Hne : l <> []).
  { apply duplicates_of_spec in Hg as [_ Hlen]. intros E0.
    apply (f_equal (@List.length _)) in E0. unfold l in E0.
    rewrite sorted_group_length in E0. simpl in E0. lia. }
  destruct (kept_not_doomed keep l Nl Hne) as [Hin Hout].
  assert (Hing : In (kept_of keep l) g).
  { now apply (Permutation_in _ (sorted_group_perm (files s) g)). }
  assert (Hnv : ~ In (kept_of keep l)
                  (victims keep (files s) (duplicates_of src (files s)))).
  { apply (kept_not_victim keep (files s) _ h g); auto.
    now apply dups_NoDup. }
  split; [exact Hing|]. split; [exact Hout|].
  split; [now apply lookup_remove_all_out|]. split.
  - destruct (dups_members src (files s) h g _ Hg Hing) as [_ Hh].
    destruct (hash_is_file _ _ _ Hh) as (c & m & r & Hf).
    exists c, m, r. now rewrite lookup_remove_all_out.
  - intros p Hp. apply lookup_remove_all_in. unfold victims.
    apply in_flat_map. now exists (h, g).
Qed.

(** C1.  For every duplicate group the remover sorts the paths by
    modification time, oldest first; with [keep = 'last'] it deletes every
    file but the last, most recently modified one, otherwise every file but
    the first, oldest one; it returns the names of the deleted files, group
    after group. *)
Theorem remove_duplicates_keeps_one (src : path) (keep : string)
    (s : state) (dups : dict (list path)) (s1 : state) :
  nodup_keys (files s) = true ->
  find_duplicates src s = (Ret dups, s1) ->
  (exists s',
     remove_duplicates src keep s
     = (Ret (flat_map
               (fun hf => map name (doomed keep
                                      (sorted_group (files s) (snd hf))))
               dups), s') /\
     forall h g, In (h, g) dups ->
       let l := sorted_group (files s) g in
       (forall p, In p (doomed keep l) -> lookup p (files s') = None) /\
       is_file_in (files s') (kept_of keep l)) /\
  (forall h g, In (h, g) dups ->
     let l := sorted_group (files s) g in
     Permutation l g /\
     StronglySorted
       (fun a b => (mtime_in (files s) a <= mtime_in (files s) b)%Z) l /\
     (keep = "last" ->
      l = doomed keep l ++ [kept_of keep l] /\
      forall f, In f g ->
        (mtime_in (files s) f <= mtime_in (files s) (kept_of keep l))%Z) /\
     (keep <> "last" ->
      l = kept_of keep l :: doomed keep l /\
      forall f, In f g ->
        (mtime_in (files s) (kept_of keep l) <= mtime_in (files s) f)%Z)).
Proof.
  intros Hnk Ef.
  destruct (remove_duplicates_spec src keep s Hnk) as (out & Ef' & E).
  rewrite Ef in Ef'. injection Ef' as -> ->. split.
  - eexists. split.
    + rewrite E. unfold victims. rewrite map_flat_map. reflexivity.
    + intros h g Hg l.
      destruct (remove_duplicates_groups src keep s h g Hnk Hg)
        as (_ & _ & _ & Hk & Hd).
      rewrite E in Hk, Hd. cbn [snd files] in Hk, Hd. cbn [files]. auto.
  - intros h g Hg l.
    pose proof (sorted_group_perm (files s) g) as P.
    pose proof (sorted_group_sorted (files s) g) as S. fold l in P, S.
    assert (Hne : l <> []).
    { apply duplicates_of_spec in Hg as [_ Hlen]. intros E0.
      apply (f_equal (@List.length _)) in E0. unfold l in E0.
      rewrite sorted_group_length in E0. simpl in E0. lia. }
    split; [exact P|]. split; [exact S|]. split.
    + intros ->. unfold kept_of. simpl String.eqb. cbv iota.
      pose proof (doomed_last l Hne) as D. split; [exact D|].
      intros f Hf.
      assert (S' : StronglySorted
                     (fun a b => (mtime_in (files s) a
                                  <= mtime_in (files s) b)%Z)
                     (doomed "last" l ++ [last l []]))
        by (rewrite <- D; exact S).
      apply (sorted_last_max (files s) _ _ S').
      apply (Permutation_in _ (Permutation_sym P)) in Hf.
      exact (eq_ind _ (fun x => In f x) Hf _ D).
    + intros Hk. unfold kept_of. pose proof Hk as Hk'.
      apply String.eqb_neq in Hk'. rewrite Hk'.
      pose proof (doomed_first keep l Hk Hne) as D. split; [exact D|].
      intros f Hf.
      assert (S' : StronglySorted
                     (fun a b => (mtime_in (files s) a
                                  <= mtime_in (files s) b)%Z)
                     (hd [] l :: doomed keep l))
        by (rewrite <- D; exact S).
      apply (sorted_first_min (files s) _ _ S').
      apply (Permutation_in _ (Permutation_sym P)) in Hf.
      exact (eq_ind _ (fun x => In f x) Hf _ D).
Qed.

(** C2.  The date organizer, the size organizer and the duplicate finder
    delete, move and modify nothing: every entry of the file system is
    there afterwards as it was.  Only the remover deletes, and it deletes
    only files that are doomed in their duplicate group; the file kept of
    each group stays as it was. *)
Theorem only_the_remover_deletes (src : path) (tn keep : string)
    (s : state) :
  extends s (snd (organize_by_date src tn s)) /\
  extends s (snd (organize_by_size src tn s)) /\
  files (snd (find_duplicates src s)) = files s /\
  (nodup_keys (files s) = true ->
   forall dups s1,
   find_duplicates src s = (Ret dups, s1) ->
   let s' := snd (remove_duplicates src keep s) in
   (forall p n, lookup p (files s') = Some n ->
                lookup p (files s) = Some n) /\
   (forall p, lookup p (files s) <> None -> lookup p (files s') = None ->
      exists h g, In (h, g) dups /\ In p g /\
        In p (doomed keep (sorted_group (files s) g))) /\
   (forall h g, In (h, g) dups ->
      let kept := kept_of keep (sorted_group (files s) g) in
      In kept g /\
      ~ In kept (doomed keep (sorted_group (files s) g)) /\
      lookup kept (files s') = lookup kept (files s) /\
      is_file_in (files s') kept)).
Proof.
  split.
  { destruct (organize_by_date src tn s) as [o s'] eqn:E.
    exact (additive_organize_by_date src tn _ _ _ E). }
  split.
  { destruct (organize_by_size src tn s) as [o s'] eqn:E.
    exact (additive_organize_by_size src tn _ _ _ E). }
  split.
  { destruct (find_duplicates_spec src s) as [out E]. now rewrite E. }
  intros Hnk dups s1 Ef s'.
  destruct (remove_duplicates_spec src keep s Hnk) as (out & Ef' & E).
  rewrite Ef in Ef'. injection Ef' as -> ->.
  assert (Es : files s'
               = remove_all (victims keep (files s)
                               (duplicates_of src (files s))) (files s)).
  { unfold s'. now rewrite E. }
  split; [|split].
  - intros p n. rewrite Es, lookup_remove_all.
    now destruct (in_dec (list_eq_dec string_dec) p _).
  - intros p Hp. rewrite Es, lookup_remove_all.
    destruct (in_dec (list_eq_dec string_dec) p _) as [Hin|Hn];
      [|intros H; contradiction].
    intros _. unfold victims in Hin.
    apply in_flat_map in Hin as ([h g] & Hg & Hd). exists h, g.
    split; [exact Hg|]. split; [|exact Hd].
    apply doomed_incl in Hd.
    now apply (Permutation_in _ (sorted_group_perm (files s) g)) in Hd.
  - intros h g Hg kept.
    destruct (remove_duplicates_groups src keep s h g Hnk Hg)
      as (H1 & H2 & H3 & H4 & _).
    auto.
Qed.

Lemma two_members {X} (l : list X) (p q : X) :
  In p l -> In q l -> p <> q -> (2 <= List.length l)%nat.
Proof.
  destruct l as [|a [|b l]]; simpl; try tauto; try lia.
  intros [->|[]] [->|[]] H. now destruct H.
Qed.

Lemma another_member (l : list path) (p : path) :
  NoDup l -> (2 <= List.length l)%nat -> exists q, In q l /\ q <> p.
Proof.
  destruct l as [|a [|b l]]; simpl; try lia. intros H _.
  destruct (list_eq_dec string_dec a p) as [->|Ha].
  - exists b. split; [now right; left|]. intros ->.
    inversion H as [|? ? Hn _]. apply Hn. now left.
  - exists a. split; [now left|exact Ha].
Qed.

(** C5, amended.  The duplicate finder groups the selected files that can
    be read by their digest, in scan order, and returns exactly the groups
    of two or more members, each under its own digest.  Two selected files
    with the same bytes are in one group.  A file whose digest no other
    selected file has is in no group; two files with different bytes and
    the same digest are grouped together. *)
Theorem find_duplicates_groups (src : path) (s : state) :
  exists dups s',
    find_duplicates src s = (Ret dups, s') /\
    files s' = files s /\
    NoDup (map fst dups) /\
    (forall h g,
       In (h, g) dups <->
       g = filter (has_digest (files s) h) (selected_files src (files s)) /\
       (2 <= List.length g)%nat) /\
    (forall p q c mp mq,
       p <> q ->
       In p (selected_files src (files s)) ->
       In q (selected_files src (files s)) ->
       lookup p (files s) = Some (File c mp true) ->
       lookup q (files s) = Some (File c mq true) ->
       exists g, In (md5_hexdigest c, g) dups /\ In p g /\ In q g) /\
    (nodup_keys (files s) = true ->
     forall p h,
       hash_of (files s) p = Some h ->
       (forall q, In q (selected_files src (files s)) -> q <> p ->
                  hash_of (files s) q <> Some h) ->
       forall h' g, In (h', g) dups -> ~ In p g).
Proof.
  destruct (find_duplicates_spec src s) as [out E].
  exists (duplicates_of src (files s)),
         (mk_state (files s) (stdout s ++ out) (clock s)).
  split; [exact E|]. split; [reflexivity|].
  split; [apply duplicates_of_keys|].
  split; [apply duplicates_of_spec|]. split.
  - intros p q c mp mq Hpq Hp Hq Lp Lq.
    set (g := filter (has_digest (files s) (md5_hexdigest c))
                     (selected_files src (files s))).
    assert (Gp : In p g).
    { apply filter_In. split; [exact Hp|]. apply has_digest_hash.
      unfold hash_of. now rewrite Lp. }
    assert (Gq : In q g).
    { apply filter_In. split; [exact Hq|]. apply has_digest_hash.
      unfold hash_of. now rewrite Lq. }
    exists g. split; [|now split]. apply duplicates_of_spec.
    split; [reflexivity|]. exact (two_members g p q Gp Gq Hpq).
  - intros Hnk p h Hh Huniq h' g Hg Hp.
    apply nodup_keys_NoDup in Hnk.
    destruct (dups_members src (files s) h' g p Hg Hp) as [_ Hh'].
    rewrite Hh in Hh'. injection Hh' as <-.
    pose proof (group_NoDup src (files s) h g Hnk Hg) as Ng.
    pose proof Hg as Hg'. apply duplicates_of_spec in Hg' as [_ Hlen].
    destruct (another_member g p Ng Hlen) as (q & Hq & Hqp).
    destruct (dups_members src (files s) h g q Hg Hq) as [Hsel Hhq].
    exact (Huniq q Hsel Hqp Hhq).
Qed.

(* ------------------------------------------------------------------ *)
(** ** The command line *)

Lemma parse_tokens_flags (argv : list token) :
  forall st st',
  parse_tokens argv st = inr st' ->
  (ps_by_date st' = true <-> ps_by_date st = true \/ In TByDate argv) /\
  (ps_by_size st' = true <-> ps_by_size st = true \/ In TBySize argv) /\
  (ps_find_dupes st' = true <->
   ps_find_dupes st = true \/ In TFindDupes argv) /\
  (ps_remove_dupes st' = true <->
   ps_remove_dupes st = true \/ In TRemoveDupes argv) /\
  (ps_keep st = "first" \/ ps_keep st = "last" ->
   ps_keep st' = "first" \/ ps_keep st' = "last") /\
  ~ In THelp argv.
Proof.
  induction argv as [|t argv IH]; intros st st' H.
  - simpl in H. injection H as <-. simpl. intuition.
  - destruct st as [src ex bd bs fd rd kp].
    destruct t as [v| | | | |v| |o]; cbn [parse_tokens] in H;
      try discriminate;
      try (destruct src);
      try (destruct (String.eqb v "first" || String.eqb v "last") eqn:Ev;
           [|discriminate]);
      apply IH in H; simpl in *;
      destruct H as (H1 & H2 & H3 & H4 & H5 & H6);
      try (apply orb_true_iff in Ev; rewrite !String.eqb_eq in Ev);
      repeat split; intros; intuition (try discriminate).
Qed.

Lemma parse_tokens_positionals (argv : list token) :
  forall st st',
  parse_tokens argv st = inr st' ->
  ps_extras st' = false ->
  ps_extras st = false /\
  (forall o, ~ In (TUnknown o) argv) /\
  match ps_source st with
  | Some v => ps_source st' = Some v /\ positionals argv = []
  | None =>
      match ps_source st' with
      | Some v => positionals argv = [v]
      | None => positionals argv = []
      end
  end.
Proof.
  induction argv as [|t argv IH]; intros st st' H Hex.
  - simpl in H. injection H as <-. split; [exact Hex|].
    split; [intros o []|]. destruct (ps_source st); auto.
  - destruct st as [src ex bd bs fd rd kp].
    destruct t as [v| | | | |v| |o]; cbn [parse_tokens] in H;
      try discriminate;
      try (destruct (String.eqb v "first" || String.eqb v "last") eqn:Ev;
           [|discriminate]).
    + destruct src as [w|]; destruct (IH _ _ H Hex) as (E1 & E2 & E3);
        simpl in *; [discriminate|].
      destruct E3 as [-> P]. split; [exact E1|]. split.
      * intros o [D|D]; [discriminate|]. now apply (E2 o).
      * now rewrite P.
    + destruct (IH _ _ H Hex) as (E1 & E2 & E3). simpl in *.
      split; [exact E1|]. split; [|exact E3].
      intros o [D|D]; [discriminate|]. now apply (E2 o).
    + destruct (IH _ _ H Hex) as (E1 & E2 & E3). simpl in *.
      split; [exact E1|]. split; [|exact E3].
      intros o [D|D]; [discriminate|]. now apply (E2 o).
    + destruct (IH _ _ H Hex) as (E1 & E2 & E3). simpl in *.
      split; [exact E1|]. split; [|exact E3].
      intros o [D|D]; [discriminate|]. now apply (E2 o).
    + destruct (IH _ _ H Hex) as (E1 & E2 & E3). simpl in *.
      split; [exact E1|]. split; [|exact E3].
      intros o [D|D]; [discriminate|]. now apply (E2 o).
    + destruct (IH _ _ H Hex) as (E1 & E2 & E3). simpl in *.
      split; [exact E1|]. split; [|exact E3].
      intros o [D|D]; [discriminate|]. now apply (E2 o).
    + destruct (IH _ _ H Hex) as (E1 & _). simpl in E1. discriminate.
Qed.

Lemma parse_tokens_valid (argv : list token) :
  forall st st',
  parse_tokens argv st = inr st' ->
  ps_extras st' = false ->
  forallb valid_token argv = true.
Proof.
  induction argv as [|t argv IH]; intros st st' H Hex; [reflexivity|].
  destruct (parse_tokens_positionals _ _ _ H Hex) as (E1 & E2 & _).
  destruct st as [src ex bd bs fd rd kp].
  destruct t as [v| | | | |v| |o]; cbn [parse_tokens] in H;
    cbn [forallb valid_token andb]; try discriminate.
  - destruct src; eapply IH; eauto.
  - eapply IH; eauto.
  - eapply IH; eauto.
  - eapply IH; eauto.
  - eapply IH; eauto.
  - destruct (String.eqb v "first" || String.eqb v "last"); [|discriminate].
    eapply IH; eauto.
  - exfalso. apply (E2 o). now left.
Qed.

Lemma parse_tokens_accepted (argv : list token) :
  forall st,
  forallb valid_token argv = true ->
  exists st',
    parse_tokens argv st = inr st' /\
    (ps_extras st = false ->
     match ps_source st with
     | Some _ => positionals argv = []
     | None => List.length (positionals argv) = 1%nat
     end ->
     ps_extras st' = false /\ ps_source st' <> None).
Proof.
  induction argv as [|t argv IH]; intros st V.
  - exists st. split; [reflexivity|]. intros E P. split; [exact E|].
    destruct (ps_source st); [discriminate|discriminate P].
  - cbn [forallb] in V. apply andb_true_iff in V. destruct V as [Vt V].
    destruct st as [src ex bd bs fd rd kp].
    destruct t as [v| | | | |v| |o]; cbn [valid_token] in Vt;
      try discriminate; cbn [parse_tokens]; try rewrite Vt.
    + destruct src as [w|].
      * destruct (IH (mk_parse_state (Some w) true bd bs fd rd kp) V)
          as (st' & E & _).
        exists st'. split; [exact E|]. intros _ P. discriminate P.
      * destruct (IH (mk_parse_state (Some v) ex bd bs fd rd kp) V)
          as (st' & E & K).
        exists st'. split; [exact E|]. cbn. intros X P. apply K; [exact X|].
        cbn. injection P as P. now apply length_zero_iff_nil.
    + destruct (IH (mk_parse_state src ex true bs fd rd kp) V) as (st' & E & K).
      exists st'. split; [exact E|exact K].
    + destruct (IH (mk_parse_state src ex bd true fd rd kp) V) as (st' & E & K).
      exists st'. split; [exact E|exact K].
    + destruct (IH (mk_parse_state src ex bd bs true rd kp) V) as (st' & E & K).
      exists st'. split; [exact E|exact K].
    + destruct (IH (mk_parse_state src ex bd bs fd true kp) V) as (st' & E & K).
      exists st'. split; [exact E|exact K].
    + destruct (IH (mk_parse_state src ex bd bs fd rd v) V) as (st' & E & K).
      exists st'. split; [exact E|exact K].
Qed.

Lemma parse_args_Parsed (argv : list token) (args : Namespace) :
  parse_args argv = Parsed args ->
  accepts argv = true /\
  positionals argv = [source args] /\
  (by_date args = true <-> In TByDate argv) /\
  (by_size args = true <-> In TBySize argv) /\
  (find_dupes args = true <-> In TFindDupes argv) /\
  (remove_dupes args = true <-> In TRemoveDupes argv) /\
  (keep args = "first" \/ keep args = "last").
Proof.
  unfold parse_args. destruct (parse_tokens argv parse_init) as [r|st] eqn:E.
  - intros ->.
    assert (X : forall a st0 r0, parse_tokens a st0 = inl r0 ->
                exists z, r0 = Exit z).
    { clear. induction a as [|t a IH]; intros st0 r0 H; [discriminate|].
      destruct st0 as [src ex bd bs fd rd kp].
      destruct t as [v| | | | |v| |o]; cbn [parse_tokens] in H;
        try (eapply IH; exact H).
      - destruct src; eapply IH; exact H.
      - destruct (String.eqb v "first" || String.eqb v "last");
          [eapply IH; exact H|]. injection H as <-. now exists 2%Z.
      - injection H as <-. now exists 0%Z. }
    destruct (X _ _ _ E) as (z & Hz). discriminate Hz.
  - destruct (ps_source st) as [src|] eqn:Es; [|discriminate].
    destruct (ps_extras st) eqn:Ex; [discriminate|].
    intros H. injection H as <-. cbn [source by_date by_size find_dupes
                                       remove_dupes keep].
    destruct (parse_tokens_flags _ _ _ E) as (F1 & F2 & F3 & F4 & F5 & _).
    destruct (parse_tokens_positionals _ _ _ E Ex) as (_ & _ & P).
    cbn in P, F1, F2, F3, F4, F5. rewrite Es in P.
    assert (A : accepts argv = true).
    { unfold accepts. rewrite (parse_tokens_valid _ _ _ E Ex), P.
      reflexivity. }
    repeat split; try assumption.
    + intros H. apply F1 in H. destruct H; [discriminate|assumption].
    + intros H. apply F1. now right.
    + intros H. apply F2 in H. destruct H; [discriminate|assumption].
    + intros H. apply F2. now right.
    + intros H. apply F3 in H. destruct H; [discriminate|assumption].
    + intros H. apply F3. now right.
    + intros H. apply F4 in H. destruct H; [discriminate|assumption].
    + intros H. apply F4. now right.
    + apply F5. now left.
Qed.

Lemma parse_args_accepted (argv : list token) :
  accepts argv = true -> exists args, parse_args argv = Parsed args.
Proof.
  unfold accepts. intros A. apply andb_true_iff in A. destruct A as [V L].
  apply Nat.eqb_eq in L.
  destruct (parse_tokens_accepted argv parse_init V) as (st & E & K).
  destruct (K eq_refl L) as [Ex Es].
  unfold parse_args. rewrite E, Ex.
  destruct (ps_source st) as [src|]; [|congruence].
  eexists. reflexivity.
Qed.

Lemma dispatch_selected (args : Namespace) :
  dispatch args =
  match selected_operation args with
  | Some op => run_operation op args
  | None => ret tt
  end.
Proof.
  unfold dispatch, selected_operation.
  destruct (by_date args); [reflexivity|].
  destruct (by_size args); [reflexivity|].
  destruct (find_dupes args); [reflexivity|].
  destruct (remove_dupes args); reflexivity.
Qed.

(** C9, amended.  [main] accepts a command line exactly when every token is
    a mode flag, a positional or [--keep] with [first] or [last], and there
    is exactly one positional; every other command line leaves the program
    through [SystemExit] with nothing run.  On an accepted command line the
    positional is the source directory, each of the four mode flags is set
    exactly when it occurs (any number of them may occur together), and
    [main] runs the operation of the first flag that is set, in the order
    by-date, by-size, find-dupes, remove-dupes, and nothing else: at most
    one operation runs, and without a mode flag [main] returns silently,
    changing nothing and printing nothing. *)
Theorem command_dispatch (argv : list token) :
  if accepts argv then
    exists args,
      parse_args argv = Parsed args /\
      positionals argv = [source args] /\
      (by_date args = true <-> In TByDate argv) /\
      (by_size args = true <-> In TBySize argv) /\
      (find_dupes args = true <-> In TFindDupes argv) /\
      (remove_dupes args = true <-> In TRemoveDupes argv) /\
      (keep args = "first" \/ keep args = "last") /\
      main argv =
        match selected_operation args with
        | Some op => run_operation op args
        | None => ret tt
        end /\
      ((flag_count args = 0)%nat <-> selected_operation args = None) /\
      ((flag_count args = 0)%nat -> forall s, main argv s = (Ret tt, s))
  else
    exists status,
      parse_args argv = Exit status /\
      forall s, main argv s = (Raise (SystemExit status), s).
Proof.
  destruct (accepts argv) eqn:A.
  - destruct (parse_args_accepted _ A) as (args & E).
    exists args. split; [exact E|].
    destruct (parse_args_Parsed _ _ E) as (_ & P & F1 & F2 & F3 & F4 & K).
    repeat (split; [assumption|]).
    assert (M : main argv =
                match selected_operation args with
                | Some op => run_operation op args
                | None => ret tt
                end).
    { unfold main. rewrite E. apply dispatch_selected. }
    assert (Z : (flag_count args = 0)%nat <-> selected_operation args = None).
    { unfold flag_count, selected_operation.
      destruct (by_date args), (by_size args), (find_dupes args),
        (remove_dupes args); cbn; split; intros H; try discriminate H;
        reflexivity. }
    split; [exact M|]. split; [exact Z|].
    intros H s. rewrite M. apply Z in H. rewrite H. reflexivity.
  - destruct (parse_args argv) as [args|status] eqn:E.
    + destruct (parse_args_Parsed _ _ E) as (A' & _). congruence.
    + exists status. split; [reflexivity|]. intros s. unfold main.
      rewrite E. reflexivity.
Qed.

(* ------------------------------------------------------------------ *)
(** ** Where the date organizer puts a copy *)

(** [mkdir(parents=True)] adds entries for the path and its ancestors
    only. *)
Lemma mkdir_parents_rev_added (r : list string) :
  forall s o s',
  mkdir_parents_rev r s = (o, s') ->
  exists added,
    files s' = files s ++ added /\
    Forall (fun e => (List.length (fst e) <= List.length r)%nat) added.
Proof.
  induction r as [|c r IH]; intros s o s' H.
  - cbn [mkdir_parents_rev] in H. unfold try_except in H.
    destruct (os_mkdir_cases (rev []) s) as [(E & _)|(e & E & _)];
      rewrite E in H.
    + injection H as <- <-. eexists. split; [reflexivity|].
      constructor; [apply Nat.le_refl|constructor].
    + exists []. rewrite app_nil_r.
      destruct e; unfold bind, is_dir, ret, raise in H;
        destruct (lookup (rev []) (files s)) as [[? ? ?|?]|];
        injection H as <- <-; split; constructor.
  - cbn [mkdir_parents_rev] in H. unfold try_except in H.
    destruct (os_mkdir_cases (rev (c :: r)) s) as [(E & _)|(e & E & _)];
      rewrite E in H.
    + injection H as <- <-. eexists. split; [reflexivity|].
      constructor; [|constructor]. cbn [fst].
      apply Nat.eq_le_incl. exact (length_rev (c :: r)).
    + assert (K : forall o1 s1,
                 (d <- is_dir (rev (c :: r)) ;;
                  if d then ret tt else raise e) s = (o1, s1) -> s1 = s).
      { intros o1 s1. unfold bind, is_dir, ret, raise.
        destruct (lookup (rev (c :: r)) (files s)) as [[? ? ?|?]|];
          intros X; now injection X as _ <-. }
      destruct e; try (apply K in H; subst s'; exists [];
                       rewrite app_nil_r; split; constructor).
      unfold bind in H.
      destruct (mkdir_parents_rev r s) as [o1 s1] eqn:E1.
      destruct (IH _ _ _ E1) as (added & Ea & Fa).
      assert (Fa' : Forall (fun e => (List.length (fst e)
                                      <= List.length (c :: r))%nat) added).
      { eapply Forall_impl; [|exact Fa]. cbn. intros; lia. }
      destruct o1 as [[]|e1|].
      * destruct (mkdir_cases (rev (c :: r)) s1)
          as [(M & _)|[(M & _)|(e2 & M & _)]]; rewrite M in H;
          injection H as <- <-.
        -- now exists added.
        -- exists (added ++ [(rev (c :: r), Dir (clock s1))]). split.
           ++ cbn [files set_files]. rewrite Ea. now rewrite app_assoc.
           ++ apply Forall_app. split; [exact Fa'|].
              constructor; [|constructor]. cbn [fst].
              apply Nat.eq_le_incl. exact (length_rev (c :: r)).
        -- now exists added.
      * injection H as <- <-. now exists added.
      * injection H as <- <-. now exists added.
Qed.

Lemma mkdir_parents_below (p : path) (x : string) (s : state) :
  lookup (p // x) (files (snd (mkdir_parents p s))) = lookup (p // x) (files s).
Proof.
  unfold mkdir_parents.
  destruct (mkdir_parents_rev (rev p) s) as [o s'] eqn:E.
  destruct (mkdir_parents_rev_added _ _ _ _ E) as (added & Ea & Fa).
  cbn [snd]. rewrite Ea, lookup_app.
  destruct (lookup (p // x) (files s)); [reflexivity|].
  destruct (lookup (p // x) added) as [n|] eqn:L; [|reflexivity].
  exfalso. apply lookup_In in L.
  rewrite Forall_forall in Fa. apply Fa in L. cbn [fst] in L.
  rewrite child_length, length_rev in L. lia.
Qed.

(** The body of the loop with the date of the file put in. *)
Lemma organize_by_date_file_place (src target img : path)
    (organized : dict (list (string * string))) (s : state) (n : node)
    (d : datetime) :
  lookup img (files s) = Some n -> date_of n = inr d ->
  organize_by_date_file src target img organized s =
  (mkdir_parents (date_folder target d) ;;
   place src (date_folder target d)
     (date_plain d (suffix img))
     (date_numbered d (suffix img)) img "date" organized)%monad s.
Proof.
  intros Hn Hd. unfold organize_by_date_file. unfold bind at 1.
  rewrite get_image_date_spec, Hn, Hd. reflexivity.
Qed.

Lemma organize_by_date_file_placement (src : path) (tn : string) (img : path)
    (organized : dict (list (string * string))) (s : state) (tm : Z)
    (n : node) :
  lookup (src // tn) (files s) = Some (Dir tm) ->
  lookup img (files s) = Some n ->
  dated n = true ->
  if folder_ok (src // tn) (Str.of_nat (year (image_date n)))
       (Str.pad 2 (month (image_date n))) (files s)
     && readable_file (Some n)
  then
    exists i s',
      organize_by_date_file src (src // tn) img organized s
      = (Ret (dict_append "date"
                (name img,
                 path_str [tn; Str.of_nat (year (image_date n));
                           Str.pad 2 (month (image_date n));
                           date_name (image_date n) (suffix img) i])
                organized), s') /\
      lookup (date_folder (src // tn) (image_date n)
              // date_name (image_date n) (suffix img) i) (files s) = None /\
      (forall j, (j < i)%nat ->
         lookup (date_folder (src // tn) (image_date n)
                 // date_name (image_date n) (suffix img) j) (files s)
         <> None) /\
      lookup (date_folder (src // tn) (image_date n)
              // date_name (image_date n) (suffix img) i) (files s') = Some n /\
      extends s s'
  else
    exists e s',
      organize_by_date_file src (src // tn) img organized s = (Raise e, s') /\
      copies_under (src // tn) (files s') = copies_under (src // tn) (files s) /\
      extends s s'.
Proof.
  intros Ht Hn Hdt.
  destruct (organize_by_date_file_spec src tn img organized s tm n Ht Hn Hdt)
    as (o & sm & E & G & C & Ho).
  cbv zeta in E, Ho.
  set (d := image_date n) in *.
  set (folder := date_folder (src // tn) d) in *.
  assert (B : forall x, lookup (folder // x) (files sm)
                        = lookup (folder // x) (files s)).
  { intros x. rewrite <- (mkdir_parents_below folder x s). now rewrite E. }
  pose proof (grows_extends _ _ _ _ G) as X.
  destruct o as [[]|e|]; [| |contradiction].
  - destruct Ho as (Hok & _ & i & Hf & Htk & Es). rewrite Hok. cbn [andb].
    destruct n as [c fm [|]|fm]; cbn [readable_file].
    + exists i. eexists. split; [exact Es|]. rewrite <- !B.
      split; [exact Hf|]. split; [intros j Hj; rewrite <- B; now apply Htk|].
      split.
      * cbn [files set_files]. now rewrite lookup_snoc, Hf, path_eqb_refl.
      * intros p m Hp. cbn [files set_files]. rewrite lookup_app.
        now rewrite (X _ _ Hp).
    + exists PermissionError, sm. split; [exact Es|]. now split.
    + exists IsADirectoryError, sm. split; [exact Es|]. now split.
  - destruct Ho as (Hok & -> & Es). rewrite Hok. cbn [andb].
    exists e, s. split; [exact Es|]. split; [reflexivity|apply extends_refl].
Qed.

(** Two files taken in the same second: the second copy gets [_1]. *)
Lemma organize_by_date_same_second (c1 c2 : bytes) (m1 m2 : Z) :
  metadata_date (File c1 m1 true) = Some (mk_datetime 2021 6 15 10 30 0) ->
  metadata_date (File c2 m2 true) = Some (mk_datetime 2021 6 15 10 30 0) ->
  fst (organize_by_date ["photos"] "organized_by_date"
         (mk_state [([], Dir 0); (["photos"], Dir 0);
                    (["photos"; "a.jpg"], File c1 m1 true);
                    (["photos"; "b.jpg"], File c2 m2 true)] [] 0))
  = Ret [("date",
          [("a.jpg", "organized_by_date/2021/06/20210615_103000.jpg");
           ("b.jpg", "organized_by_date/2021/06/20210615_103000_1.jpg")])].
Proof.
  intros D1 D2.
  assert (I1 : date_of (File c1 m1 true)
               = inr (mk_datetime 2021 6 15 10 30 0))
    by (unfold date_of; now rewrite D1).
  assert (I2 : date_of (File c2 m2 true)
               = inr (mk_datetime 2021 6 15 10 30 0))
    by (unfold date_of; now rewrite D2).
  unfold organize_by_date. cbv zeta.
  unfold bind at 1.
  match goal with |- context [mkdir ?p ?s] =>
    let r := eval vm_compute in (mkdir p s) in
    replace (mkdir p s) with r by (vm_compute; reflexivity)
  end.
  cbv beta iota. unfold bind at 1.
  match goal with |- context [glob_star_dot_star ?p ?s] =>
    let r := eval vm_compute in (glob_star_dot_star p s) in
    replace (glob_star_dot_star p s) with r by (vm_compute; reflexivity)
  end.
  cbv beta iota. cbn [for_each].
  replace (has_image_suffix ["photos"; "a.jpg"]) with true
    by (vm_compute; reflexivity).
  replace (has_image_suffix ["photos"; "b.jpg"]) with true
    by (vm_compute; reflexivity).
  unfold bind at 1. unfold try_except at 1.
  match goal with |- context [organize_by_date_file ?a ?b ?i ?o ?s] =>
    rewrite (organize_by_date_file_place a b i o s (File c1 m1 true) _
               eq_refl I1)
  end.
  match goal with |- context [bind ?a ?b ?s] =>
    let r := eval vm_compute in (bind a b s) in
    replace (bind a b s) with r by (vm_compute; reflexivity)
  end.
  cbv beta iota.
  unfold bind at 1. unfold try_except at 1.
  match goal with |- context [organize_by_date_file ?a ?b ?i ?o ?s] =>
    rewrite (organize_by_date_file_place a b i o s (File c2 m2 true) _
               eq_refl I2)
  end.
  match goal with |- context [bind ?a ?b ?s] =>
    let r := eval vm_compute in (bind a b s) in
    replace (bind a b s) with r by (vm_compute; reflexivity)
  end.
  reflexivity.
Qed.

(** C6, amended.  Where the date organizer puts the copy of a selected
    entry.  With the target folder in place, the body of the loop for an
    entry of the source directory whose date can be read succeeds exactly
    when the entry is a regular file that can be read and
    [<target>/<year>/<2-digit month>] can be made a directory; then the
    copy goes into that folder, year and month taken from the date
    [get_image_date] extracts, under the name [<stamp><ext>] if that name
    is free in the folder, otherwise under [<stamp>_<n><ext>] for the least
    [n >= 1] whose name is free: every name tried before exists.  The
    stamp is [YYYYMMDD_HHMMSS], the year in four digits from the year 1000
    on.  The copy has the bytes of the file, nothing that existed is
    changed, and the path of the copy relative to the source is recorded.
    Any other entry, one that cannot be opened, a directory, or an entry
    whose modification time [datetime.fromtimestamp] rejects, is not
    copied: the body raises.  A metadata timestamp [2021:06:15 10:30:00]
    is read as that date, so that of two [.jpg] files with this timestamp
    the first lands at [organized_by_date/2021/06/20210615_103000.jpg] and
    the second at [organized_by_date/2021/06/20210615_103000_1.jpg]. *)
Theorem date_organizer_placement :
  (forall (src : path) (tn : string) (img : path)
      (organized : dict (list (string * string))) (s : state) (tm : Z)
      (n : node),
    lookup (src // tn) (files s) = Some (Dir tm) ->
    lookup img (files s) = Some n ->
    match date_of n with
    | inr d =>
        let folder :=
          src // tn // Str.of_nat (year d) // Str.pad 2 (month d) in
        let new_name i :=
          match i with
          | O => (strftime_stamp d ++ suffix img)%string
          | S _ =>
              (strftime_stamp d ++ "_" ++ Str.of_nat i ++ suffix img)%string
          end in
        if folder_ok (src // tn) (Str.of_nat (year d))
             (Str.pad 2 (month d)) (files s)
           && readable_file (Some n)
        then
          exists i s',
            organize_by_date_file src (src // tn) img organized s
            = (Ret (dict_append "date"
                      (name img,
                       path_str [tn; Str.of_nat (year d);
                                 Str.pad 2 (month d); new_name i])
                      organized), s') /\
            lookup (folder // new_name i) (files s) = None /\
            (forall j, (j < i)%nat ->
               lookup (folder // new_name j) (files s) <> None) /\
            lookup (folder // new_name i) (files s') = Some n /\
            extends s s'
        else
          exists e s',
            organize_by_date_file src (src // tn) img organized s
            = (Raise e, s') /\
            copies_under (src // tn) (files s')
            = copies_under (src // tn) (files s) /\
            extends s s'
    | inl e =>
        organize_by_date_file src (src // tn) img organized s = (Raise e, s)
    end) /\
  (forall d, (1000 <= year d)%nat ->
     strftime_stamp d
     = (Str.of_nat (year d) ++ Str.pad 2 (month d) ++ Str.pad 2 (day d)
        ++ "_" ++ Str.pad 2 (hour d) ++ Str.pad 2 (minute d)
        ++ Str.pad 2 (second d))%string) /\
  (forall rest,
     find_date ((36867%Z, ExifStr "2021:06:15 10:30:00") :: rest)
     = Some (mk_datetime 2021 6 15 10 30 0)) /\
  (forall (c1 c2 : bytes) (m1 m2 : Z),
     metadata_date (File c1 m1 true) = Some (mk_datetime 2021 6 15 10 30 0) ->
     metadata_date (File c2 m2 true) = Some (mk_datetime 2021 6 15 10 30 0) ->
     fst (organize_by_date ["photos"] "organized_by_date"
            (mk_state [([], Dir 0); (["photos"], Dir 0);
                       (["photos"; "a.jpg"], File c1 m1 true);
                       (["photos"; "b.jpg"], File c2 m2 true)] [] 0))
     = Ret [("date",
             [("a.jpg", "organized_by_date/2021/06/20210615_103000.jpg");
              ("b.jpg",
               "organized_by_date/2021/06/20210615_103000_1.jpg")])]).
Proof.
  split; [|split; [|split]].
  - intros src tn img organized s tm n Ht Hn.
    destruct (date_of n) as [e|d] eqn:Ed.
    + exact (organize_by_date_file_undated _ _ _ _ _ _ _ Hn Ed).
    + assert (Hdt : dated n = true) by (unfold dated; now rewrite Ed).
      assert (Ei : image_date n = d) by (unfold image_date; now rewrite Ed).
      pose proof (organize_by_date_file_placement src tn img organized s tm n
                    Ht Hn Hdt) as H.
      rewrite Ei in H. exact H.
  - intros d Hy. unfold strftime_stamp, strftime_Y.
    apply Nat.leb_le in Hy. now rewrite Hy.
  - intros rest. reflexivity.
  - exact organize_by_date_same_second.
Qed.

(* ------------------------------------------------------------------ *)
(** ** The entries the scans select *)

Lemma rfind_Some (c : ascii) (s : string) :
  forall i, Str.rfind c s = Some i ->
  exists a b, s = (a ++ String c b)%string /\ String.length a = i /\
              Str.rfind c b = None.
Proof.
  induction s as [|x s IH]; intros i H; [discriminate|].
  cbn [Str.rfind] in H. destruct (Str.rfind c s) as [j|] eqn:E.
  - injection H as <-. destruct (IH j eq_refl) as (a & b & -> & L & N).
    exists (String x a), b. cbn. now rewrite L.
  - destruct (Ascii.eqb x c) eqn:X; [|discriminate]. injection H as <-.
    apply Ascii.eqb_eq in X. subst x. now exists ""%string, s.
Qed.

Lemma rfind_app (c : ascii) (a b : string) :
  Str.rfind c b = None ->
  Str.rfind c (a ++ String c b)%string = Some (String.length a).
Proof.
  intros N. induction a as [|x a IH]; cbn.
  - now rewrite N, Ascii.eqb_refl.
  - cbn in IH. now rewrite IH.
Qed.

Lemma take_app (a b : string) : Str.take (String.length a) (a ++ b)%string = a.
Proof. induction a as [|x a IH]; cbn; [now destruct b|now rewrite IH]. Qed.

Lemma drop_app (a b : string) : Str.drop (String.length a) (a ++ b)%string = b.
Proof. induction a as [|x a IH]; cbn; [reflexivity|exact IH]. Qed.

Lemma lower_char_dot (x : ascii) :
  Ascii.eqb (Str.lower_char x) "." = Ascii.eqb x ".".
Proof. destruct x as [[] [] [] [] [] [] [] []]; reflexivity. Qed.

Lemma rfind_dot_lower (s : string) :
  Str.rfind "." (Str.lower s) = Str.rfind "." s.
Proof.
  induction s as [|x s IH]; cbn; [reflexivity|].
  now rewrite IH, lower_char_dot.
Qed.

Lemma supported_no_dot (ext : string) :
  In (Str.lower ext) supported_extensions -> Str.rfind "." ext = None.
Proof.
  intros H. rewrite <- rfind_dot_lower.
  cbn in H. decompose [or] H; try contradiction;
    match goal with E : _ = Str.lower ext |- _ => rewrite <- E end;
    reflexivity.
Qed.

Lemma image_suffixes_dot (x : string) :
  In x image_suffixes <->
  exists e, x = String "." e /\ In e supported_extensions.
Proof.
  change image_suffixes with (map (String ".") supported_extensions).
  rewrite in_map_iff. split; intros (e & H1 & H2); exists e; auto.
Qed.

(** The test of the code on a name is the test of the specification. *)
Lemma has_image_suffix_supported (d : path) (n : string) :
  has_image_suffix (d // n) = true <-> supported_extension n.
Proof.
  unfold has_image_suffix, suffix. rewrite name_child.
  rewrite existsb_exists. split.
  - intros (x & Hx & E). apply String.eqb_eq in E. subst x.
    apply image_suffixes_dot in Hx as (e & He & Hin).
    unfold suffix_of_name in He.
    destruct (Str.rfind "." n) as [i|] eqn:R; [|discriminate].
    destruct ((0 <? i)%nat && (i <? String.length n - 1)%nat) eqn:B;
      [|discriminate].
    apply andb_true_iff in B as [B _]. apply Nat.ltb_lt in B.
    destruct (rfind_Some _ _ _ R) as (a & b & -> & L & _). subst i.
    rewrite drop_app in He. cbn in He. injection He as He.
    exists a, b. split; [reflexivity|]. split.
    + intros ->. cbn in B. lia.
    + now rewrite He.
  - intros (a & ext & -> & Ha & Hin).
    pose proof (supported_no_dot _ Hin) as N.
    exists (String "." (Str.lower ext)). split.
    + apply image_suffixes_dot. now exists (Str.lower ext).
    + apply String.eqb_eq. unfold suffix_of_name.
      change (a ++ "." ++ ext)%string with (a ++ String "." ext)%string.
      rewrite (rfind_app _ a ext N), append_length.
      assert (La : (0 < String.length a)%nat).
      { destruct a; [contradiction|cbn; lia]. }
      assert (Le : (0 < String.length ext)%nat).
      { destruct ext; [|cbn; lia]. cbn in Hin.
        decompose [or] Hin; try contradiction; discriminate. }
      replace ((0 <? String.length a)%nat
               && (String.length a
                   <? String.length a + String.length (String "." ext) - 1)%nat)
        with true.
      * now rewrite drop_app.
      * symmetry. apply andb_true_iff. split; apply Nat.ltb_lt; cbn; lia.
Qed.

Lemma selected_files_spec (src p : path) (t : fs) :
  In p (selected_files src t) <->
  (exists m, lookup src t = Some (Dir m)) /\
  exists n, p = src // n /\ lookup p t <> None /\ supported_extension n.
Proof.
  unfold selected_files, glob_list. rewrite filter_In. split.
  - intros [Hin Hs].
    destruct (lookup src t) as [[c m r|m]|]; try contradiction.
    split; [now exists m|].
    apply in_map_iff in Hin as (n & <- & Hn). apply filter_In in Hn as [Hn _].
    exists n. split; [reflexivity|]. split.
    + apply In_scandir in Hn. intros H. apply lookup_None_keys in H.
      contradiction.
    + now apply has_image_suffix_supported in Hs.
  - intros [[m Hm] (n & -> & Hp & Hs)]. rewrite Hm. split.
    + apply in_map_iff. exists n. split; [reflexivity|]. apply filter_In.
      split.
      * apply In_scandir.
        destruct (in_dec (list_eq_dec string_dec) (src // n) (map fst t))
          as [Hin|Hn]; [exact Hin|].
        apply lookup_None_keys in Hn. contradiction.
      * destruct Hs as (a & ext & -> & _ & Hin).
        unfold fnmatch_star_dot_star.
        change (a ++ "." ++ ext)%string with (a ++ String "." ext)%string.
        now rewrite (rfind_app _ a ext (supported_no_dot _ Hin)).
    + now apply has_image_suffix_supported.
Qed.

Lemma for_each_filter {A B} (p : A -> bool) (f : B -> A -> M B)
    (xs : list A) :
  forall acc s,
  for_each xs acc (fun a x => if p x then f a x else ret a) s
  = for_each (filter p xs) acc f s.
Proof.
  induction xs as [|x xs IH]; intros acc s; [reflexivity|].
  cbn [for_each filter]. destruct (p x).
  - cbn [for_each]. unfold bind. destruct (f acc x s) as [[acc'|e|] s'];
      [apply IH|reflexivity|reflexivity].
  - unfold bind, ret. apply IH.
Qed.

Lemma scan_guard {B} (src : path) (f : B -> path -> M B) (acc : B)
    (s : state) :
  (imgs <- glob_star_dot_star src ;;
   for_each imgs acc
     (fun a x => if has_image_suffix x then f a x else ret a))%monad s
  = (imgs <- scan_selected src ;; for_each imgs acc f)%monad s.
Proof.
  unfold bind, scan_selected. rewrite glob_spec. apply for_each_filter.
Qed.

Lemma bind_ext {A B} (c : M A) (k1 k2 : A -> M B) (s : state) :
  (forall a s', k1 a s' = k2 a s') -> bind c k1 s = bind c k2 s.
Proof.
  intros H. unfold bind. destruct (c s) as [[a|e|] s']; [apply H| |];
    reflexivity.
Qed.

(** C8.  The entries the three scans process.  An entry is selected exactly
    when the source is a directory, the entry is an immediate child of it,
    and its name is some text, a dot and one of jpg, jpeg, png, gif, bmp,
    webp, tiff in any mix of upper and lower case; each child is selected
    once.  The date organizer, the size organizer and the duplicate finder
    run their loop body on the selected entries, in scan order, and on no
    other entry: every other entry is passed over without any effect. *)
Theorem scans_select_supported_extensions (src : path) :
  (forall t p,
     In p (selected_files src t) <->
     (exists m, lookup src t = Some (Dir m)) /\
     exists n, p = src // n /\ lookup p t <> None /\
               supported_extension n) /\
  (forall t, nodup_keys t = true -> NoDup (selected_files src t)) /\
  (forall tn s,
     organize_by_date src tn s =
     (mkdir (joinpath src tn) ;;
      imgs <- scan_selected src ;;
      for_each imgs []
        (fun organized img_file =>
           try_except
             (organize_by_date_file src (joinpath src tn) img_file organized)
             (fun e => print (ErrorProcessing img_file e) ;;
                       ret organized)))%monad s) /\
  (forall tn s,
     organize_by_size src tn s =
     (mkdir (joinpath src tn) ;;
      for_each (map snd (size_categories (joinpath src tn))) tt
        (fun _ cat => mkdir cat) ;;
      imgs <- scan_selected src ;;
      for_each imgs []
        (fun organized img_file =>
           try_except
             (organize_by_size_file src (size_categories (joinpath src tn))
                img_file organized)
             (fun e => print (ErrorProcessing img_file e) ;;
                       ret organized)))%monad s) /\
  (forall s,
     find_duplicates src s =
     (imgs <- scan_selected src ;;
      hash_to_files <-
        for_each imgs []
          (fun hash_to_files img_file =>
             try_except
               (file_hash <- calculate_file_hash img_file ;;
                ret (dict_append file_hash img_file hash_to_files))
               (fun e => print (ErrorHashing img_file e) ;;
                         ret hash_to_files)) ;;
      ret (filter (fun hf => (1 <? List.length (snd hf))%nat)
             hash_to_files))%monad s).
Proof.
  split; [intros t p; apply selected_files_spec|].
  split.
  { intros t H. apply selected_files_NoDup. now apply nodup_keys_NoDup. }
  split; [|split].
  - intros tn s. unfold organize_by_date. cbv zeta.
    apply bind_ext. intros _ s1.
    exact (scan_guard src
             (fun organized img_file =>
                try_except
                  (organize_by_date_file src (joinpath src tn) img_file organized)
                  (fun e => print (ErrorProcessing img_file e) ;;
                            ret organized)) [] s1).
  - intros tn s. unfold organize_by_size. cbv zeta.
    apply bind_ext. intros _ s1. apply bind_ext. intros _ s2.
    exact (scan_guard src
             (fun organized img_file =>
                try_except
                  (organize_by_size_file src (size_categories (joinpath src tn))
                     img_file organized)
                  (fun e => print (ErrorProcessing img_file e) ;;
                            ret organized)) [] s2).
  - intros s. unfold find_duplicates. cbv zeta.
    unfold bind, scan_selected. rewrite glob_spec. cbv beta iota.
    now rewrite for_each_filter.
Qed.

(* ------------------------------------------------------------------ *)
(** ** The readers and the classifier *)

(** X1.  [calculate_file_hash] returns the digest of the whole content of
    a regular file that can be read and changes nothing; reading in blocks
    feeds the hash every byte once, in order, whatever the block size.  A
    path that names nothing raises [FileNotFoundError], a directory
    [IsADirectoryError], a file that cannot be opened [PermissionError]. *)
Theorem calculate_file_hash_whole_content (p : path) (s : state) :
  calculate_file_hash p s =
  match lookup p (files s) with
  | Some (File c _ true) => (Ret (md5_hexdigest c), s)
  | Some (File _ _ false) => (Raise PermissionError, s)
  | Some (Dir _) => (Raise IsADirectoryError, s)
  | None => (Raise FileNotFoundError, s)
  end /\
  (forall (size : nat) (c : bytes),
     (0 < size)%nat ->
     read_chunks size (S (List.length c)) c [] = Some c).
Proof.
  split; [apply calculate_file_hash_spec|].
  intros size c H. apply (read_chunks_all size H). lia.
Qed.

(** X2.  [get_image_size] never raises and changes nothing: it returns
    the dimensions Pillow reads from a regular file that can be opened and
    decoded, and [(0, 0)] for a path that names nothing, a directory, a
    file that cannot be opened and bytes that are no image. *)
Theorem get_image_size_total (p : path) (s : state) :
  get_image_size p s =
  (Ret match lookup p (files s) with
       | Some (File c _ true) =>
           match Image_decode c with
           | Some img => size img
           | None => (0, 0)%Z
           end
       | _ => (0, 0)%Z
       end, s).
Proof.
  unfold get_image_size, try_except, bind, Image_open, bind, open_rb.
  destruct (lookup p (files s)) as [[c m [|]|m]|]; try reflexivity.
  destruct (Image_decode c); reflexivity.
Qed.

(** X3.  The classifier depends on the number of pixels only: it gives
    the same category with width and height exchanged, always one of the
    three categories the size organizer has a folder for, so that the
    lookup of the folder always succeeds, and more pixels never give a
    smaller category. *)
Theorem categorize_by_size_pixels (w h w' h' : Z) (target : path) :
  categorize_by_size w h = categorize_by_size h w /\
  In (categorize_by_size w h) ["small"; "medium"; "large"]%string /\
  dict_get (categorize_by_size w h) (size_categories target)
  = Some (target // categorize_by_size w h) /\
  ((w * h <= w' * h')%Z ->
   (categorize_by_size w h = "large" -> categorize_by_size w' h' = "large") /\
   (categorize_by_size w' h' = "small" -> categorize_by_size w h = "small")).
Proof.
  split; [unfold categorize_by_size; now rewrite (Z.mul_comm w h)|].
  split.
  { unfold categorize_by_size. destruct (w * h <? 500000)%Z; [now left|].
    destruct (w * h <? 2000000)%Z; [right; now left|right; right; now left]. }
  split; [apply categories_get|].
  intros L. unfold categorize_by_size.
  destruct (w * h <? 500000)%Z eqn:A, (w * h <? 2000000)%Z eqn:B,
    (w' * h' <? 500000)%Z eqn:A', (w' * h' <? 2000000)%Z eqn:B';
    split; intros E; try discriminate E; try reflexivity;
    rewrite ?Z.ltb_lt, ?Z.ltb_ge in *; lia.
Qed.


(* ------------------------------------------------------------------ *)
(** ** What a run of an organizer comes to *)

Lemma mkdir_can_make (p : path) (s : state) :
  if can_make p (files s) then
    exists s', mkdir p s = (Ret tt, s') /\
      (s' = s \/ s' = set_files s (files s ++ [(p, Dir (clock s))])) /\
      exists m, lookup p (files s') = Some (Dir m)
  else exists e, mkdir p s = (Raise e, s).
Proof.
  unfold can_make, mkdir, try_except, os_mkdir.
  destruct (lookup p (files s)) as [[c m r|m]|] eqn:Ep.
  - exists FileExistsError. unfold bind, is_dir, raise. now rewrite Ep.
  - exists s. unfold bind, is_dir, ret. rewrite Ep.
    split; [reflexivity|]. split; [now left|now exists m].
  - destruct (lookup (parent p) (files s)) as [[c m r|m]|] eqn:Epp.
    + exists NotADirectoryError. unfold bind, is_dir, raise. now rewrite Ep.
    + eexists. split; [reflexivity|]. split; [now right|].
      exists (clock s). cbn [files set_files].
      now rewrite lookup_snoc, Ep, path_eqb_refl.
    + now exists FileNotFoundError.
Qed.

Lemma chosen_filter (will : fs -> path -> bool) (t : fs) (xs : list path) :
  chosen will t xs = filter (will t) (filter has_image_suffix xs).
Proof.
  unfold chosen. induction xs as [|x xs IH]; [reflexivity|]. cbn [filter].
  destruct (has_image_suffix x); cbn [andb filter]; [|exact IH].
  destruct (will t x); now rewrite IH.
Qed.

(** X5.  A run of the date organizer whose target is one folder name, as
    the default target is, raises only when that folder cannot be made,
    that is when a regular file has its name or when it is missing and the
    source is no directory; then nothing has changed.  In every other case
    the run returns: a failure on one entry never ends it.  Nothing that
    existed is changed, and the record holds one entry per copy made, one
    for each selected entry that is a regular file that can be read, whose
    date can be read and whose year and month folder can be made. *)
Theorem organize_by_date_outcome (src : path) (tn : string) (s : state) :
  plain_name tn = true ->
  if can_make (src // tn) (files s) then
    exists organized s',
      organize_by_date src tn s = (Ret organized, s') /\
      extends s s' /\
      total organized
      = List.length
          (filter (will_date (src // tn) (files (snd (mkdir (src // tn) s))))
             (selected_files src (files (snd (mkdir (src // tn) s))))) /\
      copies_under (src // tn) (files s')
      = (copies_under (src // tn) (files s) + total organized)%nat
  else
    exists e, organize_by_date src tn s = (Raise e, s).
Proof.
  intros Hp. pose proof (mkdir_can_make (src // tn) s) as M.
  rewrite (organize_by_date_unfold src tn Hp).
  fold (batch src (mkdir (src // tn))
          (fun organized img =>
             organize_by_date_file src (src // tn) img organized)).
  rewrite batch_unfold.
  destruct (can_make (src // tn) (files s)).
  - destruct M as (s1 & E & Hs1 & Hd). rewrite E. cbn [snd].
    destruct (batch_loop src tn 3
                (fun organized img =>
                   organize_by_date_file src (src // tn) img organized)
                (will_date (src // tn)) (plain_date (src // tn))
                (numbered_date tn) (date_inv src tn)
                (date_inv_extends src tn) (date_will_stable src tn)
                (fun organized img s => date_step src tn organized img s)
                (glob_list src (files s1)) [] s1 Hd
                (glob_list_exist src (files s1)))
      as (organized & s' & El & G & T & C & _).
    exists organized, s'. split; [exact El|].
    assert (X1 : extends s s1).
    { destruct Hs1 as [->| ->]; [apply extends_refl|apply extends_app]. }
    assert (C1 : copies_under (src // tn) (files s1)
                 = copies_under (src // tn) (files s)).
    { destruct Hs1 as [->| ->]; [reflexivity|]. cbn [files set_files].
      now rewrite copies_under_app, copies_under_dir, Nat.add_0_r. }
    split; [exact (extends_trans _ _ _ X1 (grows_extends _ _ _ _ G))|].
    rewrite chosen_filter in T, C. fold (selected_files src (files s1)) in T, C.
    cbn [total fold_right] in T. split; [exact T|]. rewrite C, C1, T.
    reflexivity.
  - destruct M as (e & E). rewrite E. now exists e.
Qed.





(* ------------------------------------------------------------------ *)
(** ** What the duplicate finder reports *)

Lemma find_body_report (x : path) (d : dict (list path)) (s : state) :
  find_body d x s
  = (Ret (group_step (files s) d x),
     mk_state (files s)
       (stdout s ++ if has_image_suffix x then hashing_error (files s) x
                    else [])
       (clock s)).
Proof.
  unfold find_body, group_step, hash_of, hashing_error.
  destruct (has_image_suffix x).
  - unfold try_except, bind at 1. rewrite calculate_file_hash_spec.
    destruct (lookup x (files s)) as [[c m [|]|m]|]; try reflexivity.
    unfold ret. rewrite app_nil_r. now destruct s.
  - unfold ret. rewrite app_nil_r. now destruct s.
Qed.

Lemma find_loop_report (xs : list path) :
  forall d s,
    for_each xs d find_body s
    = (Ret (fold_left (group_step (files s)) xs d),
       mk_state (files s)
         (stdout s ++ flat_map (hashing_error (files s))
                        (filter has_image_suffix xs))
         (clock s)).
Proof.
  induction xs as [|x xs IH]; intros d s.
  - simpl. unfold ret. rewrite app_nil_r. now destruct s.
  - cbn [for_each fold_left filter]. unfold bind.
    rewrite find_body_report, IH. cbn [files stdout clock].
    destruct (has_image_suffix x); cbn [flat_map].
    + now rewrite <- app_assoc.
    + now rewrite app_nil_r.
Qed.

Lemma find_duplicates_report_eq (src : path) (s : state) :
  find_duplicates src s
  = (Ret (duplicates_of src (files s)),
     mk_state (files s)
       (stdout s ++ flat_map (hashing_error (files s))
                      (selected_files src (files s)))
       (clock s)).
Proof.
  unfold find_duplicates, duplicates_of. unfold bind at 1.
  rewrite glob_spec. unfold bind at 1.
  pose proof (find_loop_report (glob_list src (files s)) [] s) as E.
  change (for_each (glob_list src (files s)) [] find_body s
          = (Ret (fold_left (group_step (files s)) (glob_list src (files s)) []),
             mk_state (files s)
               (stdout s ++ flat_map (hashing_error (files s))
                              (selected_files src (files s)))
               (clock s))) in E.
  rewrite_loop E. reflexivity.
Qed.

(** X7.  The duplicate finder never raises and changes no file.  It
    prints one line per selected entry it cannot read, in scan order,
    and nothing else: for a file that cannot be opened the permission
    error, for a directory whose name has a supported extension the error
    of opening a directory; an entry the scan has listed is never reported
    missing.  The entries reported are in no group. *)
Theorem find_duplicates_report (src : path) (s : state) :
  exists dups,
    find_duplicates src s
    = (Ret dups,
       mk_state (files s)
         (stdout s ++ flat_map (hashing_error (files s))
                        (selected_files src (files s)))
         (clock s)) /\
    (forall p, In p (selected_files src (files s)) ->
       hashing_error (files s) p <> [ErrorHashing p FileNotFoundError]) /\
    (forall h g p, In (h, g) dups -> In p g ->
       hashing_error (files s) p = []).
Proof.
  exists (duplicates_of src (files s)).
  split; [apply find_duplicates_report_eq|]. split.
  - intros p Hp. unfold selected_files in Hp. apply filter_In in Hp as [Hp _].
    pose proof (glob_list_exist src (files s)) as F.
    rewrite Forall_forall in F. specialize (F p Hp).
    unfold hashing_error.
    destruct (lookup p (files s)) as [[c m [|]|m]|];
      [discriminate|discriminate|discriminate|contradiction].
  - intros h g p Hg Hp.
    destruct (dups_members src (files s) h g p Hg Hp) as [_ Hh].
    unfold hash_of in Hh. unfold hashing_error.
    destruct (lookup p (files s)) as [[c m [|]|m]|]; try discriminate.
    reflexivity.
Qed.

(* ------------------------------------------------------------------ *)
(** ** After the removal *)

Lemma kept_out_true (ps : list path) (p : path) :
  kept_out ps p = true <-> ~ In p ps.
Proof.
  unfold kept_out. destruct (in_dec (list_eq_dec string_dec) p ps);
    split; intros H; try assumption; try reflexivity; try discriminate.
  contradiction.
Qed.

Lemma filter_filter {X} (f g : X -> bool) (l : list X) :
  filter f (filter g l) = filter (fun x => g x && f x) l.
Proof.
  induction l as [|x l IH]; [reflexivity|]. cbn [filter].
  destruct (g x); cbn [filter andb]; [|exact IH].
  destruct (f x); now rewrite IH.
Qed.

Lemma filter_comm {X} (f g : X -> bool) (l : list X) :
  filter f (filter g l) = filter g (filter f l).
Proof.
  rewrite !filter_filter. apply filter_ext. intros x. apply andb_comm.
Qed.

Lemma filter_map_swap {X Y} (f : X -> Y) (p : Y -> bool) (l : list X) :
  filter p (map f l) = map f (filter (fun x => p (f x)) l).
Proof.
  induction l as [|x l IH]; [reflexivity|]. cbn [map filter].
  destruct (p (f x)); cbn [map]; now rewrite IH.
Qed.

Lemma filter_length_weaker {X} (f g : X -> bool) (l : list X) :
  (forall x, In x l -> f x = true -> g x = true) ->
  (List.length (filter f l) <= List.length (filter g l))%nat.
Proof.
  induction l as [|x l IH]; intros H; [apply Nat.le_refl|]. cbn [filter].
  assert (IH' : (List.length (filter f l) <= List.length (filter g l))%nat).
  { apply IH. intros y Hy. apply H. now right. }
  destruct (f x) eqn:F.
  - rewrite (H x (or_introl eq_refl) F). cbn. lia.
  - destruct (g x); cbn; lia.
Qed.

Lemma filter_none {X} (f : X -> bool) (l : list X) :
  (forall x, In x l -> f x = false) -> filter f l = [].
Proof.
  induction l as [|x l IH]; intros H; [reflexivity|]. cbn [filter].
  rewrite (H x (or_introl eq_refl)). apply IH. intros y Hy. apply H.
  now right.
Qed.

Lemma remove_all_filter (ps : list path) :
  forall t, remove_all ps t = filter (fun e => kept_out ps (fst e)) t.
Proof.
  unfold remove_all.
  induction ps as [|p ps IH]; intros t; cbn [fold_left].
  - symmetry. apply forallb_filter_id. apply forallb_forall. reflexivity.
  - rewrite IH. unfold remove. rewrite filter_filter. apply filter_ext.
    intros [q n]. cbn [fst]. unfold kept_out.
    destruct (in_dec (list_eq_dec string_dec) q ps) as [Hin|Hn];
      destruct (in_dec (list_eq_dec string_dec) q (p :: ps)) as [Hin'|Hn'];
      try reflexivity.
    + now rewrite andb_false_r.
    + exfalso. apply Hn'. now right.
    + destruct Hin' as [->|Hin']; [|contradiction].
      now rewrite path_eqb_refl.
    + rewrite andb_true_r. destruct (path_eqb q p) eqn:E; [|reflexivity].
      apply path_eqb_eq in E. subst q. exfalso. apply Hn'. now left.
Qed.

Lemma scandir_filter (src : path) (f : path -> bool) (t : fs) :
  scandir src (filter (fun e => f (fst e)) t)
  = filter (fun n => f (src // n)) (scandir src t).
Proof.
  unfold scandir. induction t as [|[p n] t IH]; [reflexivity|].
  cbn [filter flat_map fst].
  destruct (child_name src p) as [c|] eqn:E.
  - apply child_name_Some in E. subst p. cbn [app filter].
    destruct (f (src // c)).
    + cbn [flat_map fst].
      assert (E : child_name src (src // c) = Some c)
        by now apply child_name_Some.
      rewrite E. cbn [app]. now rewrite IH.
    + exact IH.
  - cbn [app]. destruct (f p); [|exact IH].
    cbn [flat_map fst]. rewrite E. exact IH.
Qed.

Lemma child_neq (src : path) (n : string) : src // n <> src.
Proof.
  intros E. apply (f_equal (@List.length _)) in E.
  rewrite child_length in E. lia.
Qed.

(** The selection after entries of the source directory are removed. *)
Lemma selected_files_remove_all (src : path) (ps : list path) (t : fs) :
  ~ In src ps ->
  selected_files src (remove_all ps t)
  = filter (kept_out ps) (selected_files src t).
Proof.
  intros Hs. unfold selected_files, glob_list.
  rewrite (lookup_remove_all_out _ _ _ Hs).
  destruct (lookup src t) as [[c m r|m]|]; try reflexivity.
  rewrite remove_all_filter, scandir_filter.
  rewrite (filter_comm (kept_out ps) has_image_suffix). f_equal.
  rewrite filter_map_swap. f_equal. apply filter_comm.
Qed.

Lemma has_digest_remove_all (ps : list path) (t : fs) (h : string) (p : path) :
  ~ In p ps -> has_digest (remove_all ps t) h p = has_digest t h p.
Proof.
  intros H. unfold has_digest, hash_of. now rewrite lookup_remove_all_out.
Qed.

Lemma doomed_length (keep : string) (l : list path) :
  List.length (doomed keep l) = (List.length l - 1)%nat.
Proof.
  unfold doomed. destruct (String.eqb keep "last").
  - destruct l as [|a l] using rev_ind; [reflexivity|].
    rewrite removelast_last, length_app. cbn. lia.
  - destruct l; cbn; lia.
Qed.

(** Of a group without repetition at most one member is not doomed. *)
Lemma survivors_one (keep : string) (l : list path) :
  (List.length (filter (kept_out (doomed keep l)) l) <= 1)%nat.
Proof.
  unfold doomed. destruct (String.eqb keep "last").
  - destruct l as [|a l _] using rev_ind; [cbn; lia|].
    rewrite removelast_last, filter_app, length_app.
    rewrite (filter_none (kept_out l) l).
    + cbn. destruct (kept_out l a); cbn; lia.
    + intros x Hx. unfold kept_out.
      now destruct (in_dec (list_eq_dec string_dec) x l).
  - destruct l as [|a l]; [cbn; lia|]. cbn [tl filter].
    rewrite (filter_none (kept_out l) l).
    + destruct (kept_out l a); cbn; lia.
    + intros x Hx. unfold kept_out.
      now destruct (in_dec (list_eq_dec string_dec) x l).
Qed.

Lemma Permutation_filter_length {X} (f : X -> bool) (l l' : list X) :
  Permutation l l' -> List.length (filter f l) = List.length (filter f l').
Proof.
  induction 1 as [|x l l' P IH|x y l|l l' l'' P IH P' IH']; cbn [filter].
  - reflexivity.
  - destruct (f x); cbn; now rewrite IH.
  - destruct (f x), (f y); reflexivity.
  - now rewrite IH.
Qed.

Lemma victims_children (src : path) (keep : string) (t : fs) :
  ~ In src (victims keep t (duplicates_of src t)).
Proof.
  intros H. apply victims_incl in H.
  apply in_flat_map in H as ([h g] & Hg & Hp).
  destruct (dups_members src t h g src Hg Hp) as [Hs _].
  apply selected_files_spec in Hs as (_ & n & E & _).
  symmetry in E. now apply child_neq in E.
Qed.

(** No digest is shared once the victims are gone. *)
Lemma duplicates_of_removed (src : path) (keep : string) (t : fs) :
  duplicates_of src (remove_all (victims keep t (duplicates_of src t)) t) = [].
Proof.
  set (V := victims keep t (duplicates_of src t)).
  destruct (duplicates_of src (remove_all V t)) as [|[h g] d] eqn:E;
    [reflexivity|]. exfalso.
  assert (Hg : In (h, g) (duplicates_of src (remove_all V t)))
    by (rewrite E; now left).
  apply duplicates_of_spec in Hg as [Eg L].
  rewrite (selected_files_remove_all src V t (victims_children src keep t))
    in Eg.
  assert (Eg' : g = filter (kept_out V)
                      (filter (has_digest t h) (selected_files src t))).
  { rewrite Eg, filter_comm. rewrite !filter_filter. apply filter_ext_in.
    intros p _. destruct (kept_out V p) eqn:K; [|now rewrite !andb_false_r].
    apply kept_out_true in K. now rewrite (has_digest_remove_all V t h p K). }
  set (g0 := filter (has_digest t h) (selected_files src t)) in *.
  destruct (le_lt_dec 2 (List.length g0)) as [L2|L1].
  - assert (H0 : In (h, g0) (duplicates_of src t))
      by (apply duplicates_of_spec; now split).
    assert (W : (List.length g
                 <= List.length
                      (filter (kept_out (doomed keep (sorted_group t g0)))
                         g0))%nat).
    { rewrite Eg'. apply filter_length_weaker. intros p _ K.
      apply kept_out_true in K. apply kept_out_true. intros D. apply K.
      unfold V, victims. apply in_flat_map. now exists (h, g0). }
    rewrite (Permutation_filter_length _ _ _
               (Permutation_sym (sorted_group_perm t g0))) in W.
    pose proof (survivors_one keep (sorted_group t g0)). lia.
  - assert (W : (List.length g <= List.length g0)%nat).
    { rewrite Eg'. apply filter_length_le. }
    lia.
Qed.

(** X8.  Removal settles the directory: on a file system that binds no
    path twice, after [remove_duplicates] the duplicate finder finds no
    group, whichever file of each group was kept, and a second removal
    deletes nothing and returns the empty list. *)
Theorem remove_duplicates_settles (src : path) (keep keep' : string)
    (s : state) :
  nodup_keys (files s) = true ->
  let s1 := snd (remove_duplicates src keep s) in
  fst (find_duplicates src s1) = Ret [] /\
  fst (remove_duplicates src keep' s1) = Ret [] /\
  files (snd (remove_duplicates src keep' s1)) = files s1.
Proof.
  intros Hnk s1.
  destruct (remove_duplicates_spec src keep s Hnk) as (out & _ & E).
  assert (Ef : files s1
               = remove_all (victims keep (files s)
                               (duplicates_of src (files s))) (files s)).
  { unfold s1. now rewrite E. }
  assert (Ed : duplicates_of src (files s1) = []).
  { rewrite Ef. apply duplicates_of_removed. }
  split; [|split].
  - now rewrite find_duplicates_report_eq, Ed.
  - unfold remove_duplicates, bind.
    now rewrite find_duplicates_report_eq, Ed.
  - unfold remove_duplicates, bind.
    now rewrite find_duplicates_report_eq, Ed.
Qed.

Lemma flat_map_length_sum {X Y} (f : X -> list Y) (l : list X) :
  List.length (flat_map f l) = list_sum (map (fun x => List.length (f x)) l).
Proof.
  induction l as [|x l IH]; [reflexivity|]. cbn [flat_map map list_sum].
  now rewrite length_app, IH.
Qed.

Lemma remove_all_length (ps : list path) (t : fs) :
  NoDup ps -> NoDup (map fst t) -> incl ps (map fst t) ->
  (List.length (remove_all ps t) + List.length ps = List.length t)%nat.
Proof.
  intros Np Nt I. rewrite remove_all_filter.
  rewrite <- (filter_length (fun e => kept_out ps (fst e)) t).
  f_equal.
  rewrite <- (length_map fst
                (filter (fun x => negb (kept_out ps (fst x))) t)).
  rewrite <- (filter_map_swap fst (fun p => negb (kept_out ps p))).
  apply Permutation_length. apply NoDup_Permutation.
  - exact Np.
  - now apply NoDup_filter.
  - intros x. rewrite filter_In. split.
    + intros Hx. split; [now apply I|].
      destruct (kept_out ps x) eqn:K; [|reflexivity].
      apply kept_out_true in K. contradiction.
    + intros [_ K]. destruct (kept_out ps x) eqn:K'; [discriminate|].
      unfold kept_out in K'.
      now destruct (in_dec (list_eq_dec string_dec) x ps).
Qed.

Lemma victims_NoDup (src : path) (keep : string) (t : fs) :
  NoDup (map fst t) -> NoDup (victims keep t (duplicates_of src t)).
Proof.
  intros Hnk. unfold victims.
  pose proof (dups_NoDup src t Hnk) as Nd.
  revert Nd. generalize (duplicates_of src t).
  induction d as [|[h g] d IH]; intros Nd; [constructor|].
  cbn [flat_map snd] in Nd |- *.
  pose proof (NoDup_app_remove_r _ _ Nd) as Nr.
  pose proof (NoDup_app_remove_l _ _ Nd) as Nl.
  apply NoDup_app_intro.
  - apply doomed_NoDup.
    apply (Permutation_NoDup (Permutation_sym (sorted_group_perm t g))).
    exact Nr.
  - apply IH. exact Nl.
  - intros p Hp Hq. apply doomed_incl in Hp.
    apply (Permutation_in _ (sorted_group_perm t g)) in Hp.
    apply (NoDup_app_disjoint _ _ p Nd Hp).
    apply in_flat_map in Hq as ([h' g'] & Hin & Hq). cbn [snd] in Hq.
    apply doomed_incl in Hq.
    apply (Permutation_in _ (sorted_group_perm t g')) in Hq.
    apply in_flat_map. now exists (h', g').
Qed.

(** Every victim is one entry less. *)
Lemma victims_length (src : path) (keep : string) (t : fs) :
  NoDup (map fst t) ->
  (List.length (remove_all (victims keep t (duplicates_of src t)) t)
   + List.length (victims keep t (duplicates_of src t))
   = List.length t)%nat.
Proof.
  intros Hnk. apply remove_all_length; [|exact Hnk|].
  - now apply victims_NoDup.
  - intros p Hp. apply victims_incl in Hp.
    pose proof (dups_files src t) as F.
    rewrite Forall_forall in F. destruct (F p Hp) as (c & m & r & Hl).
    now apply lookup_In_keys in Hl.
Qed.

(** X9.  On a file system that binds no path twice the remover returns
    one name per file it deletes, and deletes all but one file of every
    group: a group of [n] files gives [n - 1] names, and the file system
    has as many entries fewer as names are returned. *)
Theorem remove_duplicates_count (src : path) (keep : string) (s : state)
    (dups : dict (list path)) (s1 : state) :
  nodup_keys (files s) = true ->
  find_duplicates src s = (Ret dups, s1) ->
  exists removed s',
    remove_duplicates src keep s = (Ret removed, s') /\
    List.length removed
    = list_sum (map (fun hf => (List.length (snd hf) - 1)%nat) dups) /\
    (List.length (files s') + List.length removed
     = List.length (files s))%nat.
Proof.
  intros Hnk Ef.
  destruct (remove_duplicates_spec src keep s Hnk) as (out & Ef' & E).
  rewrite Ef in Ef'. injection Ef' as -> ->.
  set (V := victims keep (files s) (duplicates_of src (files s))) in *.
  do 2 eexists. split; [exact E|]. rewrite length_map. split.
  - unfold V, victims. rewrite flat_map_length_sum. f_equal.
    apply map_ext. intros [h g]. cbn [snd].
    now rewrite doomed_length, sorted_group_length.
  - cbn [files]. apply nodup_keys_NoDup in Hnk.
    now apply victims_length.
Qed.

(* ------------------------------------------------------------------ *)
(** ** A source that is no directory, and files of the same age *)

Lemma selected_files_no_dir (src : path) (t : fs) :
  (forall m, lookup src t <> Some (Dir m)) -> selected_files src t = [].
Proof.
  intros H. unfold selected_files, glob_list.
  destruct (lookup src t) as [[c m r|m]|]; try reflexivity.
  now destruct (H m).
Qed.

(** X10.  When the source names no directory, the duplicate finder
    returns no group and the remover deletes nothing and returns the empty
    list, both without a message and without an error.  The two
    organizers, with a target that is one folder name as the default
    targets are, raise before they do anything, unless their target happens
    to be there: [FileNotFoundError] when the source names nothing,
    [NotADirectoryError] when it names a regular file. *)
Theorem source_is_no_directory (src : path) (tn keep : string) (s : state) :
  (forall m, lookup src (files s) <> Some (Dir m)) ->
  find_duplicates src s = (Ret [], s) /\
  remove_duplicates src keep s = (Ret [], s) /\
  (plain_name tn = true ->
   lookup (src // tn) (files s) = None ->
   let e := match lookup src (files s) with
            | None => FileNotFoundError
            | Some _ => NotADirectoryError
            end in
   organize_by_date src tn s = (Raise e, s) /\
   organize_by_size src tn s = (Raise e, s)).
Proof.
  intros H.
  assert (Ef : find_duplicates src s = (Ret [], s)).
  { rewrite find_duplicates_report_eq.
    assert (Ed : duplicates_of src (files s) = []).
    { unfold duplicates_of, glob_list.
      destruct (lookup src (files s)) as [[c m r|m]|]; try reflexivity.
      now destruct (H m). }
    rewrite Ed, (selected_files_no_dir _ _ H). cbn [flat_map].
    rewrite app_nil_r. now destruct s. }
  split; [exact Ef|]. split.
  - unfold remove_duplicates, bind. now rewrite Ef.
  - intros Hp Ht e.
    assert (Em : mkdir (src // tn) s = (Raise e, s)).
    { unfold mkdir, try_except, os_mkdir. rewrite Ht, parent_child.
      subst e. destruct (lookup src (files s)) as [[c m r|m]|].
      - unfold bind, is_dir, raise. now rewrite Ht.
      - now destruct (H m).
      - reflexivity. }
    split.
    + unfold organize_by_date. cbv zeta. rewrite (joinpath_plain src tn Hp).
      unfold bind at 1. now rewrite Em.
    + unfold organize_by_size. cbv zeta. rewrite (joinpath_plain src tn Hp).
      unfold bind at 1. now rewrite Em.
Qed.

(** X11.  The sort of a duplicate group returns a rearrangement of the
    group in ascending order of modification time and changes nothing; it
    is stable, so files of the same age stay in scan order.  For a group
    whose files all have the same modification time the order is the scan
    order: the remover then keeps the file scanned first, or with
    [keep = 'last'] the file scanned last. *)
Theorem sort_by_mtime_stable (g : list path) (s : state) :
  Forall (is_file_in (files s)) g ->
  exists l,
    sort_by_mtime g s = (Ret l, s) /\
    Permutation l g /\
    StronglySorted
      (fun a b => (mtime_in (files s) a <= mtime_in (files s) b)%Z) l /\
    (forall m,
       filter (fun f => (mtime_in (files s) f =? m)%Z) l
       = filter (fun f => (mtime_in (files s) f =? m)%Z) g) /\
    ((forall f f', In f g -> In f' g ->
        mtime_in (files s) f = mtime_in (files s) f') ->
     l = g).
Proof.
  intros F. exists (sorted_group (files s) g).
  split; [now apply sort_by_mtime_spec|].
  split; [apply sorted_group_perm|]. split; [apply sorted_group_sorted|].
  assert (St : forall m,
             filter (fun f => (mtime_in (files s) f =? m)%Z)
               (sorted_group (files s) g)
             = filter (fun f => (mtime_in (files s) f =? m)%Z) g).
  { intros m. unfold sorted_group.
    set (keyed := map (fun f => (mtime_in (files s) f, f)) g).
    assert (K : forall l : list (Z * path),
               Forall (fun kf => fst kf = mtime_in (files s) (snd kf)) l ->
               filter (fun f => (mtime_in (files s) f =? m)%Z) (map snd l)
               = map snd (filter (fun a => (fst a =? m)%Z) l)).
    { induction 1 as [|[k f] l Hk Fl IH]; [reflexivity|].
      cbn [map filter fst snd] in *. subst k.
      destruct (mtime_in (files s) f =? m)%Z; cbn [map snd]; now rewrite IH. }
    rewrite K.
    - rewrite sort_by_key_stable, <- K.
      + unfold keyed. rewrite map_map. cbn [snd]. now rewrite map_id.
      + unfold keyed. apply Forall_forall. intros kf H.
        apply in_map_iff in H as (f & <- & _). reflexivity.
    - rewrite sort_by_key_perm. unfold keyed. apply Forall_forall.
      intros kf H. apply in_map_iff in H as (f & <- & _). reflexivity. }
  split; [exact St|].
  intros Hall. destruct g as [|f0 g0] eqn:Eg.
  - reflexivity.
  - rewrite <- Eg in *.
    assert (A : forall l, (forall f, In f l -> In f g) ->
              filter (fun f => (mtime_in (files s) f
                                =? mtime_in (files s) f0)%Z) l = l).
    { intros l Hl. apply forallb_filter_id. apply forallb_forall. intros f Hf.
      apply Z.eqb_eq. apply Hall; [now apply Hl|]. rewrite Eg. now left. }
    rewrite <- (A (sorted_group (files s) g)).
    + rewrite St. apply A. auto.
    + intros f Hf.
      now apply (Permutation_in _ (sorted_group_perm (files s) g)).
Qed.

(* ------------------------------------------------------------------ *)
(** ** The namespace of an accepted command line *)

Lemma parse_tokens_keep (argv : list token) :
  forall st st',
  parse_tokens argv st = inr st' ->
  ps_keep st' = last_keep argv (ps_keep st).
Proof.
  induction argv as [|t argv IH]; intros st st' H.
  - simpl in H. now injection H as <-.
  - destruct st as [src ex bd bs fd rd kp].
    destruct t as [v| | | | |v| |o]; cbn [parse_tokens] in H;
      try discriminate;
      try (destruct src);
      try (destruct (String.eqb v "first" || String.eqb v "last");
           [|discriminate]);
      apply IH in H; exact H.
Qed.

Lemma given_In (f : token) (argv : list token) :
  In f [TByDate; TBySize; TFindDupes; TRemoveDupes] ->
  given f argv = true <-> In f argv.
Proof.
  intros Hf. unfold given. rewrite existsb_exists. split.
  - intros (t & Ht & E).
    assert (t = f) as ->; [|exact Ht].
    cbn in Hf. decompose [or] Hf; try contradiction; subst f;
      destruct t; try discriminate E; reflexivity.
  - intros H. exists f. split; [exact H|].
    cbn in Hf. decompose [or] Hf; try contradiction; subst f; reflexivity.
Qed.

Lemma parse_tokens_exit (a : list token) :
  forall st0 r, parse_tokens a st0 = inl r ->
  r = Exit 2 \/ (r = Exit 0 /\ In THelp a).
Proof.
  induction a as [|t a IH]; intros st0 r H; [discriminate|].
  destruct st0 as [src ex bd bs fd rd kp].
  assert (R : forall st1, parse_tokens a st1 = inl r ->
              r = Exit 2 \/ (r = Exit 0 /\ In THelp (t :: a))).
  { intros st1 H1. destruct (IH _ _ H1) as [->|[-> Hin]];
      [now left|right; split; [reflexivity|now right]]. }
  destruct t as [v| | | | |v| |o]; cbn [parse_tokens] in H;
    try (eapply R; exact H).
  - destruct src; eapply R; exact H.
  - destruct (String.eqb v "first" || String.eqb v "last");
      [eapply R; exact H|]. injection H as <-. now left.
  - injection H as <-. right. split; [reflexivity|now left].
Qed.

Lemma bool_eq_iff (a b : bool) : (a = true <-> b = true) -> a = b.
Proof. destruct a, b; intros [H1 H2]; auto; symmetry; auto. Qed.

(** X12.  The namespace of an accepted command line does not depend on
    the order of its options: the source is the positional, each mode flag
    is set exactly when its option occurs, however often, and the
    retention choice is the value of the last [--keep], ['first'] when
    there is none.  A rejected command line ends with status 0 only when
    [--help] occurs in it, otherwise with status 2. *)
Theorem parse_args_namespace (argv : list token) :
  (accepts argv = true ->
   parse_args argv
   = Parsed (mk_Namespace (hd [] (positionals argv))
               (given TByDate argv) (given TBySize argv)
               (given TFindDupes argv) (given TRemoveDupes argv)
               (last_keep argv "first"))) /\
  (accepts argv = false ->
   parse_args argv = Exit 2 \/
   (parse_args argv = Exit 0 /\ In THelp argv)).
Proof.
  split.
  - intros A. destruct (parse_args_accepted argv A) as (args & E).
    rewrite E. f_equal.
    destruct (parse_args_Parsed argv args E)
      as (_ & P & F1 & F2 & F3 & F4 & _).
    assert (K : keep args = last_keep argv "first").
    { unfold parse_args in E.
      destruct (parse_tokens argv parse_init) as [r|st] eqn:Et.
      - subst r. destruct (parse_tokens_exit _ _ _ Et) as [X|[X _]];
          discriminate X.
      - destruct (ps_source st); [|discriminate].
        destruct (ps_extras st); [discriminate|]. injection E as <-.
        cbn [keep]. exact (parse_tokens_keep _ _ _ Et). }
    destruct args as [so bd bs fd rd kp]. cbn in *. rewrite P. cbn [hd].
    f_equal.
    + apply bool_eq_iff. rewrite F1. symmetry. apply given_In. cbn. auto.
    + apply bool_eq_iff. rewrite F2. symmetry. apply given_In. cbn. auto.
    + apply bool_eq_iff. rewrite F3. symmetry. apply given_In. cbn. auto.
    + apply bool_eq_iff. rewrite F4. symmetry. apply given_In. cbn. auto 6.
    + exact K.
  - intros A. destruct (parse_args argv) as [args|status] eqn:E.
    + destruct (parse_args_Parsed argv args E) as (A' & _). congruence.
    + unfold parse_args in E.
      destruct (parse_tokens argv parse_init) as [r|st] eqn:Et.
      * subst r. destruct (parse_tokens_exit _ _ _ Et) as [X|[X Hin]];
          injection X as ->; [now left|now right].
      * destruct (ps_source st); [|injection E as <-; now left].
        destruct (ps_extras st); [injection E as <-; now left|discriminate].
Qed.

(* ------------------------------------------------------------------ *)
(** ** What [main] prints *)

Lemma bind_Ret {A B} (c : M A) (k : A -> M B) (s s' : state) (b : B) :
  bind c k s = (Ret b, s') ->
  exists a s1, c s = (Ret a, s1) /\ k a s1 = (Ret b, s').
Proof.
  unfold bind. destruct (c s) as [[a|e|] s1]; try discriminate.
  intros H. now exists a, s1.
Qed.

Lemma organize_by_date_file_key (src target img : path)
    (organized organized' : dict (list (string * string))) (s s' : state) :
  organize_by_date_file src target img organized s = (Ret organized', s') ->
  exists new, organized' = dict_append "date" (name img, new) organized.
Proof.
  unfold organize_by_date_file. intros H.
  apply bind_Ret in H as (d & s1 & _ & H).
  apply bind_Ret in H as (u & s2 & _ & H).
  apply bind_Ret in H as (fuel & s3 & _ & H).
  apply bind_Ret in H as (tf & s4 & _ & H).
  apply bind_Ret in H as (u' & s5 & _ & H).
  apply bind_Ret in H as (rel & s6 & _ & H).
  unfold ret in H. injection H as <- _. now exists (path_str rel).
Qed.

(** The record of the date organizer has no key but ['date']. *)
Lemma date_loop_key (src target : path) (xs : list path) :
  forall organized s organized' s',
  for_each xs organized
    (guarded (fun organized img =>
                organize_by_date_file src target img organized)) s
  = (Ret organized', s') ->
  organized = [] \/ (exists l, organized = [("date"%string, l)]) ->
  organized' = [] \/ exists l, organized' = [("date"%string, l)].
Proof.
  induction xs as [|x xs IH]; intros organized s organized' s' H Hs.
  - cbn in H. unfold ret in H. now injection H as <- _.
  - cbn [for_each] in H. apply bind_Ret in H as (o1 & s1 & H1 & H).
    apply (IH _ _ _ _ H). unfold guarded in H1.
    destruct (has_image_suffix x).
    + unfold try_except in H1.
      destruct (organize_by_date_file src target x organized s)
        as [[o|e|] s2] eqn:E.
      * injection H1 as <- _.
        apply organize_by_date_file_key in E as (new & ->). right.
        destruct Hs as [->|[l ->]]; cbn; eauto.
      * unfold bind, print, ret in H1. now injection H1 as <- _.
      * discriminate.
    + unfold ret in H1. now injection H1 as <- _.
Qed.

Lemma print_each {X} (f : X -> printed) (l : list X) :
  forall s,
  for_each l tt (fun _ x => print (f x)) s
  = (Ret tt, mk_state (files s) (stdout s ++ map f l) (clock s)).
Proof.
  induction l as [|x l IH]; intros s.
  - cbn. unfold ret. rewrite app_nil_r. now destruct s.
  - cbn [for_each map]. unfold bind. unfold print at 1. rewrite IH.
    cbn [files stdout clock]. now rewrite <- app_assoc.
Qed.

Lemma print_each_nested {X Y} (f : X -> Y -> printed) (g : X -> list Y)
    (l : list X) :
  forall s,
  for_each l tt (fun _ x => for_each (g x) tt (fun _ y => print (f x y))) s
  = (Ret tt,
     mk_state (files s) (stdout s ++ flat_map (fun x => map (f x) (g x)) l)
       (clock s)).
Proof.
  induction l as [|x l IH]; intros s.
  - cbn. unfold ret. rewrite app_nil_r. now destruct s.
  - cbn [for_each flat_map]. unfold bind.
    rewrite (print_each (f x) (g x) s), IH.
    cbn [files stdout clock]. now rewrite <- app_assoc.
Qed.

Lemma total_values {X} (d : dict (list X)) :
  total d = List.length (values d).
Proof.
  unfold values, total. induction d as [|[k l] d IH]; [reflexivity|].
  cbn [fold_right flat_map snd]. rewrite length_app. f_equal. exact IH.
Qed.

(** X13.  [main] lists every copy an organizer has made.  With
    [--by-date] it prints the heading and then one line per entry of the
    record, in the order the copies were made: the record of the date
    organizer has no key but ['date'], the one [main] reads.  With
    [--by-size] it prints the heading and one line per entry, category
    after category.  An error the organizer raises passes through [main]
    with nothing printed by it. *)
Theorem main_lists_every_copy (args : Namespace) (s : state) :
  (forall result s1,
     organize_by_date (source args) "organized_by_date" s = (Ret result, s1) ->
     main_by_date args s
     = (Ret tt,
        mk_state (files s1)
          (stdout s1 ++
           Line "Organized by date:"
           :: map (fun ff => DateEntry (fst ff) (snd ff)) (values result))
          (clock s1)) /\
     List.length (values result) = total result) /\
  (forall result s1,
     organize_by_size (source args) "organized_by_size" s = (Ret result, s1) ->
     main_by_size args s
     = (Ret tt,
        mk_state (files s1)
          (stdout s1 ++
           Line "Organized by size:"
           :: flat_map
                (fun cf => map (fun on => SizeEntry (fst cf) (fst on) (snd on))
                             (snd cf)) result)
          (clock s1)) /\
     List.length (values result) = total result) /\
  (forall e s1,
     organize_by_date (source args) "organized_by_date" s = (Raise e, s1) ->
     main_by_date args s = (Raise e, s1)) /\
  (forall e s1,
     organize_by_size (source args) "organized_by_size" s = (Raise e, s1) ->
     main_by_size args s = (Raise e, s1)).
Proof.
  split; [|split; [|split]].
  - intros result s1 E. split; [|symmetry; apply total_values].
    unfold main_by_date. unfold bind at 1. rewrite E.
    unfold bind at 1. unfold print at 1.
    rewrite (print_each (fun ff => DateEntry (fst ff) (snd ff))).
    cbn [files stdout clock]. rewrite <- app_assoc. cbn [app].
    assert (K : match dict_get "date" result with
                | Some l => l
                | None => []
                end = values result).
    { assert (Sh : result = []
                   \/ exists l, result = [("date"%string, l)]).
      { rewrite (organize_by_date_unfold _ "organized_by_date" eq_refl) in E.
        apply bind_Ret in E as (u & s2 & _ & E).
        apply bind_Ret in E as (imgs & s3 & _ & E).
        apply (date_loop_key _ _ _ _ _ _ _ E). now left. }
      destruct Sh as [->|[l ->]]; [reflexivity|].
      cbn. now rewrite app_nil_r. }
    now rewrite K.
  - intros result s1 E. split; [|symmetry; apply total_values].
    unfold main_by_size. unfold bind at 1. rewrite E.
    unfold bind at 1. unfold print at 1.
    rewrite (print_each_nested
               (fun cf on => SizeEntry (fst cf) (fst on) (snd on)) snd).
    cbn [files stdout clock]. rewrite <- app_assoc. reflexivity.
  - intros e s1 E. unfold main_by_date. unfold bind at 1. now rewrite E.
  - intros e s1 E. unfold main_by_size. unfold bind at 1. now rewrite E.
Qed.

(** X14.  What [main] prints about duplicates.  With [--find-dupes] no
    file changes and [main] prints, after the messages of the finder, the
    line that none were found when there is no group, otherwise the heading
    and one line per group with the number of its files and their names.
    With [--remove-dupes], on a file system that binds no path twice, it
    prints the line that there is nothing to remove exactly when no file
    was deleted, otherwise the number of deleted files and one line per
    deleted file; the number printed is the number of entries the file
    system has lost. *)
Theorem main_reports_duplicates (args : Namespace) (s : state) :
  (exists dups s1,
     find_duplicates (source args) s = (Ret dups, s1) /\
     files s1 = files s /\
     main_find_dupes args s
     = (Ret tt,
        mk_state (files s)
          (stdout s1 ++
           match dups with
           | [] => [Line "No duplicates found."]
           | _ :: _ =>
               Line "Found duplicates:"
               :: map (fun hf => Copies (List.length (snd hf))
                                   (map name (snd hf))) dups
           end)
          (clock s))) /\
  (nodup_keys (files s) = true ->
   exists removed s1,
     remove_duplicates (source args) (keep args) s = (Ret removed, s1) /\
     (List.length (files s1) + List.length removed
      = List.length (files s))%nat /\
     main_remove_dupes args s
     = (Ret tt,
        mk_state (files s1)
          (stdout s1 ++
           match removed with
           | [] => [Line "No duplicates to remove."]
           | _ :: _ =>
               RemovedCount (List.length removed) :: map RemovedName removed
           end)
          (clock s1))).
Proof.
  split.
  - exists (duplicates_of (source args) (files s)). eexists.
    split; [apply find_duplicates_report_eq|]. split; [reflexivity|].
    unfold main_find_dupes. unfold bind at 1.
    rewrite find_duplicates_report_eq.
    destruct (duplicates_of (source args) (files s)) as [|hf dups].
    + reflexivity.
    + unfold bind at 1. unfold print at 1.
      rewrite (print_each
                 (fun hf => Copies (List.length (snd hf)) (map name (snd hf)))).
      cbn [files stdout clock]. now rewrite <- app_assoc.
  - intros Hnk.
    destruct (remove_duplicates_spec (source args) (keep args) s Hnk)
      as (out & _ & E).
    do 2 eexists. split; [exact E|]. split.
    { cbn [files]. rewrite length_map. apply victims_length.
      now apply nodup_keys_NoDup. }
    unfold main_remove_dupes. unfold bind at 1. rewrite E.
    destruct (map name _) as [|n removed].
    + reflexivity.
    + unfold bind at 1. unfold print at 1.
      rewrite (print_each RemovedName).
      cbn [files stdout clock]. now rewrite <- app_assoc.
Qed.

(* ------------------------------------------------------------------ *)
(** ** Entries the date organizer cannot copy *)

(** X15.  The date organizer makes the year and month folder of an entry
    before it tries to copy it.  For a selected entry that cannot be
    copied, a file that cannot be opened or a directory, the date is that
    of the modification time; when that time can be converted the folder
    of its date is made, and only then the copy raises: the entry is skipped, no file is added, nothing
    that existed changes, but the folder stays, empty if nothing else goes
    there. *)
Theorem date_organizer_leaves_folder (src : path) (tn : string) (img : path)
    (organized : dict (list (string * string))) (s : state) (tm : Z)
    (n : node) (d : datetime) :
  lookup (src // tn) (files s) = Some (Dir tm) ->
  lookup img (files s) = Some n ->
  readable_file (Some n) = false ->
  fromtimestamp (mtime_of n) = inr d ->
  folder_ok (src // tn) (Str.of_nat (year d)) (Str.pad 2 (month d)) (files s)
  = true ->
  exists s',
    organize_by_date_file src (src // tn) img organized s
    = (Raise match n with
             | Dir _ => IsADirectoryError
             | File _ _ _ => PermissionError
             end, s') /\
    (exists m,
       lookup (src // tn // Str.of_nat (year d) // Str.pad 2 (month d))
         (files s') = Some (Dir m)) /\
    copies_under (src // tn) (files s') = copies_under (src // tn) (files s) /\
    extends s s'.
Proof.
  intros Ht Hn Hr Hd Hok.
  assert (Eo : date_of n = inr d).
  { unfold date_of, metadata_date. rewrite <- Hd. destruct n as [c fm [|]|fm];
      [discriminate Hr|reflexivity|reflexivity]. }
  assert (Hdt : dated n = true) by (unfold dated; now rewrite Eo).
  assert (Ed : image_date n = d) by (unfold image_date; now rewrite Eo).
  destruct (organize_by_date_file_spec src tn img organized s tm n Ht Hn Hdt)
    as (o & sm & E & G & C & Ho).
  cbv zeta in E, Ho. rewrite Ed in E, Ho.
  destruct o as [[]|e|]; [| |contradiction].
  - destruct Ho as (_ & Hf & i & _ & _ & Es). exists sm.
    split.
    { rewrite Es. destruct n as [c fm [|]|fm];
        [discriminate Hr|reflexivity|reflexivity]. }
    split; [exact Hf|]. split; [exact C|exact (grows_extends _ _ _ _ G)].
  - destruct Ho as (Hok' & _). congruence.
Qed.

(* ------------------------------------------------------------------ *)
(** ** Organizing and the duplicate finder *)

Lemma mkdir_adds (p : path) (s s' : state) (o : outcome unit) :
  mkdir p s = (o, s') ->
  (s' = s /\ (o = Ret tt -> exists m, lookup p (files s) = Some (Dir m))) \/
  (o = Ret tt /\ lookup p (files s) = None /\
   (exists m, lookup (parent p) (files s) = Some (Dir m)) /\
   s' = set_files s (files s ++ [(p, Dir (clock s))])).
Proof.
  intros E.
  destruct (mkdir_cases p s) as [[E1 Hd]|[(E1 & Hp & Hd)|(e & E1 & _)]];
    rewrite E1 in E; injection E as <- <-.
  - left. split; [reflexivity|]. intros _. exact Hd.
  - right. repeat split; auto.
  - left. split; [reflexivity|]. discriminate.
Qed.

Lemma mkdirs_children_grows (target : path) (depth : nat)
    (names : list string) :
  forall s,
  (exists m, lookup target (files s) = Some (Dir m)) ->
  grows target depth s (snd (mkdirs (map (child target) names) s)).
Proof.
  unfold mkdirs. induction names as [|n names IH]; intros s [m Hm].
  - apply grows_refl.
  - cbn [map for_each]. unfold bind.
    destruct (mkdir (target // n) s) as [o s1] eqn:E.
    assert (G1 : grows target depth s s1).
    { destruct (mkdir_adds _ _ _ _ E) as [[-> _]|(_ & _ & _ & ->)];
        [apply grows_refl|].
      apply (grows_snoc target depth s (target // n) [n]);
        [reflexivity|discriminate|discriminate|].
      exists m. now rewrite parent_child. }
    destruct o as [[]|e|]; cbn [snd]; [|exact G1|exact G1].
    apply (grows_trans _ _ _ _ _ G1). apply IH. exists m.
    now apply (grows_extends _ _ _ _ G1).
Qed.

Lemma group_fold_ext (t t' : fs) (xs : list path) :
  (forall x, In x xs -> hash_of t' x = hash_of t x) ->
  forall d, fold_left (group_step t') xs d = fold_left (group_step t) xs d.
Proof.
  induction xs as [|x xs IH]; intros H d; [reflexivity|].
  cbn [fold_left].
  assert (E : group_step t' d x = group_step t d x).
  { unfold group_step. now rewrite (H x (or_introl eq_refl)). }
  rewrite E. apply IH. intros y Hy. apply H. now right.
Qed.

(** The groups when the target folder was made and entries were added
    below it. *)
Lemma duplicates_of_grown (src : path) (tn : string) (depth : nat)
    (s s1 s' : state) :
  s1 = s \/
  (lookup (src // tn) (files s) = None /\
   s1 = set_files s (files s ++ [(src // tn, Dir (clock s))])) ->
  grows (src // tn) depth s1 s' ->
  duplicates_of src (files s') = duplicates_of src (files s).
Proof.
  intros H1 G. unfold duplicates_of. f_equal.
  rewrite (grows_glob_list _ _ _ _ _ G).
  pose proof (grows_extends _ _ _ _ G) as X.
  assert (Old : forall x, In x (glob_list src (files s)) ->
                extends s s' ->
                hash_of (files s') x = hash_of (files s) x).
  { intros x Hx Xs. pose proof (glob_list_exist src (files s)) as F.
    rewrite Forall_forall in F. specialize (F x Hx). unfold hash_of.
    destruct (lookup x (files s)) as [n|] eqn:En; [|contradiction].
    now rewrite (Xs _ _ En). }
  destruct H1 as [->|[Hn ->]].
  - apply group_fold_ext. intros x Hx. now apply Old.
  - assert (Xs : extends s s').
    { apply (extends_trans s
               (set_files s (files s ++ [(src // tn, Dir (clock s))])) s');
        [apply extends_app|exact X]. }
    assert (Ht : hash_of (files s') (src // tn) = None).
    { unfold hash_of.
      rewrite (X (src // tn) (Dir (clock s))); [reflexivity|].
      cbn [files set_files]. now rewrite lookup_snoc, Hn, path_eqb_refl. }
    assert (Eg : exists extra,
               glob_list src
                 (files (set_files s (files s ++ [(src // tn, Dir (clock s))])))
               = glob_list src (files s) ++ extra /\
               forall x, In x extra -> x = src // tn).
    { unfold glob_list. cbn [files set_files].
      rewrite lookup_snoc, scandir_app.
      assert (Ec : scandir src [(src // tn, Dir (clock s))] = [tn]).
      { unfold scandir. cbn [flat_map fst].
        assert (E : child_name src (src // tn) = Some tn)
          by now apply child_name_Some.
        now rewrite E. }
      rewrite Ec.
      assert (Ne : path_eqb (src // tn) src = false).
      { apply path_eqb_neq. apply child_neq. }
      rewrite Ne.
      destruct (lookup src (files s)) as [[c m r|m]|];
        try (exists []; split; [reflexivity|intros x []]).
      rewrite filter_app, map_app. eexists. split; [reflexivity|].
      intros x Hx. cbn [filter] in Hx.
      destruct (fnmatch_star_dot_star tn); [|contradiction].
      destruct Hx as [<-|[]]. reflexivity. }
    destruct Eg as (extra & -> & Hex).
    rewrite fold_left_app.
    rewrite (group_fold_ext (files s) (files s') (glob_list src (files s)))
      by (intros x Hx; now apply Old).
    generalize (fold_left (group_step (files s)) (glob_list src (files s)) []).
    induction extra as [|x extra IH]; intros d; [reflexivity|].
    cbn [fold_left].
    assert (Ex : group_step (files s') d x = d).
    { rewrite (Hex x (or_introl eq_refl)). unfold group_step.
      rewrite Ht. now destruct (has_image_suffix (src // tn)). }
    rewrite Ex. apply IH. intros y Hy. apply Hex. now right.
Qed.

Lemma organize_by_date_grown (src : path) (tn : string) (s : state) :
  plain_name tn = true ->
  exists s1,
    (s1 = s \/
     (lookup (src // tn) (files s) = None /\
      s1 = set_files s (files s ++ [(src // tn, Dir (clock s))]))) /\
    grows (src // tn) 3 s1 (snd (organize_by_date src tn s)).
Proof.
  intros Hp. rewrite (organize_by_date_unfold src tn Hp).
  fold (batch src (mkdir (src // tn))
          (fun organized img =>
             organize_by_date_file src (src // tn) img organized)).
  rewrite batch_unfold.
  destruct (mkdir (src // tn) s) as [o s1] eqn:E.
  pose proof (mkdir_adds _ _ _ _ E) as A.
  assert (Hs1 : s1 = s \/
                (lookup (src // tn) (files s) = None /\
                 s1 = set_files s (files s ++ [(src // tn, Dir (clock s))])))
    by (destruct A as [[-> _]|(_ & Hn & _ & ->)]; auto).
  exists s1. split; [exact Hs1|].
  destruct o as [[]|e|]; cbn [snd]; try apply grows_refl.
  assert (Hd : date_inv src tn s1).
  { destruct A as [[-> Hd]|(_ & Hn & _ & ->)]; [now apply Hd|].
    exists (clock s). cbn [files set_files].
    now rewrite lookup_snoc, Hn, path_eqb_refl. }
  destruct (batch_loop src tn 3
              (fun organized img =>
                 organize_by_date_file src (src // tn) img organized)
              (will_date (src // tn)) (plain_date (src // tn))
              (numbered_date tn) (date_inv src tn)
              (date_inv_extends src tn) (date_will_stable src tn)
              (fun organized img a => date_step src tn organized img a)
              (glob_list src (files s1)) [] s1 Hd
              (glob_list_exist src (files s1)))
    as (organized & s' & El & G & _).
  rewrite_loop El. exact G.
Qed.

Lemma organize_by_size_grown (src : path) (tn : string) (s : state) :
  plain_name tn = true ->
  exists s1,
    (s1 = s \/
     (lookup (src // tn) (files s) = None /\
      s1 = set_files s (files s ++ [(src // tn, Dir (clock s))]))) /\
    grows (src // tn) 2 s1 (snd (organize_by_size src tn s)).
Proof.
  intros Hp. rewrite (organize_by_size_unfold src tn s Hp).
  set (folders := (src // tn) :: map snd (size_categories (src // tn))).
  fold (batch src (mkdirs folders)
          (fun organized img =>
             organize_by_size_file src (size_categories (src // tn))
               img organized)).
  rewrite batch_unfold.
  assert (Em : mkdirs folders s
               = (mkdir (src // tn) ;;
                  mkdirs (map (child (src // tn))
                            ["small"; "medium"; "large"]%string))%monad s)
    by reflexivity.
  destruct (mkdirs_spec folders s) as (o & s2 & E2 & _ & _ & Ho).
  rewrite E2. rewrite Em in E2. unfold bind in E2.
  destruct (mkdir (src // tn) s) as [o1 s1] eqn:E.
  pose proof (mkdir_adds _ _ _ _ E) as A.
  assert (Hs1 : s1 = s \/
                (lookup (src // tn) (files s) = None /\
                 s1 = set_files s (files s ++ [(src // tn, Dir (clock s))])))
    by (destruct A as [[-> _]|(_ & Hn & _ & ->)]; auto).
  exists s1. split; [exact Hs1|].
  destruct o1 as [[]|e1|].
  - assert (Hd : exists m, lookup (src // tn) (files s1) = Some (Dir m)).
    { destruct A as [[-> Hd]|(_ & Hn & _ & ->)]; [now apply Hd|].
      exists (clock s). cbn [files set_files].
      now rewrite lookup_snoc, Hn, path_eqb_refl. }
    pose proof (mkdirs_children_grows (src // tn) 2
                  ["small"; "medium"; "large"]%string s1 Hd) as G1.
    rewrite E2 in G1. cbn [snd] in G1.
    destruct o as [[]|e|]; cbn [snd]; [|exact G1|exact G1].
    destruct (batch_loop src tn 2
                (fun organized img =>
                   organize_by_size_file src (size_categories (src // tn))
                     img organized)
                will_size (plain_size (src // tn)) (numbered_size tn)
                (dirs_exist folders)
                (fun a b => dirs_exist_extends folders a b)
                (size_will_stable src tn)
                (fun organized img a => size_step src tn organized img a)
                (glob_list src (files s2)) [] s2 Ho
                (glob_list_exist src (files s2)))
      as (organized & s' & El & G & _).
    rewrite_loop El. cbn [snd]. exact (grows_trans _ _ _ _ _ G1 G).
  - injection E2 as <- <-. cbn [snd]. apply grows_refl.
  - injection E2 as <- <-. cbn [snd]. apply grows_refl.
Qed.

(** X16.  Organizing does not change what the duplicate finder finds:
    after a run of the date organizer or of the size organizer with a
    target that is one folder name, as the default targets are, finished
    or stopped by an error, [find_duplicates] on the same source returns
    the groups it returned before, in the same order.  The copies are
    below the target folder, which the scan of the source does not enter,
    and the target folder itself is no file. *)
Theorem organizing_keeps_duplicate_groups (src : path) (tn : string)
    (s : state) :
  plain_name tn = true ->
  fst (find_duplicates src (snd (organize_by_date src tn s)))
  = fst (find_duplicates src s) /\
  fst (find_duplicates src (snd (organize_by_size src tn s)))
  = fst (find_duplicates src s).
Proof.
  intros Hp. split.
  - destruct (organize_by_date_grown src tn s Hp) as (s1 & H1 & G).
    rewrite !find_duplicates_report_eq. cbn [fst]. f_equal.
    exact (duplicates_of_grown src tn 3 s s1 _ H1 G).
  - destruct (organize_by_size_grown src tn s Hp) as (s1 & H1 & G).
    rewrite !find_duplicates_report_eq. cbn [fst]. f_equal.
    exact (duplicates_of_grown src tn 2 s s1 _ H1 G).
Qed.

(* ------------------------------------------------------------------ *)
(** ** Every selected entry is accounted for *)

Lemma quiet_ret {A} (a : A) : quiet (ret a).
Proof. intros s o s' H. now injection H as _ <-. Qed.

Lemma quiet_raise {A} (e : exn) : quiet (@raise A e).
Proof. intros s o s' H. now injection H as _ <-. Qed.

Lemma quiet_diverge {A} : quiet (@diverge A).
Proof. intros s o s' H. now injection H as _ <-. Qed.

Lemma quiet_bind {A B} (c : M A) (k : A -> M B) :
  quiet c -> (forall a, quiet (k a)) -> quiet (bind c k).
Proof.
  intros Hc Hk s o s' H. unfold bind in H.
  destruct (c s) as [[a|e|] s1] eqn:E.
  - rewrite (Hk a _ _ _ H). exact (Hc _ _ _ E).
  - injection H as _ <-. exact (Hc _ _ _ E).
  - injection H as _ <-. exact (Hc _ _ _ E).
Qed.

Lemma quiet_try_except {A} (c : M A) (h : exn -> M A) :
  quiet c -> (forall e, quiet (h e)) -> quiet (try_except c h).
Proof.
  intros Hc Hh s o s' H. unfold try_except in H.
  destruct (c s) as [[a|e|] s1] eqn:E.
  - injection H as _ <-. exact (Hc _ _ _ E).
  - rewrite (Hh e _ _ _ H). exact (Hc _ _ _ E).
  - injection H as _ <-. exact (Hc _ _ _ E).
Qed.

Lemma quiet_same {A} (c : M A) :
  (forall s, snd (c s) = s) -> quiet c.
Proof.
  intros H s o s' E. pose proof (H s) as K. rewrite E in K. cbn in K.
  now subst s'.
Qed.

Lemma quiet_os_mkdir (p : path) : quiet (os_mkdir p).
Proof.
  intros s o s' H. unfold os_mkdir in H.
  destruct (lookup p (files s)); [now injection H as _ <-|].
  destruct (lookup (parent p) (files s)) as [[? ? ?|?]|];
    now injection H as _ <-.
Qed.

Lemma quiet_is_dir (p : path) : quiet (is_dir p).
Proof. apply quiet_same. reflexivity. Qed.

Lemma quiet_mkdir (p : path) : quiet (mkdir p).
Proof.
  unfold mkdir. apply quiet_try_except; [apply quiet_os_mkdir|].
  intros e.
  assert (Q : quiet (d <- is_dir p ;; if d then ret tt else raise e)%monad).
  { apply quiet_bind; [apply quiet_is_dir|].
    intros [|]; [apply quiet_ret|apply quiet_raise]. }
  destruct e; try exact Q. apply quiet_raise.
Qed.

Lemma quiet_mkdir_parents (p : path) : quiet (mkdir_parents p).
Proof.
  unfold mkdir_parents. induction (rev p) as [|c r IH];
    cbn [mkdir_parents_rev]; apply quiet_try_except;
    try apply quiet_os_mkdir; intros e.
  - assert (Q : quiet (d <- is_dir (rev []) ;;
                       if d then ret tt else raise e)%monad).
    { apply quiet_bind; [apply quiet_is_dir|].
      intros [|]; [apply quiet_ret|apply quiet_raise]. }
    destruct e; try exact Q. apply quiet_raise.
  - assert (Q : quiet (d <- is_dir (rev (c :: r)) ;;
                       if d then ret tt else raise e)%monad).
    { apply quiet_bind; [apply quiet_is_dir|].
      intros [|]; [apply quiet_ret|apply quiet_raise]. }
    destruct e; try exact Q.
    apply quiet_bind; [exact IH|]. intros ?. apply quiet_mkdir.
Qed.

Lemma quiet_mkdirs (ps : list path) : quiet (mkdirs ps).
Proof.
  unfold mkdirs. induction ps as [|p ps IH]; cbn [for_each].
  - apply quiet_ret.
  - apply quiet_bind; [apply quiet_mkdir|]. intros []. exact IH.
Qed.

Lemma quiet_while_exists (fuel : nat) (candidate : nat -> path) :
  forall base k, quiet (while_exists fuel candidate base k).
Proof.
  induction fuel as [|fuel IH]; intros base k; cbn [while_exists];
    (apply quiet_bind; [apply quiet_same; reflexivity|]);
    intros [|]; try apply quiet_ret; [apply quiet_diverge|apply IH].
Qed.

Lemma quiet_copy2 (a b : path) : quiet (copy2 a b).
Proof.
  intros s o s' H. unfold copy2 in H. cbv zeta in H.
  repeat match type of H with
         | (if ?c then _ else _) = _ => destruct c
         | match ?x with _ => _ end = _ => destruct x
         end; now injection H as _ <-.
Qed.

Lemma quiet_place (source_path dir : path) (plain : string)
    (numbered : nat -> string) (img : path) (key : string)
    (organized : dict (list (string * string))) :
  quiet (place source_path dir plain numbered img key organized).
Proof.
  unfold place. apply quiet_bind; [apply quiet_same; reflexivity|].
  intros fuel. apply quiet_bind; [apply quiet_while_exists|].
  intros tf. apply quiet_bind; [apply quiet_copy2|].
  intros ?. apply quiet_bind.
  - unfold relative_to_or_raise.
    destruct (relative_to tf source_path); [apply quiet_ret|apply quiet_raise].
  - intros rel. apply quiet_ret.
Qed.

Lemma quiet_organize_by_date_file (src target img : path)
    (organized : dict (list (string * string))) :
  quiet (organize_by_date_file src target img organized).
Proof.
  unfold organize_by_date_file. apply quiet_bind.
  - apply quiet_same. intros s. rewrite get_image_date_spec.
    now destruct (lookup img (files s)).
  - intros d. apply quiet_bind; [apply quiet_mkdir_parents|].
    intros ?. apply quiet_place.
Qed.

Lemma quiet_organize_by_size_file (src : path) (categories : dict path)
    (img : path) (organized : dict (list (string * string))) :
  quiet (organize_by_size_file src categories img organized).
Proof.
  unfold organize_by_size_file. apply quiet_bind.
  - apply quiet_same. intros s. now rewrite get_image_size_spec.
  - intros wh. apply quiet_bind.
    + unfold lookup_category.
      destruct (dict_get _ categories); [apply quiet_ret|apply quiet_raise].
    + intros cat_dir.
      exact (quiet_place src cat_dir (name img)
               (fun counter => (stem img ++ "_" ++ Str.of_nat counter
                                ++ suffix img)%string)
               img _ organized).
Qed.

Lemma organize_by_size_file_key (src : path) (categories : dict path)
    (img : path) (organized organized' : dict (list (string * string)))
    (s s' : state) :
  organize_by_size_file src categories img organized s = (Ret organized', s')
  -> exists k new, organized' = dict_append k (name img, new) organized.
Proof.
  unfold organize_by_size_file. intros H.
  apply bind_Ret in H as (wh & s1 & _ & H).
  apply bind_Ret in H as (cd & s2 & _ & H).
  apply bind_Ret in H as (fuel & s3 & _ & H).
  apply bind_Ret in H as (tf & s4 & _ & H).
  apply bind_Ret in H as (u' & s5 & _ & H).
  apply bind_Ret in H as (rel & s6 & _ & H).
  unfold ret in H. injection H as <- _. eauto.
Qed.

(** A loop of guarded steps that print nothing and record one entry when
    they succeed: each selected entry is recorded or reported. *)
Lemma loop_accounts
    (step : dict (list (string * string)) -> path
            -> M (dict (list (string * string)))) :
  (forall o x, quiet (step o x)) ->
  (forall o x s o' s', step o x s = (Ret o', s') -> total o' = S (total o)) ->
  forall xs organized s organized' s',
  for_each xs organized (guarded step) s = (Ret organized', s') ->
  exists out,
    stdout s' = stdout s ++ out /\
    (total organized' + List.length out
     = total organized + List.length (filter has_image_suffix xs))%nat /\
    Forall (skipped_line (filter has_image_suffix xs)) out.
Proof.
  intros Hq Hk. induction xs as [|x xs IH];
    intros organized s organized' s' H.
  - cbn in H. unfold ret in H. injection H as <- <-. exists [].
    rewrite app_nil_r. split; [reflexivity|].
    split; [reflexivity|constructor].
  - cbn [for_each] in H. apply bind_Ret in H as (o1 & s1 & H1 & H).
    destruct (IH _ _ _ _ H) as (out & Eo & Et & Fo).
    unfold guarded in H1. cbn [filter].
    destruct (has_image_suffix x).
    + unfold try_except in H1.
      destruct (step organized x s) as [[o|e|] s2] eqn:E.
      * injection H1 as <- <-. exists out.
        rewrite Eo, (Hq _ _ _ _ _ E). split; [reflexivity|].
        rewrite (Hk _ _ _ _ _ E) in Et. split; [cbn; lia|].
        eapply Forall_impl; [|exact Fo].
        intros l (p & e & -> & Hp). exists p, e. split; [reflexivity|].
        now right.
      * unfold bind, print, ret in H1. injection H1 as <- <-.
        exists (ErrorProcessing x e :: out).
        cbn [stdout] in Eo. rewrite Eo, (Hq _ _ _ _ _ E), <- app_assoc.
        split; [reflexivity|]. split; [cbn; lia|].
        constructor.
        -- exists x, e. split; [reflexivity|now left].
        -- eapply Forall_impl; [|exact Fo].
           intros l (p & e' & -> & Hp). exists p, e'.
           split; [reflexivity|now right].
      * discriminate.
    + unfold ret in H1. injection H1 as <- <-. exists out. auto.
Qed.

(** X17.  Neither organizer, run with a target that is one folder name
    as the default targets are, drops a selected entry in silence: whenever
    a run returns, everything it has printed is one line per skipped
    entry, naming a selected entry and the error, and the entries of the
    record and the lines printed together are as many as the entries the
    scan selected. *)
Theorem organizers_account_for_every_entry (src : path) (tn : string)
    (s : state) :
  plain_name tn = true ->
  (forall result s',
     organize_by_date src tn s = (Ret result, s') ->
     let selected :=
       selected_files src (files (snd (mkdir (src // tn) s))) in
     exists out,
       stdout s' = stdout s ++ out /\
       (total result + List.length out = List.length selected)%nat /\
       Forall (skipped_line selected) out) /\
  (forall result s',
     organize_by_size src tn s = (Ret result, s') ->
     let selected :=
       selected_files src
         (files (snd (mkdirs ((src // tn)
                              :: map snd (size_categories (src // tn))) s)))
     in
     exists out,
       stdout s' = stdout s ++ out /\
       (total result + List.length out = List.length selected)%nat /\
       Forall (skipped_line selected) out).
Proof.
  intros Hp. split.
  - intros result s' E selected.
    rewrite (organize_by_date_unfold src tn Hp) in E.
    apply bind_Ret in E as (u & s1 & E1 & E).
    apply bind_Ret in E as (imgs & s2 & E2 & E).
    rewrite glob_spec in E2. injection E2 as <- <-.
    destruct (loop_accounts _
                (fun o x => quiet_organize_by_date_file src (src // tn) x o)
                (fun o x a o' a' H =>
                   match organize_by_date_file_key _ _ _ _ _ _ _ H with
                   | ex_intro _ new Hn =>
                       eq_trans (f_equal total Hn)
                         (total_dict_append _ _ _)
                   end)
                _ _ _ _ _ E) as (out & Eo & Et & Fo).
    exists out. rewrite Eo, (quiet_mkdir _ _ _ _ E1).
    subst selected. rewrite E1. cbn [snd]. unfold selected_files.
    repeat split; [exact Et|exact Fo].
  - intros result s' E selected.
    rewrite (organize_by_size_unfold src tn s Hp) in E.
    apply bind_Ret in E as (u & s1 & E1 & E).
    apply bind_Ret in E as (imgs & s2 & E2 & E).
    rewrite glob_spec in E2. injection E2 as <- <-.
    destruct (loop_accounts _
                (fun o x => quiet_organize_by_size_file src
                              (size_categories (src // tn)) x o)
                (fun o x a o' a' H =>
                   match organize_by_size_file_key _ _ _ _ _ _ _ H with
                   | ex_intro _ k (ex_intro _ new Hn) =>
                       eq_trans (f_equal total Hn)
                         (total_dict_append _ _ _)
                   end)
                _ _ _ _ _ E) as (out & Eo & Et & Fo).
    exists out. rewrite Eo, (quiet_mkdirs _ _ _ _ E1).
    subst selected. rewrite E1. cbn [snd]. unfold selected_files.
    repeat split; [exact Et|exact Fo].
Qed.

End Organizer.

(* ------------------------------------------------------------------ *)
(** ** The statements at concrete inputs *)

Local Open Scope list_scope.

Lemma categorize_by_size_thresholds_witness :
  categorize_by_size 1000 500 = "medium" /\
  categorize_by_size 640 480 = "small".
Proof.
  split.
  - destruct (categorize_by_size_thresholds 1000 500) as (_ & _ & _ & H & _);
      [lia|lia|]. apply H. reflexivity.
  - destruct (categorize_by_size_thresholds 640 480) as (H & _);
      [lia|lia|]. apply H. reflexivity.
Defined.

(** The date extractor raises: for a path that names nothing, since the
    fallback [os.path.getmtime] is outside the [try], and for a file whose
    modification time is past the year 9999, which
    [datetime.fromtimestamp] rejects. *)
Lemma get_image_date_missing_path_raises :
  get_image_date Demo.decode Demo.fromtimestamp ["photos"; "gone.jpg"]
    Demo.photos
  = (Raise FileNotFoundError, Demo.photos) /\
  let s :=
    mk_state [([], Dir 0); (["photos"], Dir 0);
              (["photos"; "far.png"], File Demo.png_plain 253402300800 true)]
             [] 9 in
  get_image_date Demo.decode Demo.fromtimestamp ["photos"; "far.png"] s
  = (Raise ValueError, s).
Proof. split; vm_compute; reflexivity. Qed.

Lemma get_image_date_falls_back_witness :
  get_image_date Demo.decode Demo.fromtimestamp ["photos"; "locked.png"]
    Demo.photos
  = (Ret (mk_datetime 2021 6 15 10 30 4), Demo.photos).
Proof.
  destruct (get_image_date_falls_back Demo.decode Demo.fromtimestamp
              ["photos"; "locked.png"] Demo.photos
              (File Demo.png_plain 1623753004 false) eq_refl) as [H _].
  rewrite H. vm_compute. reflexivity.
Defined.




Lemma remove_duplicates_keeps_one_witness :
  fst (remove_duplicates MD5.hexdigest ["photos"] "first" Demo.photos)
  = Ret ["c.JPG"] /\
  fst (remove_duplicates MD5.hexdigest ["photos"] "last" Demo.photos)
  = Ret ["a.jpg"].
Proof.
  destruct (find_duplicates MD5.hexdigest ["photos"] Demo.photos)
    as [[dups|e|] s1] eqn:Ef;
    [|vm_compute in Ef; discriminate|vm_compute in Ef; discriminate].
  split.
  - destruct (remove_duplicates_keeps_one MD5.hexdigest ["photos"] "first"
                Demo.photos dups s1 eq_refl Ef) as [(s' & E & _) _].
    rewrite E. vm_compute in Ef. injection Ef as <- _.
    vm_compute. reflexivity.
  - destruct (remove_duplicates_keeps_one MD5.hexdigest ["photos"] "last"
                Demo.photos dups s1 eq_refl Ef) as [(s' & E & _) _].
    rewrite E. vm_compute in Ef. injection Ef as <- _.
    vm_compute. reflexivity.
Defined.

Lemma only_the_remover_deletes_witness :
  lookup ["photos"; "a.jpg"]
    (files (snd (remove_duplicates MD5.hexdigest ["photos"] "first"
                   Demo.photos)))
  = Some (File Demo.jpeg_first 1623753000 true).
Proof.
  destruct (find_duplicates MD5.hexdigest ["photos"] Demo.photos)
    as [[dups|e|] s1] eqn:Ef;
    [|vm_compute in Ef; discriminate|vm_compute in Ef; discriminate].
  destruct (only_the_remover_deletes Demo.decode MD5.hexdigest
              Demo.fromtimestamp Demo.small_year ["photos"] "organized"
              "first" Demo.photos)
    as (_ & _ & _ & H).
  destruct (H eq_refl dups s1 Ef) as (_ & _ & H3).
  vm_compute in Ef. injection Ef as <- _.
  destruct (H3 _ _ (or_introl eq_refl)) as (_ & _ & Hk & _).
  etransitivity; [exact Hk|]. vm_compute. reflexivity.
Defined.

(** Two files whose bytes differ and whose MD5 digests agree are returned
    as one duplicate group. *)
Lemma find_duplicates_groups_md5_collision :
  Demo.collision_1 <> Demo.collision_2 /\
  fst (find_duplicates MD5.hexdigest ["scans"] Demo.colliding)
  = Ret [("79054025255fb1a26e4bc422aef54eb4",
          [["scans"; "page1.png"]; ["scans"; "page2.png"]])].
Proof.
  split.
  - intros H. vm_compute in H. discriminate.
  - vm_compute. reflexivity.
Qed.

Lemma find_duplicates_groups_witness :
  exists dups s' g,
    find_duplicates MD5.hexdigest ["photos"] Demo.photos = (Ret dups, s') /\
    In (MD5.hexdigest Demo.jpeg_first, g) dups /\
    In ["photos"; "a.jpg"] g /\ In ["photos"; "c.JPG"] g.
Proof.
  destruct (find_duplicates_groups MD5.hexdigest ["photos"] Demo.photos)
    as (dups & s' & E & _ & _ & _ & Hsame & _).
  destruct (Hsame ["photos"; "a.jpg"] ["photos"; "c.JPG"] Demo.jpeg_first
              1623753000%Z 1623753002%Z) as (g & Hg & Ha & Hc).
  - discriminate.
  - vm_compute. tauto.
  - vm_compute. tauto.
  - reflexivity.
  - reflexivity.
  - exists dups, s', g. auto.
Defined.

(** The mode flags are four independent [store_true] options: a command
    line with two of them is accepted, both are set in the namespace, and
    [main] runs the date organizer only. *)
Lemma mode_flags_are_not_exclusive :
  let argv := [TPositional ["photos"]; TByDate; TBySize] in
  let args := mk_Namespace ["photos"] true true false false "first" in
  parse_args argv = Parsed args /\
  flag_count args = 2%nat /\
  main Demo.decode MD5.hexdigest Demo.fromtimestamp Demo.small_year argv
  = main_by_date Demo.decode Demo.fromtimestamp Demo.small_year args /\
  parse_args [TPositional ["photos"]; TBySize; TByDate] = Parsed args.
Proof. repeat split. Qed.

Lemma command_dispatch_witness :
  main Demo.decode MD5.hexdigest Demo.fromtimestamp Demo.small_year
    [TPositional ["photos"]; TKeep "last"] Demo.photos
  = (Ret tt, Demo.photos) /\
  main Demo.decode MD5.hexdigest Demo.fromtimestamp Demo.small_year
    [TPositional ["photos"]; TPositional ["album"]; TByDate] Demo.photos
  = (Raise (SystemExit 2), Demo.photos).
Proof.
  split.
  - pose proof (command_dispatch Demo.decode MD5.hexdigest
                  Demo.fromtimestamp Demo.small_year
                  [TPositional ["photos"]; TKeep "last"]) as H.
    replace (accepts [TPositional ["photos"]; TKeep "last"]) with true in H
      by reflexivity.
    destruct H as (args & E & _ & _ & _ & _ & _ & _ & _ & _ & H).
    injection E as <-. apply H. reflexivity.
  - pose proof (command_dispatch Demo.decode MD5.hexdigest
                  Demo.fromtimestamp Demo.small_year
                  [TPositional ["photos"]; TPositional ["album"]; TByDate])
      as H.
    replace (accepts [TPositional ["photos"]; TPositional ["album"];
                      TByDate]) with false in H by reflexivity.
    destruct H as (status & E & H).
    injection E as <-. apply H.
Defined.

(** Selected entries the date organizer does not copy: a picture that
    cannot be opened, and a picture without metadata whose modification
    time is past the year 9999.  Nothing lands in the target and the two
    failures are printed. *)
Lemma date_organizer_skips_unreadable :
  let s :=
    mk_state [([], Dir 0); (["photos"], Dir 0);
              (["photos"; "locked.png"], File Demo.png_plain 5 false);
              (["photos"; "far.png"], File Demo.png_plain 253402300800 true)]
             [] 9 in
  selected_files ["photos"] (files s)
  = [["photos"; "locked.png"]; ["photos"; "far.png"]] /\
  fst (organize_by_date Demo.decode Demo.fromtimestamp Demo.small_year
         ["photos"] "organized_by_date" s)
  = Ret [] /\
  copies_under ["photos"; "organized_by_date"]
    (files (snd (organize_by_date Demo.decode Demo.fromtimestamp
                   Demo.small_year ["photos"] "organized_by_date" s)))
  = 0%nat /\
  stdout (snd (organize_by_date Demo.decode Demo.fromtimestamp
                 Demo.small_year ["photos"] "organized_by_date" s))
  = [ErrorProcessing ["photos"; "locked.png"] PermissionError;
     ErrorProcessing ["photos"; "far.png"] ValueError].
Proof. vm_compute. repeat split. Qed.

Lemma date_organizer_placement_witness :
  fst (organize_by_date Demo.decode Demo.fromtimestamp Demo.small_year
         ["photos"] "organized_by_date"
         (mk_state [([], Dir 0); (["photos"], Dir 0);
                    (["photos"; "a.jpg"], File Demo.jpeg_first 7 true);
                    (["photos"; "b.jpg"], File Demo.jpeg_second 8 true)]
            [] 0))
  = Ret [("date",
          [("a.jpg", "organized_by_date/2021/06/20210615_103000.jpg");
           ("b.jpg", "organized_by_date/2021/06/20210615_103000_1.jpg")])] /\
  fst (organize_by_date_file Demo.decode Demo.fromtimestamp Demo.small_year
         ["photos"] ["photos"; "organized_by_date"] ["photos"; "c.JPG"] []
         (snd (mkdir ["photos"; "organized_by_date"] Demo.photos)))
  = Ret [("date",
          [("c.JPG", "organized_by_date/2021/06/20210615_103000.JPG")])] /\
  strftime_stamp Demo.small_year (mk_datetime 2021 6 15 10 30 0)
  = "20210615_103000".
Proof.
  destruct (date_organizer_placement Demo.decode Demo.fromtimestamp
              Demo.small_year) as (G & Y & _ & E).
  split; [|split].
  - apply E; reflexivity.
  - pose proof (G ["photos"] "organized_by_date" ["photos"; "c.JPG"] []
                  (snd (mkdir ["photos"; "organized_by_date"] Demo.photos))
                  (clock Demo.photos)
                  (File Demo.jpeg_first 1623753002 true) eq_refl eq_refl)
      as H.
    match type of H with (match ?x with inl _ => _ | inr _ => _ end) =>
      replace x with (@inr exn datetime (mk_datetime 2021 6 15 10 30 0)) in H
        by (vm_compute; reflexivity)
    end.
    cbv beta iota zeta in H.
    match type of H with (if ?b then _ else _) =>
      replace b with true in H by (vm_compute; reflexivity)
    end.
    destruct H as (i & s' & H & Hf & Htk & _).
    destruct i as [|i].
    + etransitivity; [exact (f_equal fst H)|]. vm_compute. reflexivity.
    + exfalso. apply (Htk 0%nat (Nat.lt_0_succ i)). vm_compute. reflexivity.
  - rewrite (Y (mk_datetime 2021 6 15 10 30 0)) by (cbn [year]; lia).
    reflexivity.
Defined.

Lemma scans_select_supported_extensions_witness :
  In ["photos"; "c.JPG"] (selected_files ["photos"] (files Demo.photos)) /\
  ~ In ["photos"; "notes.txt"]
      (selected_files ["photos"] (files Demo.photos)) /\
  NoDup (selected_files ["photos"] (files Demo.photos)).
Proof.
  destruct (scans_select_supported_extensions Demo.decode MD5.hexdigest
              Demo.fromtimestamp Demo.small_year ["photos"]) as (S & N & _).
  split; [|split].
  - apply S. split; [eexists; reflexivity|].
    exists "c.JPG"%string. split; [reflexivity|]. split; [discriminate|].
    exists "c"%string, "JPG"%string. split; [reflexivity|].
    split; [discriminate|]. left. reflexivity.
  - intros H. apply S in H. destruct H as (_ & n & E & _ & H).
    apply (has_image_suffix_supported ["photos"]) in H. rewrite <- E in H.
    discriminate H.
  - apply N. reflexivity.
Defined.

Lemma calculate_file_hash_whole_content_witness :
  read_chunks 4 (S (List.length Demo.gif_small)) Demo.gif_small []
  = Some Demo.gif_small.
Proof.
  apply (proj2 (calculate_file_hash_whole_content MD5.hexdigest
                  ["photos"; "a.jpg"] Demo.photos) 4%nat Demo.gif_small).
  lia.
Defined.

Lemma categorize_by_size_pixels_witness :
  categorize_by_size 640 480 = "small".
Proof.
  destruct (categorize_by_size_pixels 640 480 700 500 ["photos"])
    as (_ & _ & _ & H).
  apply H; [lia|reflexivity].
Defined.


Lemma organize_by_date_outcome_witness :
  exists organized s',
    organize_by_date Demo.decode Demo.fromtimestamp Demo.small_year
      ["photos"] "organized_by_date" Demo.photos = (Ret organized, s') /\
    total organized = 4%nat.
Proof.
  pose proof (organize_by_date_outcome Demo.decode Demo.fromtimestamp
                Demo.small_year ["photos"] "organized_by_date" Demo.photos
                eq_refl) as H.
  match type of H with (if ?b then _ else _) =>
    replace b with true in H by (vm_compute; reflexivity)
  end.
  destruct H as (organized & s' & E & _ & T & _).
  exists organized, s'. split; [exact E|].
  etransitivity; [exact T|]. vm_compute. reflexivity.
Defined.


Lemma find_duplicates_report_witness :
  hashing_error (files Demo.photos) ["photos"; "a.jpg"] = [] /\
  stdout (snd (find_duplicates MD5.hexdigest ["photos"] Demo.photos))
  = [ErrorHashing ["photos"; "locked.png"] PermissionError;
     ErrorHashing ["photos"; "album.bmp"] IsADirectoryError].
Proof.
  destruct (find_duplicates_report MD5.hexdigest ["photos"] Demo.photos)
    as (dups & E & _ & H).
  split.
  - pose proof (f_equal fst E) as Ed. vm_compute in Ed. injection Ed as Ed.
    apply (H "ec5057be35583ee7338a1c0f5a4d4039"%string
             [["photos"; "a.jpg"]; ["photos"; "c.JPG"]] ["photos"; "a.jpg"]).
    + rewrite <- Ed. left. reflexivity.
    + left. reflexivity.
  - rewrite E. vm_compute. reflexivity.
Defined.

Lemma remove_duplicates_settles_witness :
  fst (find_duplicates MD5.hexdigest ["photos"]
         (snd (remove_duplicates MD5.hexdigest ["photos"] "first"
                 Demo.photos)))
  = Ret [].
Proof.
  exact (proj1 (remove_duplicates_settles MD5.hexdigest ["photos"]
                  "first" "last" Demo.photos eq_refl)).
Defined.

Lemma remove_duplicates_count_witness :
  exists removed s',
    remove_duplicates MD5.hexdigest ["photos"] "first" Demo.photos
    = (Ret removed, s') /\
    List.length removed = 1%nat.
Proof.
  destruct (find_duplicates MD5.hexdigest ["photos"] Demo.photos)
    as [[dups|e|] s1] eqn:Ef;
    [|vm_compute in Ef; discriminate|vm_compute in Ef; discriminate].
  destruct (remove_duplicates_count MD5.hexdigest ["photos"] "first"
              Demo.photos dups s1 eq_refl Ef) as (removed & s' & E & L & _).
  exists removed, s'. split; [exact E|].
  rewrite L. vm_compute in Ef. injection Ef as <- _. reflexivity.
Defined.

Lemma source_is_no_directory_witness :
  find_duplicates MD5.hexdigest ["holiday"] Demo.photos
  = (Ret [], Demo.photos) /\
  organize_by_date Demo.decode Demo.fromtimestamp Demo.small_year ["holiday"]
    "organized_by_date" Demo.photos
  = (Raise FileNotFoundError, Demo.photos).
Proof.
  destruct (source_is_no_directory Demo.decode MD5.hexdigest
              Demo.fromtimestamp Demo.small_year ["holiday"]
              "organized_by_date" "first" Demo.photos) as (F & _ & O).
  - intros m H. vm_compute in H. discriminate H.
  - split; [exact F|]. exact (proj1 (O eq_refl eq_refl)).
Defined.

Lemma sort_by_mtime_stable_witness :
  exists l,
    sort_by_mtime [["photos"; "c.JPG"]; ["photos"; "a.jpg"]] Demo.photos
    = (Ret l, Demo.photos) /\
    Permutation l [["photos"; "c.JPG"]; ["photos"; "a.jpg"]].
Proof.
  destruct (sort_by_mtime_stable
              [["photos"; "c.JPG"]; ["photos"; "a.jpg"]] Demo.photos)
    as (l & E & P & _).
  - repeat constructor; do 3 eexists; reflexivity.
  - now exists l.
Defined.

Lemma parse_args_namespace_witness :
  parse_args [TKeep "last"; TRemoveDupes; TPositional ["photos"];
              TKeep "first"; TRemoveDupes]
  = Parsed (mk_Namespace ["photos"] false false false true "first").
Proof.
  exact (proj1 (parse_args_namespace
                  [TKeep "last"; TRemoveDupes; TPositional ["photos"];
                   TKeep "first"; TRemoveDupes]) eq_refl).
Defined.

Lemma main_lists_every_copy_witness :
  exists result s1,
    organize_by_date Demo.decode Demo.fromtimestamp Demo.small_year ["photos"]
      "organized_by_date" Demo.photos = (Ret result, s1) /\
    main_by_date Demo.decode Demo.fromtimestamp Demo.small_year
      (mk_Namespace ["photos"] true false false false "first") Demo.photos
    = (Ret tt,
       mk_state (files s1)
         (stdout s1 ++
          Line "Organized by date:"
          :: map (fun ff => DateEntry (fst ff) (snd ff)) (values result))
         (clock s1)).
Proof.
  destruct (organize_by_date Demo.decode Demo.fromtimestamp Demo.small_year
              ["photos"] "organized_by_date" Demo.photos)
    as [[result|e|] s1] eqn:E;
    [|vm_compute in E; discriminate|vm_compute in E; discriminate].
  exists result, s1. split; [reflexivity|].
  destruct (main_lists_every_copy Demo.decode Demo.fromtimestamp Demo.small_year
              (mk_Namespace ["photos"] true false false false "first")
              Demo.photos) as (H & _).
  exact (proj1 (H result s1 E)).
Defined.

Lemma main_reports_duplicates_witness :
  exists removed s1,
    remove_duplicates MD5.hexdigest ["photos"] "last" Demo.photos
    = (Ret removed, s1) /\
    (List.length (files s1) + List.length removed
     = List.length (files Demo.photos))%nat.
Proof.
  destruct (main_reports_duplicates MD5.hexdigest
              (mk_Namespace ["photos"] false false false true "last")
              Demo.photos) as (_ & H).
  destruct (H eq_refl) as (removed & s1 & E & L & _).
  exists removed, s1. split; [exact E|exact L].
Defined.

Lemma date_organizer_leaves_folder_witness :
  exists s',
    organize_by_date_file Demo.decode Demo.fromtimestamp Demo.small_year
      ["photos"] ["photos"; "organized_by_date"] ["photos"; "album.bmp"] []
      (snd (mkdir ["photos"; "organized_by_date"] Demo.photos))
    = (Raise IsADirectoryError, s') /\
    file_at (files s') ["photos"; "organized_by_date"; "2021"; "06"] = false /\
    lookup ["photos"; "organized_by_date"; "2021"; "06"] (files s') <> None.
Proof.
  destruct (date_organizer_leaves_folder Demo.decode Demo.fromtimestamp
              Demo.small_year ["photos"] "organized_by_date"
              ["photos"; "album.bmp"] []
              (snd (mkdir ["photos"; "organized_by_date"] Demo.photos))
              (clock Demo.photos) (Dir 1623753006)
              (mk_datetime 2021 6 15 10 30 6))
    as (s' & E & (m & Hd) & _).
  - reflexivity.
  - reflexivity.
  - reflexivity.
  - vm_compute. reflexivity.
  - vm_compute. reflexivity.
  - exists s'. split; [exact E|].
    assert (Hd' : lookup ["photos"; "organized_by_date"; "2021"; "06"]
                    (files s') = Some (Dir m)).
    { etransitivity; [|exact Hd]. f_equal. }
    unfold file_at. rewrite Hd'. split; [reflexivity|discriminate].
Defined.

Lemma organizing_keeps_duplicate_groups_witness :
  fst (find_duplicates MD5.hexdigest ["photos"]
         (snd (organize_by_date Demo.decode Demo.fromtimestamp
                 Demo.small_year ["photos"] "organized_by_date" Demo.photos)))
  = fst (find_duplicates MD5.hexdigest ["photos"] Demo.photos).
Proof.
  exact (proj1 (organizing_keeps_duplicate_groups Demo.decode MD5.hexdigest
                  Demo.fromtimestamp Demo.small_year ["photos"]
                  "organized_by_date" Demo.photos eq_refl)).
Defined.

Lemma organizers_account_for_every_entry_witness :
  exists result s' out,
    organize_by_date Demo.decode Demo.fromtimestamp Demo.small_year
      ["photos"] "organized_by_date" Demo.photos = (Ret result, s') /\
    stdout s' = stdout Demo.photos ++ out /\
    (total result + List.length out = 6)%nat.
Proof.
  destruct (organize_by_date Demo.decode Demo.fromtimestamp Demo.small_year
              ["photos"] "organized_by_date" Demo.photos)
    as [[result|e|] s'] eqn:E;
    [|vm_compute in E; discriminate|vm_compute in E; discriminate].
  destruct (organizers_account_for_every_entry Demo.decode
              Demo.fromtimestamp Demo.small_year ["photos"]
              "organized_by_date" Demo.photos eq_refl) as (H & _).
  pose proof (H result s' E) as K. cbv zeta in K.
  destruct K as (out & Eo & Et & _).
  exists result, s', out. split; [reflexivity|]. split; [exact Eo|].
  etransitivity; [exact Et|]. vm_compute. reflexivity.
Defined.
